(* ===== verification/_CoqProject ===== *)
-Q . S2P
Prelude.v
Orm.v
Format.v
Flavor.v
Host.v
Project.v
System.v
Repair.v
Signals.v
Interleave.v
Race.v
IpSpec.v
