(* ===== verification/Prelude.v ===== *)
(** * A verification development of ralph's virtual-asset models

    The repository is the part of the ralph asset-management application
    that declares the virtual/cloud record types:
    - [src/src/ralph/virtual/models.py]: [CloudProvider], [CloudFlavor]
      (with the [cores]/[memory]/[disk] derived properties, [_get_component]
      and [_set_component]), [CloudProject] and its [post_save] receiver
      [update_service_env_on_cloudproject_save], [CloudHost] (its [save]
      override, the [ip_addresses] property and setter, the [cloudproject]
      accessor), [VirtualComponent] and [VirtualServer];
    - [src/src/ralph/data_center/models/virtual.py]: [Database] and [VIP].

    The components interact only through the relational store: the flavor
    accessors read and write the [VirtualComponent] and [ComponentModel]
    tables, the host code reads its parent [BaseObject] and writes the
    [IPAddress] table, and the project receiver bulk-updates the children
    of a project.  The development therefore models the store once and
    every handler as a function on it.

    ** Files, in dependency order

    - [Prelude] (this file): the state-and-exception monad [M] in which
      every Django method is written ([ret], [bind] with the notation
      [x <- m ;; k], [raise], [try_except] for Python's [try/except],
      [for_each] for a Python [for] loop), the Python exception type
      [Exc], the invariant calculus [preserves] with its combinator
      lemmas and the tactic [solve_preserves], the hint databases
      [ralph], [ralph_rw] and [ralph_inv], and list and string
      lemmas shared by the formatting code.
    - [Orm]: the store (tables of base objects, component models, virtual
      components, IP addresses, and the warning log), the record types of
      the models ([CloudFlavor], [CloudProject], [CloudHost] fields from
      models.py; [BaseObject], [ComponentModel], [IPAddress] from the rest
      of ralph, which is not under src/ and is modelled from the spec), the
      table interface [Table] (a typeclass of lenses with laws) and the
      generic queryset operations [objects_get], [create], [save_row],
      [delete_row] with their lemmas.
    - [Format]: Python's [str.format] on integers ([pretty] on [Z]), the
      component-model names ["<n> cores vCPU"], ["<n> MiB vMEM"],
      ["<n> GiB vHDD"] and the [__str__] methods; injectivity of the names;
      [int(new_disk/1024)] with Python's float true division
      ([round_double], [py_int_div_1024]) and its bounds.
    - [Flavor]: [CloudFlavor._get_component] (prefetch-cache path and
      query path), [_set_component], the three property getters and
      setters; the catalog and component invariants.
    - [Host]: [CloudHost.save], the [ip_addresses] getter and setter,
      [cloudproject].
    - [Project]: [CloudProject] save followed by its [post_save] receiver.
    - [System]: every state-changing handler as one operation [op] run by
      [exec]; the step relation [step] (a request runs one operation
      atomically, under the preconditions [op_ok] the database and the
      forms enforce: a saved instance is new or loaded from its table,
      its parent exists, a project's parent is not a project) and
      [reachable]; the store invariant [store_inv] (the flavor and IP
      invariants, unique fresh keys, existing parents, no project under a
      project, and the spec's rule that a host under a project has its
      service/environment), with executable checks of its object-table
      part ([objects_partb]); frame lemmas for each handler, [save()] as
      an upsert, and the bulk update as a map over rows.
    - [Repair]: saving every host again ([resave_hosts]) as a sequence of
      [System] steps.
    - [Signals]: Django's [Model.save] with its [post_save] dispatch to the
      receivers this repository connects ([registry]), sent with the class
      of the instance saved as [sender], recursive through receivers'
      saves, with fuel standing for Python's recursion limit
      ([instance_save], [RecursionError] when it runs out).
    - [Interleave]: a [CloudHost] instance with Django's cache of
      [self.parent] ([HostInstance], [host_instance_save]); [Host]'s
      [cloudhost_save_with] is the body of [CloudHost.save] parametric in
      how [self.parent] is read and in [super().save()].
    - [Race]: the [ip_addresses] claim and the component replacement of
      [_set_component] split into their read and write halves
      ([claim_read]/[claim_write], [attach_read]/[attach_write]), proved
      equal to the atomic code, and two requests interleaved at that
      grain.
    - [IpSpec]: the abstract contract of the [IPAddress] table, a stdpp
      [gmap] from address to owner with the assignment [assign_spec] and
      the abstract machine [abs_step]; the abstraction [abs_ips].

    ** What the theorems show (grouped as in PROJECT.json)

    - Flavor: a setter followed by its getter returns the value set
      (cores, memory), under the catalog invariant; the disk setter does
      not (two sizes in the same GiB share a model name: a code bug);
      after [cores] is set the flavor has exactly one processor component
      and every other (object, type) pair is untouched; the setters
      preserve the invariant on any instance, whether they return or
      raise; the cache path of [_get_component] agrees with the query
      path on a fresh cache, and on a prefetched instance the setter
      never refreshes the cache, so the instance keeps reading the old
      value and a later assignment of that value is skipped.
    - Host: [save] copies the parent's service/environment, and skips the
      copy when there is no parent; the [ip_addresses] setter leaves the
      host owning exactly the requested addresses that were free, logs a
      warning for each conflicting one and never changes another owner's
      address; it raises nothing on a store with unique addresses and
      depends only on [set(value)]; [cloudproject] returns the parent
      exactly when it is a project.
    - Project: after a project save every child carries the project's
      service/environment.
    - Format: [int(new_disk/1024)] is the exact truncated quotient up to
      [2^53] MiB, and for every [k] from 54 to 1033 it names [2^k - 1]
      MiB one GiB too many; Flavor shows that the disk setter raises
      [OverflowError] from [2^1034], before any read.
    - System: every store reachable from one satisfying [store_inv]
      satisfies it (each operation preserves it; rule induction on
      [reachable]).  The no-nesting precondition is needed: in any store
      with a project under a project, saving the outer project with a new
      service/environment leaves the hosts of the inner project on their
      old value, since the receiver's [.update()] sends no [post_save].
    - Repair: from any store with unique keys, existing parents and no
      unique-field clash (nested projects allowed), saving every host once
      reaches a store where every host follows its project (liveness of
      the spec's eventual consistency).
    - Signals: the receiver is connected for [CloudProject] only; saving
      a project row through a [BaseObject] instance, in any store,
      propagates nothing and leaves its hosts on the old value.
    - Interleave: in any store, "save a host instance, save its project
      with a new service/environment, save the same host instance again"
      leaves the host on the project's old value (the instance's cached
      parent is stale), where loading the host again gives the new value.
    - Race: two claims of one free address with both reads first lose the
      first claim with no warning, and two [cores] assignments on any
      flavor with both reads first leave two processor components (two
      code bugs: no row lock between read and write).
    - IpSpec: every run of the system refines a run of the abstract
      machine [abs_step] on the ownership map; hence (proved on the
      abstract map) an address in the table is never deleted.

    ** Modelling choices

    - Tables are lists in primary-key order, so [first()] is the head of a
      filtered list; primary keys come from one counter [st_next] shared
      by all tables (only their freshness matters).
    - Python [set] iteration order is not specified; [set(a) - set(b)] is
      [remove_dups (list_difference a b)], and the theorems about the
      setter's result do not depend on the order.
    - Integers are [Z], as Python's are unbounded.  The one float in the
      code, [new_disk/1024], is modelled bit-exactly: CPython's int true
      division returns the double nearest the exact quotient, which for a
      power-of-two divisor is [new_disk] rounded to 53 significant bits
      (ties to even) then scaled, with [OverflowError] when it reaches
      [2^1024].
    - An exception raised half-way keeps the writes already done, as under
      Django's autocommit: [Raise e s] carries the store at the raise.
    - [self.parent] in [System] is a query on the objects table, that is
      [System] saves freshly loaded instances; Django's cache of the
      related object on a long-lived instance is modelled in
      [Interleave], which shows when the two agree.  [cloudproject]
      reads the parent by a query.
    - Not modelled: the race of two claims of an address that is not in
      the table yet (both create a row; whether the second raises depends
      on a unique constraint of [IPAddress.address], which is outside
      src/ and which the spec does not state); the import lines, the
      [Meta] classes (verbose names under [ugettext_lazy]), the
      [_autocomplete] flags and [AdminAbsoluteUrlMixin] of models.py and
      virtual.py, which only configure Django's admin, REST and
      translation layers and have no behaviour in the store; these are
      the lines the map leaves out.  Concurrency is modelled as explicit
      sequences: in [System] each handler is one atomic step, and
      [Interleave] and [Race] write interleavings of requests out.
    - Fuel: every loop of the code is a [for] over a finite list, so only
      the signal dispatch, whose recursion goes through receivers, uses
      fuel.  One unit suffices: the only receiver saves no instance, and
      [Signals.instance_save_handlers] holds for every fuel [S f]. *)

From stdpp Require Export base list sets strings pretty.
From Stdlib Require Export ZArith Lia.

Declare Scope ralph_scope.
Delimit Scope ralph_scope with ralph.

(** Python exceptions raised or caught by the modelled code. *)
Inductive Exc :=
| DoesNotExist
| MultipleObjectsReturned
| IntegrityError
| KeyError
| AttributeError
| OverflowError
| RecursionError.

#[export] Instance Exc_eq_dec : EqDecision Exc.
Proof. solve_decision. Defined.

(** The result of running a statement: a value and the new store, or an
    exception together with the store at the point it was raised. *)
Inductive outcome (S A : Type) :=
| Ok (a : A) (s : S)
| Raise (e : Exc) (s : S).
Arguments Ok {S A} a s.
Arguments Raise {S A} e s.

Definition M (S A : Type) : Type := S -> outcome S A.

Definition ret {S A} (a : A) : M S A := fun s => Ok a s.

Definition bind {S A B} (m : M S A) (k : A -> M S B) : M S B :=
  fun s => match m s with
           | Ok a s' => k a s'
           | Raise e s' => Raise e s'
           end.

Definition raise {S A} (e : Exc) : M S A := fun s => Raise e s.

Definition get_st {S} : M S S := fun s => Ok s s.
Definition modify_st {S} (f : S -> S) : M S unit := fun s => Ok tt (f s).

(** [try: m except <caught>: h]: the handler runs on the store the
    exception left behind. *)
Definition try_except {S A} (m : M S A) (caught : Exc -> bool)
    (h : Exc -> M S A) : M S A :=
  fun s => match m s with
           | Ok a s' => Ok a s'
           | Raise e s' => if caught e then h e s' else Raise e s'
           end.

(** A Python [for] loop whose body is a statement. *)
Fixpoint for_each {S A} (l : list A) (body : A -> M S unit) : M S unit :=
  match l with
  | [] => ret tt
  | x :: l' => bind (body x) (fun _ => for_each l' body)
  end.

Notation "x <- m ;; k" := (bind m (fun x => k))
  (at level 100, m at next level, right associativity) : ralph_scope.
Notation "m ;;; k" := (bind m (fun _ => k))
  (at level 100, right associativity) : ralph_scope.

Open Scope ralph_scope.

(** The store after a statement, whatever its result. *)
Definition final {S A} (o : outcome S A) : S :=
  match o with Ok _ s => s | Raise _ s => s end.

(** ** Monad laws *)

(** The store after [m ;;; ret b] is the store after [m]. *)
Lemma final_seq_ret {S A B} (m : M S A) (b : B) s : final ((m ;;; ret b) s) = final (m s).
Proof. unfold bind, ret. by destruct (m s). Qed.

Lemma bind_ret_l {S A B} (a : A) (k : A -> M S B) s :
  bind (ret a) k s = k a s.
Proof. reflexivity. Qed.

Lemma bind_assoc {S A B C} (m : M S A) (k : A -> M S B) (k' : B -> M S C) s :
  bind (bind m k) k' s = bind m (fun a => bind (k a) k') s.
Proof. unfold bind. by destruct (m s). Qed.

Lemma for_each_app {S A} (l1 l2 : list A) (body : A -> M S unit) s :
  for_each (l1 ++ l2) body s = bind (for_each l1 body) (fun _ => for_each l2 body) s.
Proof.
  revert s. induction l1 as [|x l1 IH]; intros s; simpl; [reflexivity|].
  rewrite bind_assoc. unfold bind at 1 2.
  destruct (body x s); [apply IH|done].
Qed.

(** ** Invariant calculus

    [preserves P m]: from a store satisfying [P], [m] ends (normally or by
    an exception) in a store satisfying [P].  The combinators below make
    an invariant proof follow the shape of the code. *)

Definition preserves {S A} (P : S -> Prop) (m : M S A) : Prop :=
  forall s, P s -> P (final (m s)).

Section Preserves.
Context {S : Type} (P : S -> Prop).

Lemma preserves_ret {A} (a : A) : preserves P (ret a).
Proof. by intros s. Qed.

Lemma preserves_raise {A} e : preserves P (@raise S A e).
Proof. by intros s. Qed.

Lemma preserves_get : preserves P get_st.
Proof. by intros s. Qed.

Lemma preserves_modify f : (forall s, P s -> P (f s)) -> preserves P (modify_st f).
Proof. intros Hf s Hs. by apply Hf. Qed.

Lemma preserves_bind {A B} (m : M S A) (k : A -> M S B) :
  preserves P m -> (forall a, preserves P (k a)) -> preserves P (bind m k).
Proof.
  intros Hm Hk s Hs. specialize (Hm s Hs). unfold bind.
  destruct (m s); simpl in *; [by apply Hk|done].
Qed.

Lemma preserves_try {A} (m : M S A) caught h :
  preserves P m -> (forall e, preserves P (h e)) -> preserves P (try_except m caught h).
Proof.
  intros Hm Hh s Hs. specialize (Hm s Hs). unfold try_except.
  destruct (m s); simpl in *; [done|]. destruct (caught e); [by apply Hh|done].
Qed.

Lemma preserves_for_each {A} (l : list A) body :
  (forall x, x ∈ l -> preserves P (body x)) -> preserves P (for_each l body).
Proof.
  induction l as [|x l IH]; intros Hb; simpl; [apply preserves_ret|].
  apply preserves_bind; [apply Hb; set_solver|].
  intros _. apply IH. intros y Hy. apply Hb. set_solver.
Qed.

Lemma preserves_if {A} (b : bool) (m1 m2 : M S A) :
  preserves P m1 -> preserves P m2 -> preserves P (if b then m1 else m2).
Proof. by destruct b. Qed.
End Preserves.

(** A statement that only reads the store. *)
Definition pure_stmt {S A} (m : M S A) : Prop := forall s, final (m s) = s.

Lemma preserves_pure {S A} (P : S -> Prop) (m : M S A) : pure_stmt m -> preserves P m.
Proof. intros Hm s Hs. by rewrite Hm. Qed.

Create HintDb ralph_inv.
#[export] Hint Resolve preserves_ret preserves_raise preserves_get preserves_bind
  preserves_try preserves_if preserves_pure : ralph_inv.

#[export] Hint Extern 1 (pure_stmt _) => (intros ?; reflexivity) : ralph_inv.

(** Follow the shape of a statement down to its primitives, closing each
    with the [ralph_inv] hints. *)
Ltac solve_preserves :=
  repeat first
    [ progress intros
    | apply preserves_bind
    | apply preserves_try
    | apply preserves_if
    | apply preserves_for_each
    | solve [eauto with ralph_inv]
    | case_match ].

(** ** Strings *)

Lemma string_app_length (s1 s2 : string) :
  String.length (s1 +:+ s2) = String.length s1 + String.length s2.
Proof. induction s1; simpl; auto. Qed.

(** Appending the same suffix is injective: used for the model names. *)
Lemma string_app_inv_r (s s1 s2 : string) :
  s1 +:+ s = s2 +:+ s -> s1 = s2.
Proof.
  intros H. assert (Hl : String.length s1 = String.length s2).
  { apply (f_equal String.length) in H. rewrite !string_app_length in H. lia. }
  revert s2 H Hl. induction s1 as [|c s1 IH]; intros [|c' s2] H Hl;
    simpl in *; try done; try lia.
  injection H as -> H. f_equal. apply IH; auto.
Qed.

(** The last character of [s1 +:+ s2] is that of [s2] when [s2] is not
    empty: two names with different last characters differ. *)
Fixpoint last_char (s : string) : option Ascii.ascii :=
  match s with
  | EmptyString => None
  | String c EmptyString => Some c
  | String _ s' => last_char s'
  end.

Lemma last_char_app (s1 s2 : string) :
  s2 <> EmptyString -> last_char (s1 +:+ s2) = last_char s2.
Proof.
  intros Hne. induction s1 as [|c s1 IH]; simpl; [done|].
  rewrite IH. destruct s1; simpl; [by destruct s2|done].
Qed.

(** ** Lists *)

Create HintDb ralph.

Lemma filter_app_bool {A} (p : A -> bool) (l1 l2 : list A) :
  List.filter p (l1 ++ l2) = List.filter p l1 ++ List.filter p l2.
Proof. apply List.filter_app. Qed.

Lemma filter_all_false {A} (p : A -> bool) (l : list A) :
  (forall x, In x l -> p x = false) -> List.filter p l = [].
Proof.
  induction l as [|x l IH]; intros H; simpl; [done|].
  rewrite H by (left; done). apply IH. intros y Hy. apply H. by right.
Qed.

Lemma filter_filter_bool {A} (p q : A -> bool) (l : list A) :
  List.filter p (List.filter q l) = List.filter (fun x => q x && p x) l.
Proof.
  induction l as [|x l IH]; simpl; [done|].
  destruct (q x); simpl; [destruct (p x)|]; simpl; by rewrite IH.
Qed.

Lemma filter_ext_in_bool {A} (p q : A -> bool) (l : list A) :
  (forall x, In x l -> p x = q x) -> List.filter p l = List.filter q l.
Proof. apply List.filter_ext_in. Qed.

Create Rewrite HintDb ralph_rw.
#[export] Hint Rewrite @filter_app_bool @filter_filter_bool : ralph_rw.

(** A key that is unique in a list is matched by at most one element. *)
Lemma filter_unique_key_le1 {A B} `{EqDecision B} (key : A -> B) (l : list A) v :
  NoDup (map key l) -> length (List.filter (fun x => bool_decide (key x = v)) l) <= 1.
Proof.
  induction l as [|x l IH]; intros Hnd; simpl; [lia|].
  inversion Hnd as [|? ? Hnin Hnd']; subst.
  case_bool_decide as Hx; simpl; [|auto].
  rewrite filter_all_false; [simpl; lia|].
  intros y Hy. apply bool_decide_eq_false. intros Hyv. apply Hnin.
  apply list_elem_of_In, in_map_iff. exists y. split; [congruence|done].
Qed.

(** Looking up an element by its unique key finds it. *)
Lemma find_unique_key {A} (key : A -> nat) (l : list A) x :
  NoDup (map key l) -> In x l ->
  List.find (fun y => Nat.eqb (key y) (key x)) l = Some x.
Proof.
  induction l as [|y l IH]; intros Hnd Hin; [done|].
  inversion Hnd as [|? ? Hnin Hnd']; subst. simpl.
  destruct Hin as [->|Hin]; [by rewrite Nat.eqb_refl|].
  destruct (Nat.eqb_spec (key y) (key x)) as [Heq|]; [|by apply IH].
  exfalso. apply Hnin. rewrite Heq. apply list_elem_of_In. by apply in_map.
Qed.

Lemma find_app_some {A} (p : A -> bool) (l l' : list A) x :
  List.find p l = Some x -> List.find p (l ++ l') = Some x.
Proof.
  induction l as [|y l IH]; simpl; [done|]. destruct (p y); auto.
Qed.

Lemma find_app_none {A} (p : A -> bool) (l l' : list A) :
  List.find p l = None -> List.find p (l ++ l') = List.find p l'.
Proof.
  induction l as [|y l IH]; simpl; [done|]. destruct (p y); [done|auto].
Qed.

#[export] Hint Resolve find_app_some : ralph.

Lemma NoDup_map_eq_in {A B} (f : A -> B) (l : list A) x y :
  NoDup (map f l) -> In x l -> In y l -> f x = f y -> x = y.
Proof.
  induction l as [|z l IH]; intros Hnd Hx Hy Hf; [done|].
  inversion Hnd as [|? ? Hnin Hnd']; subst.
  destruct Hx as [->|Hx], Hy as [->|Hy]; auto.
  - exfalso. apply Hnin. apply list_elem_of_In. rewrite Hf. by apply in_map.
  - exfalso. apply Hnin. apply list_elem_of_In. rewrite <- Hf. by apply in_map.
Qed.

Lemma find_unique_key_dec {A B} `{EqDecision B} (key : A -> B) (l : list A) x :
  NoDup (map key l) -> In x l ->
  List.find (fun y => bool_decide (key y = key x)) l = Some x.
Proof.
  induction l as [|y l IH]; intros Hnd Hin; [done|].
  inversion Hnd as [|? ? Hnin Hnd']; subst. simpl.
  destruct Hin as [->|Hin]; [by rewrite bool_decide_eq_true_2|].
  case_bool_decide as Heq; [|by apply IH].
  exfalso. apply Hnin. rewrite Heq. apply list_elem_of_In. by apply in_map.
Qed.

(** [find] through a map that does not change what the predicate sees. *)
Lemma find_map_same {A} (p : A -> bool) (f : A -> A) (l : list A) :
  (forall x, In x l -> p (f x) = p x) ->
  List.find p (map f l) = f <$> List.find p l.
Proof.
  induction l as [|x l IH]; intros Hf; simpl; [done|].
  rewrite Hf by (by left). destruct (p x); [done|]. apply IH. intros y Hy. apply Hf. by right.
Qed.

Lemma NoDup_map_filter {A B} (f : A -> B) (p : A -> bool) (l : list A) :
  NoDup (map f l) -> NoDup (map f (List.filter p l)).
Proof.
  induction l as [|x l IH]; intros Hnd; [done|]. inversion Hnd as [|? ? Hnin Hnd']; subst.
  cbn. destruct (p x); [|by apply IH]. constructor; [|by apply IH].
  intros Hin. apply Hnin. apply list_elem_of_In in Hin. apply list_elem_of_In.
  apply in_map_iff in Hin as (y & Hy & (Hyl & _)%filter_In). apply in_map_iff. eauto.
Qed.

Lemma filter_singleton_of_le1 {A} (p : A -> bool) (l : list A) x :
  length (List.filter p l) <= 1 -> In x l -> p x = true -> List.filter p l = [x].
Proof.
  intros Hlen Hin Hpx. assert (Hx : In x (List.filter p l)) by (by apply filter_In).
  destruct (List.filter p l) as [|y [|z r]]; simpl in *; [done| |lia].
  destruct Hx as [->|[]]; done.
Qed.

Lemma filter_length_mono {A} (p q : A -> bool) (l : list A) :
  (forall x, p x = true -> q x = true) ->
  length (List.filter p l) <= length (List.filter q l).
Proof.
  intros Hpq. induction l as [|x l IH]; simpl; [lia|].
  destruct (p x) eqn:Hp; [rewrite (Hpq x Hp); simpl; lia|].
  destruct (q x); simpl; lia.
Qed.

Lemma find_none_all {A} (p : A -> bool) (l : list A) :
  (forall x, In x l -> p x = false) -> List.find p l = None.
Proof.
  induction l as [|x l IH]; intros H; simpl; [done|].
  rewrite H by (by left). apply IH. intros y Hy. apply H. by right.
Qed.

Lemma flat_map_ext_in {A B} (f g : A -> list B) (l : list A) :
  (forall x, In x l -> f x = g x) -> flat_map f l = flat_map g l.
Proof.
  induction l as [|x l IH]; intros H; simpl; [done|].
  rewrite H by (by left). f_equal. apply IH. intros y Hy. apply H. by right.
Qed.

Lemma existsb_ext_bool {A} (f g : A -> bool) (l : list A) :
  (forall x, f x = g x) -> existsb f l = existsb g l.
Proof. intros H. induction l as [|x l IH]; simpl; [done|]. by rewrite H, IH. Qed.
