(* ===== verification/Orm.v ===== *)
(** * The relational store the models live in

    Django's ORM and ralph's base models ([BaseObject], [Component],
    [ComponentModel], [IPAddress], [ComponentType]) are not part of this
    repository's sources; they are modelled from the spec (marked
    spec_modelled in PROJECT.json).  The record types [CloudProvider],
    [CloudFlavor], [CloudProject], [CloudHost] carry the fields declared in
    models.py.  A table is a list in primary-key order; the queryset
    operations are statements of the monad [M Store] of [Prelude]. *)

From S2P Require Import Prelude.

(** ** Records *)

(** [ralph.assets.models.choices.ComponentType] (the values the code uses
    and the other members of the choice list). *)
Module ComponentType.
Inductive t :=
| processor | memory | disk | ethernet | expansion | fibre | share
| software | unknown.
End ComponentType.
Abbreviation ComponentType := ComponentType.t.

#[export] Instance ComponentType_eq_dec : EqDecision ComponentType.
Proof. solve_decision. Defined.

(** [ComponentModel]: a catalog entry; [ComponentModel()] starts from the
    field defaults below. *)
Record ComponentModel := mkComponentModel {
  cm_id : nat;
  cm_name : string;
  cm_type : ComponentType;
  cm_cores : Z;
  cm_size : Z;
  cm_family : string;
}.

Definition ComponentModel_default (id : nat) : ComponentModel :=
  {| cm_id := id; cm_name := ""; cm_type := ComponentType.unknown; cm_cores := 0;
     cm_size := 0; cm_family := "" |}.

(** [VirtualComponent(Component)]: links a base object to a model. *)
Record VirtualComponent := mkVirtualComponent {
  vc_id : nat;
  vc_base_object : nat;
  vc_model : nat;
}.

(** [IPAddress]: an address owned by at most one base object. *)
Record IPAddress := mkIPAddress {
  ip_id : nat;
  ip_address : string;
  ip_base_object : option nat;
}.

(** [CloudProvider(NamedMixin)]. *)
Record CloudProvider := mkCloudProvider {
  provider_id : nat;
  provider_name : string;
}.

(** The own fields of [CloudFlavor], [CloudProject] and [CloudHost]. *)
Record CloudFlavor := mkCloudFlavor {
  flavor_name : string;
  flavor_cloudprovider : nat;
  flavor_id : string;
}.

Record CloudProject := mkCloudProject {
  project_cloudprovider : nat;
  project_id : string;
  project_name : string;
}.

Record CloudHost := mkCloudHost {
  host_cloudflavor : nat;
  host_cloudprovider : nat;
  host_id : string;
  hostname : string;
  hypervisor : option nat;
  image_name : option string;
}.

(** The concrete class of a [BaseObject] row (multi-table inheritance:
    the child table's fields ride along with the kind). *)
Inductive ObjKind :=
| KDatabase
| KVIP
| KVirtualServer
| KCloudFlavor (f : CloudFlavor)
| KCloudProject (p : CloudProject)
| KCloudHost (h : CloudHost)
| KOther.

(** [BaseObject]: identity ([pk] is [None] before the first save), the
    generic [parent] relation and the [service_env] foreign key. *)
Record BaseObject := mkBaseObject {
  bo_pk : option nat;
  bo_kind : ObjKind;
  bo_parent : option nat;
  bo_service_env : option nat;
}.

#[export] Instance CloudFlavor_eq_dec : EqDecision CloudFlavor.
Proof. solve_decision. Defined.
#[export] Instance CloudProject_eq_dec : EqDecision CloudProject.
Proof. solve_decision. Defined.
#[export] Instance CloudHost_eq_dec : EqDecision CloudHost.
Proof. solve_decision. Defined.
#[export] Instance ObjKind_eq_dec : EqDecision ObjKind.
Proof. solve_decision. Defined.
#[export] Instance BaseObject_eq_dec : EqDecision BaseObject.
Proof. solve_decision. Defined.
#[export] Instance ComponentModel_eq_dec : EqDecision ComponentModel.
Proof. solve_decision. Defined.
#[export] Instance VirtualComponent_eq_dec : EqDecision VirtualComponent.
Proof. solve_decision. Defined.
#[export] Instance IPAddress_eq_dec : EqDecision IPAddress.
Proof. solve_decision. Defined.

(** ** The store *)

Record Store := mkStore {
  st_next : nat;
  st_providers : list CloudProvider;
  st_objects : list BaseObject;
  st_models : list ComponentModel;
  st_components : list VirtualComponent;
  st_ips : list IPAddress;
  st_log : list string;
}.

Definition set_next n s :=
  mkStore n (st_providers s) (st_objects s) (st_models s) (st_components s) (st_ips s) (st_log s).
Definition set_objects l s :=
  mkStore (st_next s) (st_providers s) l (st_models s) (st_components s) (st_ips s) (st_log s).
Definition set_models l s :=
  mkStore (st_next s) (st_providers s) (st_objects s) l (st_components s) (st_ips s) (st_log s).
Definition set_components l s :=
  mkStore (st_next s) (st_providers s) (st_objects s) (st_models s) l (st_ips s) (st_log s).
Definition set_ips l s :=
  mkStore (st_next s) (st_providers s) (st_objects s) (st_models s) (st_components s) l (st_log s).

(** [logger.warning(msg)]. *)
Definition log_warning (msg : string) : M Store unit :=
  modify_st (fun s => mkStore (st_next s) (st_providers s) (st_objects s) (st_models s)
                        (st_components s) (st_ips s) (st_log s ++ [msg])).

(** [except ObjectDoesNotExist]. *)
Definition is_object_does_not_exist (e : Exc) : bool :=
  match e with DoesNotExist => true | _ => false end.

(** ** The table interface

    A table is a lens into the store with its primary key.  The generic
    queryset operations and their lemmas are stated once against it. *)
Class Table (R : Type) := {
  row_pk : R -> nat;
  tbl_get : Store -> list R;
  tbl_set : list R -> Store -> Store;
  tbl_get_set : forall l s, tbl_get (tbl_set l s) = l;
  tbl_get_next : forall n s, tbl_get (set_next n s) = tbl_get s;
  tbl_set_next_comm : forall l n s, st_next (tbl_set l (set_next n s)) = n;
  tbl_set_set : forall l l' s, tbl_set l (tbl_set l' s) = tbl_set l s;
  tbl_set_get : forall s, tbl_set (tbl_get s) s = s;
  tbl_next_set : forall l s, st_next (tbl_set l s) = st_next s;
}.

#[export] Instance Table_models : Table ComponentModel :=
  {| row_pk := cm_id; tbl_get := st_models; tbl_set := set_models;
     tbl_get_set _ _ := eq_refl; tbl_get_next _ _ := eq_refl;
     tbl_set_next_comm _ _ _ := eq_refl; tbl_set_set _ _ _ := eq_refl;
     tbl_set_get s := match s with mkStore _ _ _ _ _ _ _ => eq_refl end;
     tbl_next_set _ _ := eq_refl |}.
#[export] Instance Table_components : Table VirtualComponent :=
  {| row_pk := vc_id; tbl_get := st_components; tbl_set := set_components;
     tbl_get_set _ _ := eq_refl; tbl_get_next _ _ := eq_refl;
     tbl_set_next_comm _ _ _ := eq_refl; tbl_set_set _ _ _ := eq_refl;
     tbl_set_get s := match s with mkStore _ _ _ _ _ _ _ => eq_refl end;
     tbl_next_set _ _ := eq_refl |}.
#[export] Instance Table_ips : Table IPAddress :=
  {| row_pk := ip_id; tbl_get := st_ips; tbl_set := set_ips;
     tbl_get_set _ _ := eq_refl; tbl_get_next _ _ := eq_refl;
     tbl_set_next_comm _ _ _ := eq_refl; tbl_set_set _ _ _ := eq_refl;
     tbl_set_get s := match s with mkStore _ _ _ _ _ _ _ => eq_refl end;
     tbl_next_set _ _ := eq_refl |}.

Section Queryset.
Context {R : Type} `{Table R}.

(** [Model.objects.filter(p)], evaluated. *)
Definition objects_filter (p : R -> bool) : M Store (list R) :=
  fun s => Ok (List.filter p (tbl_get s)) s.

(** [Model.objects.get(p)]: exactly one row, or an exception. *)
Definition objects_get (p : R -> bool) : M Store R :=
  fun s => match List.filter p (tbl_get s) with
           | [r] => Ok r s
           | [] => Raise DoesNotExist s
           | _ :: _ :: _ => Raise MultipleObjectsReturned s
           end.

(** [Model(fields).save()] on a new instance: a fresh primary key. *)
Definition create (mk : nat -> R) : M Store R :=
  fun s => let r := mk (st_next s) in
           Ok r (tbl_set (tbl_get s ++ [r]) (set_next (S (st_next s)) s)).

Definition replace_row (r : R) (l : list R) : list R :=
  map (fun x => if Nat.eqb (row_pk x) (row_pk r) then r else x) l.

(** [instance.save()] with a primary key: UPDATE, or INSERT when no row
    has that key. *)
Definition save_row (r : R) : M Store unit :=
  modify_st (fun s =>
    if existsb (fun x => Nat.eqb (row_pk x) (row_pk r)) (tbl_get s)
    then tbl_set (replace_row r (tbl_get s)) s
    else tbl_set (tbl_get s ++ [r]) s).

(** [instance.delete()]. *)
Definition delete_row (r : R) : M Store unit :=
  modify_st (fun s =>
    tbl_set (List.filter (fun x => negb (Nat.eqb (row_pk x) (row_pk r))) (tbl_get s)) s).

(** Primary keys are unique and below the counter. *)
Definition keys_ok (s : Store) : Prop :=
  NoDup (map row_pk (tbl_get s)) /\ Forall (fun x => row_pk x < st_next s) (tbl_get s).

Lemma objects_get_ok p s r s' :
  objects_get p s = Ok r s' -> s' = s /\ List.filter p (tbl_get s) = [r].
Proof.
  unfold objects_get. destruct (List.filter p (tbl_get s)) as [|x [|y l]];
    intros Hr; by simplify_eq.
Qed.

Lemma objects_get_raise p s e s' :
  objects_get p s = Raise e s' -> s' = s /\
    ((e = DoesNotExist /\ List.filter p (tbl_get s) = []) \/
     (e = MultipleObjectsReturned /\ 2 <= length (List.filter p (tbl_get s)))).
Proof.
  unfold objects_get. destruct (List.filter p (tbl_get s)) as [|x [|y l]];
    intros Hr; simplify_eq; simpl; auto with lia.
Qed.

Lemma objects_get_pure p : pure_stmt (objects_get p).
Proof. intros s. unfold objects_get. by destruct (List.filter p (tbl_get s)) as [|? [|? ?]]. Qed.

(** A lookup on a key that at most one row matches never raises
    [MultipleObjectsReturned]. *)
Lemma objects_get_single p s :
  length (List.filter p (tbl_get s)) <= 1 ->
  objects_get p s = match List.filter p (tbl_get s) with
                    | [r] => Ok r s
                    | _ => Raise DoesNotExist s
                    end.
Proof.
  unfold objects_get. destruct (List.filter p (tbl_get s)) as [|x [|y l]];
    simpl; intros; auto with lia.
Qed.

Lemma create_spec mk s :
  create mk s = Ok (mk (st_next s))
    (tbl_set (tbl_get s ++ [mk (st_next s)]) (set_next (S (st_next s)) s)).
Proof. reflexivity. Qed.

Lemma create_fresh mk s :
  row_pk (mk (st_next s)) = st_next s -> keys_ok s ->
  keys_ok (final (create mk s)).
Proof.
  intros Hpk [Hnd Hlt]. unfold keys_ok. simpl.
  rewrite tbl_get_set, tbl_set_next_comm, map_app. simpl. split.
  - apply NoDup_app. split; [done|]. split; [|apply NoDup_singleton].
    intros x Hx. rewrite list_elem_of_singleton. intros ->.
    apply list_elem_of_In, in_map_iff in Hx as (y & Hy & Hin).
    rewrite Forall_forall in Hlt. apply list_elem_of_In, Hlt in Hin. lia.
  - apply Forall_app. split; [|constructor; [lia|constructor]].
    eapply Forall_impl; [exact Hlt|]. simpl. lia.
Qed.

Lemma keys_ok_filter p s :
  keys_ok s -> keys_ok (tbl_set (List.filter p (tbl_get s)) s).
Proof.
  intros [Hnd Hlt]. unfold keys_ok. rewrite tbl_get_set, tbl_next_set. split.
  - clear Hlt. induction (tbl_get s) as [|x l IH]; simpl in *; [constructor|].
    inversion Hnd as [|? ? Hnin Hnd']; subst.
    destruct (p x); simpl; [|by apply IH].
    constructor; [|by apply IH]. intros Hin. apply Hnin.
    apply list_elem_of_In in Hin. apply list_elem_of_In.
    apply in_map_iff in Hin as (y & <- & Hy%filter_In).
    apply in_map. tauto.
  - rewrite Forall_forall in Hlt |- *. intros x Hx%list_elem_of_In%filter_In.
    apply Hlt, list_elem_of_In. tauto.
Qed.

Lemma keys_ok_bump s n :
  st_next s <= n -> keys_ok s -> keys_ok (set_next n s).
Proof.
  intros Hle [Hnd Hlt]. unfold keys_ok. rewrite tbl_get_next. split; [done|].
  eapply Forall_impl; [exact Hlt|]. simpl. lia.
Qed.

Lemma in_replace_row r l x :
  In x (replace_row r l) -> x = r \/ In x l.
Proof.
  unfold replace_row. intros (y & <- & Hy)%in_map_iff.
  destruct (Nat.eqb _ _); auto.
Qed.

(** A projection that agrees on the replaced rows is unchanged. *)
Lemma replace_row_map_eq {B} (g : R -> B) r l :
  (forall x, In x l -> row_pk x = row_pk r -> g x = g r) ->
  map g (replace_row r l) = map g l.
Proof.
  unfold replace_row. induction l as [|x l IH]; intros Hg; simpl; [done|].
  f_equal; [|apply IH; intros y Hy; apply Hg; by right].
  destruct (Nat.eqb_spec (row_pk x) (row_pk r)) as [Heq|]; [|done].
  symmetry. apply Hg; [by left|done].
Qed.

(** [save()] of a row whose key is in the table is an UPDATE. *)
Lemma save_row_update r s :
  existsb (fun x => Nat.eqb (row_pk x) (row_pk r)) (tbl_get s) = true ->
  save_row r s = Ok tt (tbl_set (replace_row r (tbl_get s)) s).
Proof. intros Hex. unfold save_row, modify_st. by rewrite Hex. Qed.

(** An UPDATE of a row with its own key keeps the keys unique. *)
Lemma keys_ok_replace r s :
  keys_ok s -> (exists y, In y (tbl_get s) /\ row_pk y = row_pk r) ->
  keys_ok (tbl_set (replace_row r (tbl_get s)) s).
Proof.
  intros [Hnd Hlt] (y & Hy & Hyr). unfold keys_ok. rewrite tbl_get_set, tbl_next_set.
  rewrite (replace_row_map_eq row_pk) by done. split; [done|].
  rewrite Forall_forall in Hlt |- *. intros x Hx%list_elem_of_In%in_replace_row.
  destruct Hx as [->|Hx].
  - rewrite <- Hyr. apply Hlt, list_elem_of_In, Hy.
  - by apply Hlt, list_elem_of_In.
Qed.

(** The rows a statement deleting [cs] one by one leaves. *)
Definition without_rows (cs l : list R) : list R :=
  List.filter (fun x => negb (existsb (fun c => Nat.eqb (row_pk x) (row_pk c)) cs)) l.

Lemma without_rows_app (cs l l' : list R) :
  without_rows cs (l ++ l') = without_rows cs l ++ without_rows cs l'.
Proof. apply List.filter_app. Qed.

(** Deleting the same rows twice deletes them once. *)
Lemma without_rows_idem (cs l : list R) : without_rows cs (without_rows cs l) = without_rows cs l.
Proof.
  unfold without_rows. rewrite filter_filter_bool. apply List.filter_ext. intros x. by destruct (negb _).
Qed.

(** A row whose key is above every deleted row's survives. *)
Lemma without_rows_fresh (cs : list R) r :
  Forall (fun x => row_pk x < row_pk r) cs -> without_rows cs [r] = [r].
Proof.
  intros Hlt. unfold without_rows. cbn. replace (existsb _ cs) with false; [done|].
  symmetry. apply not_true_iff_false. intros (c & Hc & Hrc%Nat.eqb_eq)%existsb_exists.
  rewrite List.Forall_forall in Hlt. specialize (Hlt c Hc). lia.
Qed.

(** [for component in cs: component.delete()]. *)
Lemma for_each_delete_row (cs : list R) s :
  for_each cs delete_row s = Ok tt (tbl_set (without_rows cs (tbl_get s)) s).
Proof.
  revert s. induction cs as [|c cs IH]; intros s; simpl.
  - unfold without_rows. simpl. by rewrite List.filter_true, tbl_set_get.
  - unfold bind, delete_row, modify_st. rewrite IH, tbl_get_set, tbl_set_set. f_equal.
    unfold without_rows. rewrite filter_filter_bool.
    f_equal. apply List.filter_ext. intros x. simpl. by destruct (Nat.eqb _ _).
Qed.
End Queryset.

Create HintDb orm.
#[export] Hint Resolve create_fresh : orm.
#[export] Hint Resolve objects_get_pure : ralph_inv.

(** ** Base objects

    [BaseObject] rows are looked up by primary key; saving assigns a key
    to a new instance.  The [unique=True] fields [flavor_id], [project_id]
    and [host_id] are checked on save, as the database's unique index
    does ([IntegrityError]). *)

Definition obj_has_pk (id : nat) (o : BaseObject) : bool :=
  match bo_pk o with Some i => Nat.eqb i id | None => false end.

Definition find_object (id : nat) (s : Store) : option BaseObject :=
  List.find (obj_has_pk id) (st_objects s).

(** [BaseObject.objects.get(pk=id)]. *)
Definition get_object (id : nat) : M Store BaseObject :=
  fun s => match find_object id s with
           | Some o => Ok o s
           | None => Raise DoesNotExist s
           end.

(** The unique key a row of a given kind claims, if any. *)
Definition unique_key (k : ObjKind) : option (nat * string) :=
  match k with
  | KCloudFlavor f => Some (0, flavor_id f)
  | KCloudProject p => Some (1, project_id p)
  | KCloudHost h => Some (2, host_id h)
  | _ => None
  end.

Definition clashes (o x : BaseObject) : bool :=
  match unique_key (bo_kind o), unique_key (bo_kind x) with
  | Some k1, Some k2 => bool_decide (k1 = k2) && negb (bool_decide (bo_pk x = bo_pk o))
  | _, _ => false
  end.

(** [Model.save()] for a base object: INSERT with a fresh key when [pk]
    is [None], UPDATE of the row otherwise; returns the saved instance. *)
Definition save_object (o : BaseObject) : M Store BaseObject :=
  fun s =>
    if existsb (clashes o) (st_objects s) then Raise IntegrityError s
    else match bo_pk o with
         | None =>
             let o' := mkBaseObject (Some (st_next s)) (bo_kind o) (bo_parent o) (bo_service_env o) in
             Ok o' (set_objects (st_objects s ++ [o']) (set_next (S (st_next s)) s))
         | Some id =>
             if existsb (obj_has_pk id) (st_objects s)
             then Ok o (set_objects (map (fun x => if obj_has_pk id x then o else x) (st_objects s)) s)
             else Ok o (set_objects (st_objects s ++ [o]) s)
         end.

Lemma obj_has_pk_spec id x : obj_has_pk id x = true <-> bo_pk x = Some id.
Proof.
  unfold obj_has_pk. destruct (bo_pk x) as [i|]; [|done].
  rewrite Nat.eqb_eq. split; congruence.
Qed.

(** With unique keys, [objects.get(pk=id)] finds exactly the row with
    that key. *)
Lemma find_object_spec s id x :
  NoDup (map bo_pk (st_objects s)) ->
  find_object id s = Some x <-> In x (st_objects s) /\ bo_pk x = Some id.
Proof.
  intros Hnd. unfold find_object. split.
  - intros Hf. split; [by eapply find_some|]. apply obj_has_pk_spec. by eapply find_some.
  - intros [Hin Hpk]. destruct (List.find (obj_has_pk id) (st_objects s)) as [y|] eqn:Hf.
    + apply find_some in Hf as [Hy Hyid%obj_has_pk_spec].
      f_equal. eapply NoDup_map_eq_in; eauto. congruence.
    + exfalso. pose proof (find_none _ _ Hf x Hin) as Hx.
      pose proof (proj2 (obj_has_pk_spec id x) Hpk). congruence.
Qed.

Lemma get_object_pure id : pure_stmt (get_object id).
Proof. intros s. unfold get_object. by destruct (find_object id s). Qed.

#[export] Hint Resolve get_object_pure : ralph_inv.

(** [qs.update(service_env=e)] on the children of [id]: one SQL UPDATE,
    no [save()] and no signals. *)
Definition update_children_service_env (id : nat) (e : option nat) : M Store unit :=
  modify_st (fun s => set_objects
    (map (fun x => if bool_decide (bo_parent x = Some id)
                   then mkBaseObject (bo_pk x) (bo_kind x) (bo_parent x) e
                   else x) (st_objects s)) s).

(** The unique keys a row claims do not depend on its service
    environment or parent. *)
Lemma clashes_same_kind o o' x :
  bo_kind o' = bo_kind o -> bo_pk o' = bo_pk o -> clashes o' x = clashes o x.
Proof. intros Hk Hp. unfold clashes. by rewrite Hk, Hp. Qed.

Lemma clashes_same_kind_r o x x' :
  bo_kind x' = bo_kind x -> bo_pk x' = bo_pk x -> clashes o x' = clashes o x.
Proof. intros Hk Hp. unfold clashes. by rewrite Hk, Hp. Qed.

(** [save()] of a base object that clashes with no unique key: the row
    is in the table afterwards, with a key, and only the objects table
    changes (and the key counter, on an INSERT). *)
Lemma save_object_spec o s :
  existsb (clashes o) (st_objects s) = false ->
  exists o' s', save_object o s = Ok o' s' /\
    bo_kind o' = bo_kind o /\ bo_parent o' = bo_parent o /\
    bo_service_env o' = bo_service_env o /\
    bo_pk o' <> None /\ (bo_pk o <> None -> bo_pk o' = bo_pk o) /\
    In o' (st_objects s') /\
    st_ips s' = st_ips s /\ st_models s' = st_models s /\
    st_components s' = st_components s /\ st_log s' = st_log s.
Proof.
  intros Hc. unfold save_object. rewrite Hc.
  destruct (bo_pk o) as [id|] eqn:Hpk.
  - destruct (existsb (obj_has_pk id) (st_objects s)) eqn:Hex;
      (eexists _, _; split; [reflexivity|]); rewrite Hpk; cbn.
    + split_and!; try done.
      apply existsb_exists in Hex as (x & Hx & Hxid).
      apply in_map_iff. exists x. by rewrite Hxid.
    + split_and!; try done. apply in_or_app. right. by left.
  - eexists _, _. split; [reflexivity|]. cbn. split_and!; try done.
    apply in_or_app. right. by left.
Qed.
