(* ===== verification/Format.v ===== *)
(** * String formatting in models.py

    [str(n)] / ["{}".format(n)] on a Python [int] is stdpp's [pretty] on
    [Z] (decimal digits, a leading ["-"] for negatives).  This file holds
    the component-model names the [CloudFlavor] setters synthesize, the
    [__str__] methods, and the facts about names the flavor invariant
    needs: the names are injective in the number they print and names of
    different setters never coincide.  [int(new_disk/1024)] is modelled
    with Python's float semantics: exact (it is [Z.quot]) up to [2^53],
    rounded above, and an [OverflowError] beyond the range of a double. *)

From S2P Require Import Prelude Orm.

(** ["{}".format(n)] for an [int]. *)
Definition py_str_int (n : Z) : string := pretty n.

(** The double nearest to an integer [n], as an integer: [n] rounded to
    53 significant bits, ties to even (IEEE 754 binary64, which CPython's
    [float] is). *)
Definition round_double (n : Z) : Z :=
  if (Z.abs n <? 2 ^ 53)%Z then n
  else
    let e := (Z.log2 (Z.abs n) - 52)%Z in
    let q := (Z.abs n / 2 ^ e)%Z in
    let r := (Z.abs n mod 2 ^ e)%Z in
    let q' := if ((2 ^ (e - 1) <? r) || ((r =? 2 ^ (e - 1)) && Z.odd q))%Z then (q + 1)%Z else q in
    (Z.sgn n * (q' * 2 ^ e))%Z.

(** [int(new_disk/1024)] on an [int]: [/] is true division, whose result
    is the double nearest to the exact quotient ([long_true_divide]);
    since [1024] is a power of two that double is
    [round_double new_disk / 1024], exactly.  A quotient of [2^1024] or
    more does not fit a double and raises [OverflowError] ([None]);
    [int()] of the double truncates toward zero. *)
Definition py_int_div_1024 (new_disk : Z) : option Z :=
  let r := round_double new_disk in
  if (2 ^ 1034 <=? Z.abs r)%Z then None else Some (Z.quot r 1024).

(** ["{} cores vCPU".format(new_cores)] *)
Definition cpu_name (new_cores : Z) : string := py_str_int new_cores +:+ " cores vCPU".

(** ["{} MiB vMEM".format(new_memory)] *)
Definition ram_name (new_memory : Z) : string := py_str_int new_memory +:+ " MiB vMEM".

(** ["{} GiB vHDD".format(gib)] with [gib = int(new_disk/1024)]. *)
Definition disk_name (gib : Z) : string := py_str_int gib +:+ " GiB vHDD".

(** [CloudFlavor.__str__]. *)
Definition cloudflavor_str (f : CloudFlavor) : string := flavor_name f.

(** [CloudProject.__str__]: ['Cloud Project: {}'.format(self.name)]. *)
Definition cloudproject_str (p : CloudProject) : string :=
  "Cloud Project: " +:+ project_name p.

(** [CloudHost.__str__]: ['Cloud Host: {}'.format(self.hostname)]. *)
Definition cloudhost_str (h : CloudHost) : string := "Cloud Host: " +:+ hostname h.

(** [('Cannot assign IP %s to %s - it is already in use by '
      'another asset') % (ip, self.hostname)] in the [ip_addresses] setter. *)
Definition ip_in_use_warning (ip host_name : string) : string :=
  "Cannot assign IP " +:+ ip +:+ " to " +:+ host_name +:+
  " - it is already in use by another asset".

Section ServiceEnvStr.
(** [str(service_env)] of a present service environment is
    [ServiceEnvironment.__str__], outside this repository. *)
Variable service_env_str : nat -> string.

(** ["{}".format(self.service_env)]: ["None"] when unset. *)
Definition py_str_service_env (se : option nat) : string :=
  match se with Some id => service_env_str id | None => "None" end.

(** [Database.__str__], [VIP.__str__], [VirtualServer.__str__]. *)
Definition database_str (o : BaseObject) : string :=
  "Database: " +:+ py_str_service_env (bo_service_env o).
Definition vip_str (o : BaseObject) : string :=
  "VIP: " +:+ py_str_service_env (bo_service_env o).
Definition virtualserver_str (o : BaseObject) : string :=
  "VirtualServer: " +:+ py_str_service_env (bo_service_env o).
End ServiceEnvStr.

(** ** Facts about the names *)

Lemma cpu_name_inj a b : cpu_name a = cpu_name b -> a = b.
Proof. unfold cpu_name, py_str_int. intros H%string_app_inv_r. by apply (inj pretty). Qed.

Lemma ram_name_inj a b : ram_name a = ram_name b -> a = b.
Proof. unfold ram_name, py_str_int. intros H%string_app_inv_r. by apply (inj pretty). Qed.

Lemma disk_name_inj a b : disk_name a = disk_name b -> a = b.
Proof. unfold disk_name, py_str_int. intros H%string_app_inv_r. by apply (inj pretty). Qed.

Lemma cpu_ram_name_ne a b : cpu_name a <> ram_name b.
Proof.
  intros H. apply (f_equal last_char) in H. unfold cpu_name, ram_name in H.
  rewrite !last_char_app in H by done. discriminate.
Qed.

Lemma cpu_disk_name_ne a b : cpu_name a <> disk_name b.
Proof.
  intros H. apply (f_equal last_char) in H. unfold cpu_name, disk_name in H.
  rewrite !last_char_app in H by done. discriminate.
Qed.

Lemma ram_disk_name_ne a b : ram_name a <> disk_name b.
Proof.
  intros H. apply (f_equal last_char) in H. unfold ram_name, disk_name in H.
  rewrite !last_char_app in H by done. discriminate.
Qed.

Create HintDb names.
#[export] Hint Resolve cpu_ram_name_ne cpu_disk_name_ne ram_disk_name_ne : names.

(** ** Bounds of [int(new_disk/1024)] *)

(** Integers up to [2^53] in magnitude are doubles. *)
Lemma round_double_small n : (Z.abs n <= 2 ^ 53)%Z -> round_double n = n.
Proof.
  intros H. unfold round_double. destruct (Z.ltb_spec (Z.abs n) (2 ^ 53)) as [|Hge]; [done|].
  assert (Habs : Z.abs n = (2 ^ 53)%Z) by lia. rewrite Habs. cbv -[Z.sgn].
  destruct n; cbn in *; lia.
Qed.

(** Rounding keeps the leading bit: a double nearest to [n] is at least
    [2^(log2 |n|)] in magnitude. *)
Lemma round_double_lower n :
  (2 ^ 53 <= Z.abs n)%Z -> (2 ^ Z.log2 (Z.abs n) <= Z.abs (round_double n))%Z.
Proof.
  intros H. unfold round_double. rewrite (proj2 (Z.ltb_ge _ _) H). cbv zeta.
  set (a := Z.abs n) in *. set (L := Z.log2 a).
  assert (HL : (53 <= L)%Z).
  { rewrite <- (Z.log2_pow2 53) by lia. by apply Z.log2_le_mono. }
  assert (HaL : (2 ^ L <= a)%Z) by (apply Z.log2_spec; lia).
  assert (He : (2 ^ L = 2 ^ 52 * 2 ^ (L - 52))%Z) by (rewrite <- Z.pow_add_r by lia; f_equal; lia).
  assert (Hpe : (0 < 2 ^ (L - 52))%Z) by (apply Z.pow_pos_nonneg; lia).
  assert (Hq : (2 ^ 52 <= a / 2 ^ (L - 52))%Z) by (apply Z.div_le_lower_bound; lia).
  assert (Hsgn : Z.abs (Z.sgn n) = 1%Z) by (destruct n; cbn in *; lia).
  rewrite Z.abs_mul, Hsgn, Z.mul_1_l, Z.abs_mul, (Z.abs_eq (2 ^ (L - 52))) by lia.
  destruct (_ || _); rewrite Z.abs_eq by lia; nia.
Qed.

Lemma py_int_div_1024_overflow n : (2 ^ 1034 <= Z.abs n)%Z -> py_int_div_1024 n = None.
Proof.
  intros H. unfold py_int_div_1024.
  assert (H53 : (2 ^ 53 <= Z.abs n)%Z) by (etrans; [|exact H]; apply Z.pow_le_mono_r; lia).
  assert (HL : (1034 <= Z.log2 (Z.abs n))%Z).
  { rewrite <- (Z.log2_pow2 1034) by lia. by apply Z.log2_le_mono. }
  pose proof (round_double_lower n H53).
  assert (H1034 : (2 ^ 1034 <= 2 ^ Z.log2 (Z.abs n))%Z) by (apply Z.pow_le_mono_r; lia).
  by rewrite (proj2 (Z.leb_le _ _)) by lia.
Qed.

(** C19: up to [2^53] MiB in magnitude, [int(new_disk/1024)] is the exact
    quotient truncated toward zero, as if it were integer arithmetic. *)
Theorem py_int_div_1024_exact n :
  (Z.abs n <= 2 ^ 53)%Z -> py_int_div_1024 n = Some (Z.quot n 1024).
Proof.
  intros H. unfold py_int_div_1024. rewrite round_double_small by done.
  assert (H' : (2 ^ 53 < 2 ^ 1034)%Z) by (apply Z.pow_lt_mono_r; lia).
  by rewrite (proj2 (Z.leb_gt _ _)) by lia.
Qed.

Lemma py_int_div_1024_exact_witness :
  (Z.abs (-1500) <= 2 ^ 53)%Z /\ py_int_div_1024 (-1500) = Some (Z.quot (-1500) 1024).
Proof. split; [lia|]. apply py_int_div_1024_exact. lia. Defined.

(** [2^k - 1] has [k] significant bits, all ones: above [2^54] it lies
    at or beyond the midpoint below the next power of two, and ties go to
    the even neighbour, so the nearest double is [2^k]. *)
Lemma round_double_pred_pow2 k : (54 <= k)%Z -> round_double (2 ^ k - 1) = (2 ^ k)%Z.
Proof.
  intros Hk. unfold round_double.
  assert (HP : (2 ^ k = 2 ^ 53 * 2 ^ (k - 53))%Z) by (rewrite <- Z.pow_add_r by lia; f_equal; lia).
  assert (HH : (2 ^ (k - 53) = 2 * 2 ^ (k - 54))%Z) by (rewrite <- Z.pow_succ_r by lia; f_equal; lia).
  assert (H1 : (1 <= 2 ^ (k - 54))%Z) by (apply (Z.pow_le_mono_r 2 0); lia).
  assert (H53 : (2 ^ 53 = 9007199254740992)%Z) by reflexivity.
  assert (Hpos : (0 <= 2 ^ k - 1)%Z) by lia.
  rewrite Z.abs_eq by lia. rewrite (proj2 (Z.ltb_ge _ _)) by nia. cbv zeta.
  assert (Hlog : Z.log2 (2 ^ k - 1) = (k - 1)%Z).
  { apply Z.log2_unique; [lia|]. replace (Z.succ (k - 1)) with k by lia.
    assert (2 ^ k = 2 * 2 ^ (k - 1))%Z by (rewrite <- Z.pow_succ_r by lia; f_equal; lia). lia. }
  rewrite Hlog. replace (k - 1 - 52)%Z with (k - 53)%Z by lia.
  replace (k - 53 - 1)%Z with (k - 54)%Z by lia.
  set (P := (2 ^ (k - 53))%Z) in *. set (H := (2 ^ (k - 54))%Z) in *.
  rewrite <- (Z.div_unique_pos (2 ^ k - 1) P (2 ^ 53 - 1) (P - 1)) by nia.
  rewrite <- (Z.mod_unique_pos (2 ^ k - 1) P (2 ^ 53 - 1) (P - 1)) by nia.
  replace (Z.odd (2 ^ 53 - 1)) with true by reflexivity.
  rewrite (Z.sgn_pos (2 ^ k - 1)) by nia.
  destruct (Z.ltb_spec H (P - 1)); cbn [orb].
  - lia.
  - assert (H = 1)%Z as -> by lia. replace (P - 1 =? 1)%Z with true by (symmetry; apply Z.eqb_eq; lia).
    cbn. lia.
Qed.

(** C20 (the exactness bound is tight): for every [k] from 54 to 1033,
    a disk of [2^k - 1] MiB gets [int(new_disk/1024) = 2^(k-10)], one
    more than the exact quotient [2^(k-10) - 1]: the code names the model
    after a size rounded to a double, not after the size. *)
Theorem py_int_div_1024_rounds_above_2_53 k :
  (54 <= k <= 1033)%Z ->
  py_int_div_1024 (2 ^ k - 1) = Some (2 ^ (k - 10))%Z /\ Z.quot (2 ^ k - 1) 1024 = (2 ^ (k - 10) - 1)%Z.
Proof.
  intros Hk. assert (Hk10 : (2 ^ k = 1024 * 2 ^ (k - 10))%Z)
    by (change 1024%Z with (2 ^ 10)%Z; rewrite <- Z.pow_add_r by lia; f_equal; lia).
  assert (Hlt : (2 ^ k < 2 ^ 1034)%Z) by (apply Z.pow_lt_mono_r; lia).
  assert (Hpos : (1 <= 2 ^ (k - 10))%Z) by (apply (Z.pow_le_mono_r 2 0); lia).
  split.
  - unfold py_int_div_1024. rewrite round_double_pred_pow2 by lia.
    rewrite Z.abs_eq, (proj2 (Z.leb_gt _ _)) by lia. f_equal.
    rewrite Hk10, Z.mul_comm. apply Z.quot_mul. lia.
  - rewrite Z.quot_div_nonneg by lia. symmetry. apply Z.div_unique_pos with 1023%Z; lia.
Qed.

Lemma py_int_div_1024_rounds_above_2_53_witness :
  py_int_div_1024 (2 ^ 54 - 1) = Some (2 ^ (54 - 10))%Z /\ Z.quot (2 ^ 54 - 1) 1024 = (2 ^ (54 - 10) - 1)%Z.
Proof. apply (py_int_div_1024_rounds_above_2_53 54). lia. Defined.
