(* ===== verification/Flavor.v ===== *)
(** * [CloudFlavor]: the cores / memory / disk derived properties

    models.py lines 26-114.  A flavor instance is its primary key and its
    prefetch cache ([_prefetched_objects_cache['virtualcomponent']], absent
    unless the queryset used [prefetch_related]).  [_get_component] reads
    the cache when there is one and queries the store otherwise;
    [_set_component] resolves or creates the catalog model by name and
    replaces the flavor's component of that type.  The invariant
    [flavor_wf] (unique keys, unique model names, names that agree with
    the model's fields, at most one component per type) is preserved by
    the setters, and under it a setter followed by the getter returns the
    value set, except for the disk setter. *)

From S2P Require Import Prelude Orm Format.

(** ** Python values and the [model_args] dictionaries *)

Inductive PyVal :=
| VStr (s : string)
| VInt (z : Z)
| VType (t : ComponentType).

#[export] Instance PyVal_eq_dec : EqDecision PyVal.
Proof. solve_decision. Defined.

(** The fields of [ComponentModel] the code reads or writes. *)
Inductive ModelField := FName | FType | FCores | FSize | FFamily.

(** [getattr(model, field)]. *)
Definition model_value (m : ComponentModel) (f : ModelField) : PyVal :=
  match f with
  | FName => VStr (cm_name m)
  | FType => VType (cm_type m)
  | FCores => VInt (cm_cores m)
  | FSize => VInt (cm_size m)
  | FFamily => VStr (cm_family m)
  end.

(** The dictionary key naming a field. *)
Definition field_of_key (k : string) : option ModelField :=
  if bool_decide (k = "name") then Some FName
  else if bool_decide (k = "type") then Some FType
  else if bool_decide (k = "cores") then Some FCores
  else if bool_decide (k = "size") then Some FSize
  else if bool_decide (k = "family") then Some FFamily
  else None.

(** [setattr(model, key, value)]: a value of the wrong Python type or an
    unknown key leaves the persisted fields unchanged. *)
Definition setattr_model (m : ComponentModel) (kv : string * PyVal) : ComponentModel :=
  match field_of_key kv.1, kv.2 with
  | Some FName, VStr s => mkComponentModel (cm_id m) s (cm_type m) (cm_cores m) (cm_size m) (cm_family m)
  | Some FType, VType t => mkComponentModel (cm_id m) (cm_name m) t (cm_cores m) (cm_size m) (cm_family m)
  | Some FCores, VInt z => mkComponentModel (cm_id m) (cm_name m) (cm_type m) z (cm_size m) (cm_family m)
  | Some FSize, VInt z => mkComponentModel (cm_id m) (cm_name m) (cm_type m) (cm_cores m) z (cm_family m)
  | Some FFamily, VStr s => mkComponentModel (cm_id m) (cm_name m) (cm_type m) (cm_cores m) (cm_size m) s
  | _, _ => m
  end.

(** A Python [dict] literal: keys in insertion order. *)
Definition ModelArgs := list (string * PyVal).

Definition dict_lookup (d : ModelArgs) (k : string) : option PyVal :=
  snd <$> List.find (fun kv => bool_decide (kv.1 = k)) d.

(** [d[k]]. *)
Definition dict_get (d : ModelArgs) (k : string) : M Store PyVal :=
  match dict_lookup d k with Some v => ret v | None => raise KeyError end.

(** [ComponentModel(); for key, value in model_args.items(): setattr(...)]. *)
Definition build_model (model_args : ModelArgs) (id : nat) : ComponentModel :=
  fold_left setattr_model model_args (ComponentModel_default id).

(** ** The store seen from a flavor *)

(** [component.model]: the model row a component points to. *)
Definition component_model (s : Store) (c : VirtualComponent) : option ComponentModel :=
  List.find (fun m => Nat.eqb (cm_id m) (vc_model c)) (st_models s).

(** [self.virtualcomponent.filter(model__type=t)]: an inner join, in
    component order. *)
Definition is_typed (s : Store) (self : nat) (t : PyVal) (c : VirtualComponent) : bool :=
  Nat.eqb (vc_base_object c) self &&
  match component_model s c with
  | Some m => bool_decide (model_value m FType = t)
  | None => false
  end.

Definition typed_components (s : Store) (self : nat) (t : PyVal) : list VirtualComponent :=
  List.filter (is_typed s self t) (st_components s).

(** A flavor instance: its key and its prefetch cache. *)
Record FlavorInstance := mkFlavorInstance {
  fi_pk : nat;
  fi_prefetched : option (list VirtualComponent);
}.

(** ** [_get_component] (lines 55-68) *)

(** [....values_list(field_path, flat=True).first()] with
    [field_path = 'model__<f>']. *)
Definition query_component (self : nat) (model_type : ComponentType) (f : ModelField)
    : M Store (option PyVal) :=
  fun s => Ok (head (List.map (fun c => from_option (fun m => model_value m f) (VStr "")
                                          (component_model s c))
                        (typed_components s self (VType model_type)))) s.

(** [component.model] on a cached component: a query on the model table. *)
Definition get_component_model (c : VirtualComponent) : M Store ComponentModel :=
  fun s => match component_model s c with
           | Some m => Ok m s
           | None => Raise DoesNotExist s
           end.

(** The loop over the prefetched components. *)
Fixpoint scan_cache (components : list VirtualComponent) (model_type : ComponentType)
    (f : ModelField) : M Store (option PyVal) :=
  match components with
  | [] => ret None
  | c :: rest =>
      m <- get_component_model c ;;
      if bool_decide (cm_type m = model_type) then ret (Some (model_value m f))
      else scan_cache rest model_type f
  end.

Definition _get_component (self : FlavorInstance) (model_type : ComponentType)
    (field_path : ModelField) : M Store (option PyVal) :=
  match fi_prefetched self with
  | None => query_component (fi_pk self) model_type field_path
  | Some components => scan_cache components model_type field_path
  end.

(** ** [_set_component] (lines 36-53) *)

(** Lines 38-44: [ComponentModel.objects.get(name=...)], or a new model. *)
Definition resolve_model (model_args : ModelArgs) : M Store ComponentModel :=
  try_except
    (name <- dict_get model_args "name" ;;
     objects_get (fun m => bool_decide (model_value m FName = name)))
    is_object_does_not_exist
    (fun _ => create (build_model model_args)).

(** Lines 45-53: keep the component if this flavor already uses the
    model; otherwise delete the flavor's components of the type and
    attach a new one. *)
Definition attach_model (self : FlavorInstance) (model_args : ModelArgs)
    (model : ComponentModel) : M Store unit :=
  try_except
    (objects_get (fun c => Nat.eqb (vc_base_object c) (fi_pk self) &&
                           Nat.eqb (vc_model c) (cm_id model)) ;;; ret tt)
    is_object_does_not_exist
    (fun _ =>
       t <- dict_get model_args "type" ;;
       comps <- (fun s => Ok (typed_components s (fi_pk self) t) s) ;;
       for_each comps delete_row ;;;
       create (fun id => mkVirtualComponent id (fi_pk self) (cm_id model)) ;;;
       ret tt).

Definition _set_component (self : FlavorInstance) (model_args : ModelArgs) : M Store unit :=
  model <- resolve_model model_args ;;
  attach_model self model_args model.

(** ** The properties (lines 70-114) *)

Definition cpu_args (new_cores : Z) : ModelArgs :=
  [("name", VStr (cpu_name new_cores)); ("cores", VInt new_cores);
   ("family", VStr "vcpu"); ("type", VType ComponentType.processor)].

Definition ram_args (new_memory : Z) : ModelArgs :=
  [("name", VStr (ram_name new_memory)); ("size", VInt new_memory); ("type", VType ComponentType.memory)].

(** The [disk] dictionary once [int(new_disk/1024)] has been computed. *)
Definition disk_dict (new_disk gib : Z) : ModelArgs :=
  [("name", VStr (disk_name gib)); ("size", VInt new_disk); ("type", VType ComponentType.disk)].

(** Building the dictionary evaluates [int(new_disk/1024)], which raises
    [OverflowError] past the range of a double. *)
Definition disk_args (new_disk : Z) : option ModelArgs :=
  match py_int_div_1024 new_disk with
  | Some gib => Some (disk_dict new_disk gib)
  | None => None
  end.

Definition cores (self : FlavorInstance) : M Store (option PyVal) :=
  _get_component self ComponentType.processor FCores.

Definition memory (self : FlavorInstance) : M Store (option PyVal) :=
  _get_component self ComponentType.memory FSize.

Definition disk (self : FlavorInstance) : M Store (option PyVal) :=
  _get_component self ComponentType.disk FSize.

(** [if self.cores != new_cores: self._set_component(cpu)]. *)
Definition set_cores (self : FlavorInstance) (new_cores : Z) : M Store unit :=
  let cpu := cpu_args new_cores in
  cur <- cores self ;;
  if bool_decide (cur = Some (VInt new_cores)) then ret tt else _set_component self cpu.

Definition set_memory (self : FlavorInstance) (new_memory : Z) : M Store unit :=
  let ram := ram_args new_memory in
  cur <- memory self ;;
  if bool_decide (cur = Some (VInt new_memory)) then ret tt else _set_component self ram.

Definition set_disk (self : FlavorInstance) (new_disk : Z) : M Store unit :=
  match disk_args new_disk with
  | None => raise OverflowError
  | Some d =>
      cur <- disk self ;;
      if bool_decide (cur = Some (VInt new_disk)) then ret tt else _set_component self d
  end.

(** ** The invariant *)

(** A synthesized name determines the fields it was synthesized from. *)
Definition catalog_name_ok (m : ComponentModel) : Prop :=
  (forall n, cm_name m = cpu_name n -> cm_type m = ComponentType.processor /\ cm_cores m = n) /\
  (forall n, cm_name m = ram_name n -> cm_type m = ComponentType.memory /\ cm_size m = n) /\
  (forall g, cm_name m = disk_name g ->
     cm_type m = ComponentType.disk /\ py_int_div_1024 (cm_size m) = Some g).

Record flavor_wf (s : Store) : Prop := {
  wf_model_keys : @keys_ok ComponentModel _ s;
  wf_component_keys : @keys_ok VirtualComponent _ s;
  wf_model_names : NoDup (map cm_name (st_models s));
  wf_catalog : Forall catalog_name_ok (st_models s);
  wf_component_models : Forall (fun c => is_Some (component_model s c)) (st_components s);
  wf_one_per_type : forall b t, length (typed_components s b t) <= 1;
}.

(** What [_set_component] needs of its dictionary: the name and type
    keys, and a built model that carries them and respects the catalog. *)
Definition args_ok (model_args : ModelArgs) (nm : string) (t : ComponentType) : Prop :=
  dict_lookup model_args "name" = Some (VStr nm) /\
  dict_lookup model_args "type" = Some (VType t) /\
  (forall id, cm_id (build_model model_args id) = id /\
              cm_name (build_model model_args id) = nm /\
              cm_type (build_model model_args id) = t /\
              catalog_name_ok (build_model model_args id)) /\
  (forall m, catalog_name_ok m -> cm_name m = nm -> cm_type m = t).

(** ** Lemmas on the component join *)

Lemma component_model_in s c m :
  @keys_ok ComponentModel _ s -> In m (st_models s) -> vc_model c = cm_id m ->
  component_model s c = Some m.
Proof.
  intros [Hnd _] Hin Hc. unfold component_model. rewrite Hc.
  by apply (find_unique_key cm_id).
Qed.

Lemma component_model_some s c m :
  component_model s c = Some m -> In m (st_models s) /\ cm_id m = vc_model c.
Proof.
  unfold component_model. intros H. split.
  - by apply find_some in H as [? _].
  - apply find_some in H as [_ H]. by apply Nat.eqb_eq.
Qed.

(** A component is of one base object and one type. *)
Lemma is_typed_unique s b1 b2 t1 t2 c :
  is_typed s b1 t1 c = true -> is_typed s b2 t2 c = true -> b1 = b2 /\ t1 = t2.
Proof.
  unfold is_typed. destruct (component_model s c); [|by rewrite !andb_false_r].
  intros (H1%Nat.eqb_eq & H2%bool_decide_eq_true)%andb_true_iff
         (H3%Nat.eqb_eq & H4%bool_decide_eq_true)%andb_true_iff.
  split; congruence.
Qed.

(** Deleting the components of one (base object, type) pair leaves every
    other pair's components as they were and that pair's empty. *)
Lemma typed_without s self t b t' l :
  NoDup (map vc_id l) ->
  List.filter (is_typed s b t') (without_rows (List.filter (is_typed s self t) l) l) =
  if bool_decide (b = self /\ t' = t) then [] else List.filter (is_typed s b t') l.
Proof.
  intros Hnd. unfold without_rows. rewrite filter_filter_bool.
  case_bool_decide as Hbt.
  - destruct Hbt as [-> ->]. apply filter_all_false. intros x Hx.
    destruct (is_typed s self t x) eqn:Ht; [|by rewrite andb_false_r].
    rewrite andb_true_r. apply negb_false_iff, existsb_exists.
    exists x. rewrite filter_In, Nat.eqb_refl. auto.
  - apply filter_ext_in_bool. intros x Hx.
    destruct (is_typed s b t' x) eqn:Ht; [|by rewrite andb_false_r].
    rewrite andb_true_r. apply negb_true_iff, not_true_iff_false.
    intros (y & Hy & Hxy%Nat.eqb_eq)%existsb_exists. apply filter_In in Hy as [Hy Hty].
    assert (x = y) as <- by (by apply (NoDup_map_eq_in vc_id l)).
    destruct (is_typed_unique _ _ _ _ _ _ Hty Ht). apply Hbt. auto.
Qed.

(** Appending models does not change what the existing components join
    with. *)
Lemma models_extend s s1 l :
  Forall (fun c => is_Some (component_model s c)) (st_components s) ->
  st_models s1 = st_models s ++ l -> st_components s1 = st_components s ->
  (forall c, In c (st_components s) -> component_model s1 c = component_model s c) /\
  (forall b t, typed_components s1 b t = typed_components s b t).
Proof.
  intros Hall Hm Hc.
  assert (Hcm : forall c, In c (st_components s) -> component_model s1 c = component_model s c).
  { intros c Hin. rewrite Forall_forall in Hall.
    destruct (Hall c (proj2 (list_elem_of_In _ _) Hin)) as [m Hsome].
    unfold component_model in *. rewrite Hm, Hsome. by apply find_app_some. }
  split; [done|]. intros b t. unfold typed_components. rewrite Hc.
  apply filter_ext_in_bool. intros c Hin. unfold is_typed. by rewrite Hcm.
Qed.

Lemma name_filter_eq (l : list ComponentModel) nm :
  List.filter (fun m => bool_decide (model_value m FName = VStr nm)) l =
  List.filter (fun m => bool_decide (cm_name m = nm)) l.
Proof.
  apply List.filter_ext. intros m. simpl. apply bool_decide_ext. split; congruence.
Qed.

Lemma is_typed_models s s' :
  st_models s' = st_models s -> is_typed s' = is_typed s.
Proof. intros Hm. unfold is_typed, component_model. by rewrite Hm. Qed.

Lemma component_model_models s s' c :
  st_models s' = st_models s -> component_model s' c = component_model s c.
Proof. intros Hm. unfold component_model. by rewrite Hm. Qed.

(** A component of [self] pointing to [m] is one of [self]'s components
    of [m]'s type. *)
Lemma uses_model_typed s self m c :
  @keys_ok ComponentModel _ s -> In m (st_models s) ->
  Nat.eqb (vc_base_object c) self && Nat.eqb (vc_model c) (cm_id m) = true ->
  is_typed s self (VType (cm_type m)) c = true.
Proof.
  intros Hk Hin (Hb & Hm%Nat.eqb_eq)%andb_true_iff. unfold is_typed.
  rewrite Hb, (component_model_in s c m Hk Hin Hm). simpl. by apply bool_decide_eq_true.
Qed.

Section SetComponent.
Context (model_args : ModelArgs) (nm : string) (t : ComponentType).
Hypothesis Hargs : args_ok model_args nm t.

(** Lines 38-44 under the invariant: the model named [nm], found or
    created, of type [t]; the components are untouched. *)
Lemma resolve_model_spec s :
  flavor_wf s ->
  exists m s1, resolve_model model_args s = Ok m s1 /\ flavor_wf s1 /\
    In m (st_models s1) /\ cm_name m = nm /\ cm_type m = t /\
    st_components s1 = st_components s /\
    (forall b t', typed_components s1 b t' = typed_components s b t') /\
    (exists l, st_models s1 = st_models s ++ l).
Proof.
  intros Hwf. destruct Hargs as (Hname & _ & Hbuild & Hcat).
  unfold resolve_model, try_except, bind, dict_get. rewrite Hname. simpl.
  pose proof (filter_unique_key_le1 cm_name (st_models s) nm (wf_model_names _ Hwf)) as Hle.
  rewrite objects_get_single; simpl; rewrite name_filter_eq; [|done].
  destruct (List.filter _ (st_models s)) as [|x [|y r]] eqn:Hf; simpl.
  - set (m := build_model model_args (st_next s)).
    destruct (Hbuild (st_next s)) as (Hid & Hnm & Hty & Hok).
    set (s1 := set_models (st_models s ++ [m]) (set_next (S (st_next s)) s)).
    destruct (models_extend s s1 [m]) as [Hcm Htyped];
      [apply Hwf|done|done|].
    exists m, s1. split; [done|]. split; [|split; [by apply in_or_app; right; left|]];
      [|do 4 (split; [done|]); by exists [m]].
    destruct Hwf as [Hmk [Hcnd Hclt] Hnames Hcatal Hcms Hone]. split.
    + exact (create_fresh (R:=ComponentModel) (build_model model_args) s Hid Hmk).
    + split; [done|]. simpl. eapply Forall_impl; [exact Hclt|]. simpl. lia.
    + simpl. rewrite map_app. apply NoDup_app. split; [done|].
      split; [|apply NoDup_singleton]. intros x Hx. simpl. rewrite list_elem_of_singleton.
      intros ->. apply list_elem_of_In, in_map_iff in Hx as (y & Hy & Hin).
      assert (Hy' : In y (List.filter (fun m => bool_decide (cm_name m = nm)) (st_models s)))
        by (apply filter_In; split; [done|]; apply bool_decide_eq_true; rewrite Hy; exact Hnm).
      by rewrite Hf in Hy'.
    + simpl. apply Forall_app. split; [done|]. by constructor.
    + rewrite Forall_forall in Hcms |- *. intros c Hc.
      rewrite Hcm by (by apply list_elem_of_In). by apply Hcms.
    + intros b t'. rewrite Htyped. apply Hone.
  - assert (Hx : In x (List.filter (fun m => bool_decide (cm_name m = nm)) (st_models s)))
      by (rewrite Hf; left; done).
    apply filter_In in Hx as [Hin Hxn%bool_decide_eq_true].
    exists x, s. do 4 (split; [done|]). split; [|split; [done|split; [done|exists []; by rewrite app_nil_r]]].
    apply Hcat; [|done]. eapply Forall_forall; [apply Hwf|]. by apply list_elem_of_In.
  - simpl in Hle. lia.
Qed.

(** Lines 45-53 under the invariant, for a model [m] of type [t] in the
    catalog: the flavor ends with exactly one component of type [t],
    pointing to [m], and the components of every other (object, type)
    pair are unchanged. *)
Lemma attach_model_spec self m s1 :
  flavor_wf s1 -> In m (st_models s1) -> cm_type m = t ->
  exists s2 c, attach_model self model_args m s1 = Ok tt s2 /\ flavor_wf s2 /\
    typed_components s2 (fi_pk self) (VType t) = [c] /\ component_model s2 c = Some m /\
    st_models s2 = st_models s1 /\
    (forall b t', ~ (b = fi_pk self /\ t' = VType t) ->
       typed_components s2 b t' = typed_components s1 b t').
Proof.
  intros Hwf Hin Hty. destruct Hargs as (_ & Htype & _ & _).
  set (P := fun c => Nat.eqb (vc_base_object c) (fi_pk self) && Nat.eqb (vc_model c) (cm_id m)).
  assert (HP : forall c, P c = true -> is_typed s1 (fi_pk self) (VType t) c = true).
  { intros c Hc. rewrite <- Hty. by apply uses_model_typed; [apply Hwf|..]. }
  pose proof (Nat.le_trans _ _ _ (filter_length_mono P _ (st_components s1) HP)
                (wf_one_per_type _ Hwf (fi_pk self) (VType t))) as Hle.
  unfold attach_model, try_except, bind.
  rewrite (objects_get_single (R:=VirtualComponent)) by exact Hle.
  cbn [tbl_get Table_components]. fold P.
  destruct (List.filter P (st_components s1)) as [|x [|y r]] eqn:Hf; simpl.
  - (* no component uses [m]: delete the typed ones, attach a new one *)
    unfold dict_get. rewrite Htype. simpl.
    rewrite (for_each_delete_row (R:=VirtualComponent)). simpl.
    set (comps := typed_components s1 (fi_pk self) (VType t)).
    set (c := mkVirtualComponent (st_next s1) (fi_pk self) (cm_id m)).
    set (s2 := set_components (without_rows comps (st_components s1) ++ [c])
                 (set_next (S (st_next s1)) (set_components (without_rows comps (st_components s1)) s1))).
    assert (Hms : st_models s2 = st_models s1) by done.
    assert (Hc : is_typed s1 (fi_pk self) (VType t) c = true) by (apply HP; unfold P; simpl;
      by rewrite !Nat.eqb_refl).
    assert (Hnd := proj1 (wf_component_keys _ Hwf)).
    assert (Htyped : forall b t', typed_components s2 b t' =
      (if bool_decide (b = fi_pk self /\ t' = VType t) then [] else typed_components s1 b t')
      ++ List.filter (is_typed s1 b t') [c]).
    { intros b t'. unfold typed_components. rewrite (is_typed_models s1 s2 Hms).
      simpl st_components. rewrite filter_app_bool. f_equal. by apply typed_without. }
    exists s2, c. split; [done|]. split; [|split; [|split; [|split]]].
    + destruct Hwf as [Hmk Hck Hnames Hcatal Hcms Hone]. split; [| |exact Hnames|exact Hcatal|..].
      * exact (keys_ok_bump (R:=ComponentModel) s1 (S (st_next s1)) ltac:(lia) Hmk).
      * exact (create_fresh (R:=VirtualComponent) (fun id => mkVirtualComponent id (fi_pk self) (cm_id m))
                 (set_components (without_rows comps (st_components s1)) s1) eq_refl
                 (keys_ok_filter (R:=VirtualComponent) _ s1 Hck)).
      * rewrite Forall_forall in Hcms |- *. intros x Hx.
        rewrite (component_model_models s1 s2 x Hms).
        apply list_elem_of_In, in_app_or in Hx as [Hx%filter_In|[<-|[]]].
        -- apply Hcms, list_elem_of_In. tauto.
        -- exists m. apply (component_model_in s1); [exact Hmk|done|done].
      * intros b t'. rewrite Htyped. case_bool_decide as Hbt; simpl.
        -- destruct Hbt as [-> ->]. rewrite Hc. simpl. lia.
        -- destruct (is_typed s1 b t' c) eqn:Hc'.
           ++ exfalso. apply Hbt. destruct (is_typed_unique _ _ _ _ _ _ Hc Hc'). auto.
           ++ rewrite app_nil_r. apply Hone.
    + rewrite Htyped, bool_decide_eq_true_2 by done. simpl. by rewrite Hc.
    + rewrite (component_model_models s1 s2 c Hms). by apply component_model_in; [apply Hwf|..].
    + done.
    + intros b t' Hbt. rewrite Htyped, bool_decide_eq_false_2 by done. simpl.
      destruct (is_typed s1 b t' c) eqn:Hc'; [|by rewrite app_nil_r].
      exfalso. apply Hbt. destruct (is_typed_unique _ _ _ _ _ _ Hc Hc'). auto.
  - (* the flavor already uses [m]: nothing changes *)
    assert (Hx : In x (List.filter P (st_components s1))) by (rewrite Hf; by left).
    apply filter_In in Hx as [Hxin HPx].
    exists s1, x. split; [done|]. split; [done|]. split; [|split; [|done]].
    + apply filter_singleton_of_le1; [apply Hwf|done|by apply HP].
    + apply component_model_in; [apply Hwf|done|].
      unfold P in HPx. apply andb_true_iff in HPx as [_ ?]. by apply Nat.eqb_eq.
  - simpl in Hle. lia.
Qed.

(** [_set_component] under the invariant: no exception, the invariant
    again, one component of type [t] pointing to a model named [nm],
    and every other (object, type) pair untouched. *)
Lemma set_component_spec self s :
  flavor_wf s ->
  exists s' m c, _set_component self model_args s = Ok tt s' /\ flavor_wf s' /\
    In m (st_models s') /\ cm_name m = nm /\
    typed_components s' (fi_pk self) (VType t) = [c] /\ component_model s' c = Some m /\
    (forall b t', ~ (b = fi_pk self /\ t' = VType t) ->
       typed_components s' b t' = typed_components s b t') /\
    (exists l, st_models s' = st_models s ++ l).
Proof.
  intros Hwf.
  destruct (resolve_model_spec s Hwf) as (m & s1 & Hr & Hwf1 & Hin & Hnm & Hty & _ & Htyp & Hext).
  destruct (attach_model_spec self m s1 Hwf1 Hin Hty)
    as (s2 & c & Ha & Hwf2 & Ht2 & Hcm & Hms & Hframe).
  exists s2, m, c. unfold _set_component, bind. rewrite Hr, Ha.
  do 2 (split; [done|]). split; [by rewrite Hms|]. do 3 (split; [done|]).
  split; [intros b t' Hbt; by rewrite Hframe, Htyp|]. by rewrite Hms.
Qed.
End SetComponent.

(** [_set_component] on a model the catalog has and the flavor already
    uses changes nothing. *)
Lemma set_component_existing self args nm s m c :
  flavor_wf s -> dict_lookup args "name" = Some (VStr nm) ->
  In m (st_models s) -> cm_name m = nm ->
  In c (st_components s) -> vc_base_object c = fi_pk self -> vc_model c = cm_id m ->
  _set_component self args s = Ok tt s.
Proof.
  intros Hwf Hname Hin Hnm Hc Hb Hm. unfold _set_component, resolve_model, try_except, bind, dict_get.
  rewrite Hname. simpl. unfold objects_get. cbn [tbl_get Table_models]. rewrite name_filter_eq.
  rewrite (filter_singleton_of_le1 _ _ m); [|apply filter_unique_key_le1, Hwf|done|
    by apply bool_decide_eq_true].
  unfold attach_model, try_except, bind, objects_get. cbn [tbl_get Table_components].
  rewrite (filter_singleton_of_le1 _ _ c); [done| |done|by rewrite Hb, Hm, !Nat.eqb_refl].
  etransitivity; [|apply (wf_one_per_type _ Hwf (fi_pk self) (VType (cm_type m)))].
  apply filter_length_mono. intros x Hx. by apply uses_model_typed; [apply Hwf|..].
Qed.

Lemma query_component_single s self t f c m :
  typed_components s self (VType t) = [c] -> component_model s c = Some m ->
  query_component self t f s = Ok (Some (model_value m f)) s.
Proof. intros H1 H2. unfold query_component. rewrite H1. simpl. by rewrite H2. Qed.

(** The shape shared by the three setters: [if self.<p> != new:
    self._set_component(args)], on an instance without a prefetch cache.
    Afterwards the getter returns some [w] satisfying [Q] (the value set,
    or what a model with the synthesized name holds), the flavor has
    exactly one component of the type, and other pairs are untouched. *)
Lemma setter_spec (t : ComponentType) (f : ModelField) (args : ModelArgs) nm v
    (Q : PyVal -> Prop) s fi :
  args_ok args nm t -> Q v ->
  (forall m, catalog_name_ok m -> cm_name m = nm -> Q (model_value m f)) ->
  flavor_wf s -> fi_prefetched fi = None ->
  exists s' w c,
    (cur <- _get_component fi t f ;;
     if bool_decide (cur = Some v) then ret tt else _set_component fi args) s = Ok tt s' /\
    flavor_wf s' /\ _get_component fi t f s' = Ok (Some w) s' /\ Q w /\
    typed_components s' (fi_pk fi) (VType t) = [c] /\
    (forall b t', ~ (b = fi_pk fi /\ t' = VType t) ->
       typed_components s' b t' = typed_components s b t').
Proof.
  intros Hargs Hv HQ Hwf Hnone. unfold _get_component. rewrite Hnone. unfold bind.
  unfold query_component at 1. case_bool_decide as Hcur.
  - pose proof (wf_one_per_type _ Hwf (fi_pk fi) (VType t)) as Hle.
    destruct (typed_components s (fi_pk fi) (VType t)) as [|c [|c' r]] eqn:Ht;
      simpl in Hcur, Hle; [done| |lia].
    exists s, v, c. split; [done|]. split; [done|]. split; [|done].
    unfold query_component. by rewrite Ht, <- Hcur.
  - destruct (set_component_spec args nm t Hargs fi s Hwf)
      as (s' & m & c & Hset & Hwf' & Hin & Hnm & Ht & Hcm & Hframe & _).
    exists s', (model_value m f), c. split; [done|]. split; [done|].
    split; [by apply query_component_single with c|]. split; [|done].
    apply HQ; [|done]. eapply Forall_forall; [apply Hwf'|]. by apply list_elem_of_In.
Qed.

(** ** The dictionaries the setters pass *)

Lemma build_model_cpu n id :
  build_model (cpu_args n) id =
  mkComponentModel id (cpu_name n) ComponentType.processor n 0 "vcpu".
Proof. reflexivity. Qed.

Lemma build_model_ram n id :
  build_model (ram_args n) id = mkComponentModel id (ram_name n) ComponentType.memory 0 n "".
Proof. reflexivity. Qed.

Lemma build_model_disk n g id :
  build_model (disk_dict n g) id = mkComponentModel id (disk_name g) ComponentType.disk 0 n "".
Proof. reflexivity. Qed.

Lemma cpu_args_ok n : args_ok (cpu_args n) (cpu_name n) ComponentType.processor.
Proof.
  split; [done|]. split; [done|]. split.
  - intros id. rewrite build_model_cpu. do 3 (split; [done|]). simpl.
    split; [|split]; intros k Hk.
    + by apply cpu_name_inj in Hk as ->.
    + by apply cpu_ram_name_ne in Hk.
    + by apply cpu_disk_name_ne in Hk.
  - intros m [Hc _] Hnm. by apply Hc in Hnm as [? _].
Qed.

Lemma ram_args_ok n : args_ok (ram_args n) (ram_name n) ComponentType.memory.
Proof.
  split; [done|]. split; [done|]. split.
  - intros id. rewrite build_model_ram. do 3 (split; [done|]). simpl.
    split; [|split]; intros k Hk.
    + symmetry in Hk. by apply cpu_ram_name_ne in Hk.
    + by apply ram_name_inj in Hk as ->.
    + by apply ram_disk_name_ne in Hk.
  - intros m (_ & Hr & _) Hnm. by apply Hr in Hnm as [? _].
Qed.

Lemma disk_args_ok n g :
  py_int_div_1024 n = Some g -> args_ok (disk_dict n g) (disk_name g) ComponentType.disk.
Proof.
  intros Hg. split; [done|]. split; [done|]. split.
  - intros id. rewrite build_model_disk. do 3 (split; [done|]). simpl.
    split; [|split]; intros k Hk.
    + symmetry in Hk. by apply cpu_disk_name_ne in Hk.
    + symmetry in Hk. by apply ram_disk_name_ne in Hk.
    + apply disk_name_inj in Hk as <-. by split.
  - intros m (_ & _ & Hd) Hnm. by apply Hd in Hnm as [? _].
Qed.

Lemma dict_get_pure d k : pure_stmt (dict_get d k).
Proof. intros s. unfold dict_get. by destruct (dict_lookup d k). Qed.

#[export] Hint Resolve dict_get_pure : ralph_inv.

(** ** Lemmas for the properties *)

(** The getters never write. *)
Lemma get_component_pure fi t f s : final (_get_component fi t f s) = s.
Proof.
  unfold _get_component. destruct (fi_prefetched fi) as [l|]; [|done].
  revert s. induction l as [|c l IH]; intros s; [done|]. simpl.
  unfold bind, get_component_model. destruct (component_model s c); [|done].
  case_bool_decide; [done|apply IH].
Qed.

Lemma get_component_pure_stmt fi t f : pure_stmt (_get_component fi t f).
Proof. intros s. apply get_component_pure. Qed.

#[export] Hint Resolve get_component_pure_stmt : ralph_inv.

(** The prefetch loop over components that all join with a model, of
    which the flavor's are [l] filtered by base object, gives the first
    value the query would give. *)
Lemma scan_cache_query s self t f l :
  Forall (fun c => is_Some (component_model s c)) l ->
  scan_cache (List.filter (fun c => Nat.eqb (vc_base_object c) self) l) t f s =
  Ok (head (List.map (fun c => from_option (fun m => model_value m f) (VStr "")
                                 (component_model s c))
                     (List.filter (is_typed s self (VType t)) l))) s.
Proof.
  induction l as [|c l IH]; intros Hall; [done|].
  apply Forall_cons in Hall as [[m Hm] Hall]. simpl. unfold is_typed at 1. rewrite Hm.
  destruct (Nat.eqb (vc_base_object c) self); simpl; [|by apply IH].
  unfold bind, get_component_model. rewrite Hm.
  case_bool_decide as Ht; case_bool_decide as Ht'; simpl in *.
  - by rewrite Hm.
  - congruence.
  - congruence.
  - by apply IH.
Qed.

(** The cache loop reads only the model table, and a lookup that found
    a model still finds it once models are appended. *)
Lemma scan_cache_extend s s' l cs t f v :
  st_models s' = st_models s ++ l ->
  scan_cache cs t f s = Ok v s -> scan_cache cs t f s' = Ok v s'.
Proof.
  intros Hl. induction cs as [|c cs IH]; [by intros [= <-]|]. cbn [scan_cache].
  unfold bind, get_component_model. destruct (component_model s c) as [mo|] eqn:Hc; [|done].
  assert (Hc' : component_model s' c = Some mo)
    by (unfold component_model in *; rewrite Hl; by apply find_app_some).
  rewrite Hc'. case_bool_decide; [by intros [= <-]|apply IH].
Qed.

(** An example store: one flavor (pk 1) without components. *)
Definition example_store : Store :=
  mkStore 10 [mkCloudProvider 2 "openstack"]
    [mkBaseObject (Some 1) (KCloudFlavor (mkCloudFlavor "m1.small" 2 "f-1")) None None]
    [] [] [] [].

Definition example_flavor : FlavorInstance := mkFlavorInstance 1 None.

Lemma example_store_wf : flavor_wf example_store.
Proof.
  constructor.
  - split; constructor.
  - split; constructor.
  - constructor.
  - constructor.
  - constructor.
  - intros b t. unfold typed_components. simpl. lia.
Qed.

(** ** Properties *)

(** C1: setting [cores] on a flavor read without a prefetch cache
    succeeds, keeps the store invariant, and reading [cores] back gives
    the number just set. *)
Theorem set_cores_then_cores s fi n :
  flavor_wf s -> fi_prefetched fi = None ->
  exists s', set_cores fi n s = Ok tt s' /\ flavor_wf s' /\
             cores fi s' = Ok (Some (VInt n)) s'.
Proof.
  intros Hwf Hn.
  destruct (setter_spec ComponentType.processor FCores (cpu_args n) (cpu_name n) (VInt n)
              (eq (VInt n)) s fi (cpu_args_ok n) eq_refl)
    as (s' & w & c & Hset & Hwf' & Hget & <- & _); [|done|done|].
  - intros m [Hc _] Hnm. simpl. by apply Hc in Hnm as [_ ->].
  - by exists s'.
Qed.

Lemma set_cores_then_cores_witness :
  exists s', set_cores example_flavor 4 example_store = Ok tt s' /\ flavor_wf s' /\
             cores example_flavor s' = Ok (Some (VInt 4)) s'.
Proof. apply set_cores_then_cores; [apply example_store_wf|reflexivity]. Defined.

(** C2: setting [memory] then reading it back gives the size just set,
    in MiB. *)
Theorem set_memory_then_memory s fi n :
  flavor_wf s -> fi_prefetched fi = None ->
  exists s', set_memory fi n s = Ok tt s' /\ flavor_wf s' /\
             memory fi s' = Ok (Some (VInt n)) s'.
Proof.
  intros Hwf Hn.
  destruct (setter_spec ComponentType.memory FSize (ram_args n) (ram_name n) (VInt n)
              (eq (VInt n)) s fi (ram_args_ok n) eq_refl)
    as (s' & w & c & Hset & Hwf' & Hget & <- & _); [|done|done|].
  - intros m (_ & Hr & _) Hnm. simpl. by apply Hr in Hnm as [_ ->].
  - by exists s'.
Qed.

Lemma set_memory_then_memory_witness :
  exists s', set_memory example_flavor 2048 example_store = Ok tt s' /\ flavor_wf s' /\
             memory example_flavor s' = Ok (Some (VInt 2048)) s'.
Proof. apply set_memory_then_memory; [apply example_store_wf|reflexivity]. Defined.

(** C3: setting [disk] succeeds and keeps the invariant, but reading it
    back only guarantees a size in the same GiB as the one set
    ([int(size/1024)] agrees), not the size itself. *)
Theorem set_disk_then_disk_same_gib s fi n g :
  flavor_wf s -> fi_prefetched fi = None -> py_int_div_1024 n = Some g ->
  exists s' n', set_disk fi n s = Ok tt s' /\ flavor_wf s' /\
                disk fi s' = Ok (Some (VInt n')) s' /\ py_int_div_1024 n' = Some g.
Proof.
  intros Hwf Hn Hg. unfold set_disk, disk_args. rewrite Hg.
  destruct (setter_spec ComponentType.disk FSize (disk_dict n g) (disk_name g) (VInt n)
              (fun w => exists n', w = VInt n' /\ py_int_div_1024 n' = Some g)
              s fi (disk_args_ok n g Hg))
    as (s' & w & c & Hset & Hwf' & Hget & (n' & -> & Hq) & _); [by exists n| |done|done|].
  - intros m (_ & _ & Hd) Hnm. apply Hd in Hnm as [_ Hq]. by exists (cm_size m).
  - by exists s', n'.
Qed.

Lemma set_disk_then_disk_same_gib_witness :
  exists s' n', set_disk example_flavor 1500 example_store = Ok tt s' /\ flavor_wf s' /\
                disk example_flavor s' = Ok (Some (VInt n')) s' /\ py_int_div_1024 n' = Some 1%Z.
Proof. apply set_disk_then_disk_same_gib; [apply example_store_wf|reflexivity|reflexivity]. Defined.

(** C4 (a bug): the disk model's name keeps only [int(new_disk/1024)].
    Once [disk] has been set to [d1] on a flavor whose disk was not [d1],
    setting it to any other [d2] of the same GiB does nothing at all: the
    lookup by name finds the model of [d1] and the flavor already uses it. *)
Theorem set_disk_same_gib_ignored s fi d1 d2 s1 :
  flavor_wf s -> fi_prefetched fi = None ->
  disk fi s <> Ok (Some (VInt d1)) s ->
  py_int_div_1024 d1 = py_int_div_1024 d2 ->
  set_disk fi d1 s = Ok tt s1 ->
  set_disk fi d2 s1 = Ok tt s1.
Proof.
  intros Hwf Hn Hne Hq Hset. unfold set_disk, disk_args, disk, _get_component in *.
  rewrite <- Hq. destruct (py_int_div_1024 d1) as [g|] eqn:Hg; [|done]. rewrite Hn in *.
  unfold bind in Hset. unfold query_component at 1 in Hset.
  destruct (bool_decide _) eqn:Hcur in Hset.
  - exfalso. apply Hne. apply bool_decide_eq_true in Hcur.
    unfold query_component. by rewrite Hcur.
  - destruct (set_component_spec (disk_dict d1 g) (disk_name g) ComponentType.disk
                (disk_args_ok d1 g Hg) fi s Hwf) as (s' & m & c & Hsc & Hwf' & Hin & Hnm & Ht & Hcm & _).
    rewrite Hsc in Hset. injection Hset as <-.
    unfold bind. rewrite (query_component_single s' _ _ _ c m Ht Hcm).
    destruct (bool_decide (Some (model_value m FSize) = Some (VInt d2))); [done|].
    assert (Hc : In c (typed_components s' (fi_pk fi) (VType ComponentType.disk)))
      by (rewrite Ht; by left).
    apply filter_In in Hc as [Hc Hty]. unfold is_typed in Hty.
    apply andb_true_iff in Hty as [Hb%Nat.eqb_eq _].
    apply (set_component_existing fi (disk_dict d2 g) (disk_name g) s' m c); try done.
    + symmetry. by apply (component_model_some s' c m).
Qed.

(** The store after [flavor.disk = 1024] on the example. *)
Definition store_disk_1024 : Store := final (set_disk example_flavor 1024 example_store).

Lemma set_disk_same_gib_ignored_witness :
  set_disk example_flavor 1500 store_disk_1024 = Ok tt store_disk_1024 /\
  disk example_flavor store_disk_1024 = Ok (Some (VInt 1024)) store_disk_1024.
Proof.
  split; [|vm_compute; reflexivity].
  apply (set_disk_same_gib_ignored example_store example_flavor 1024 1500);
    [apply example_store_wf|reflexivity|vm_compute; discriminate|reflexivity|vm_compute; reflexivity].
Defined.

(** C5: after [cores] is set, the flavor has exactly one processor
    component, and the components of every other (object, type) pair are
    those it had before. *)
Theorem set_cores_single_processor s fi n :
  flavor_wf s -> fi_prefetched fi = None ->
  exists s' c, set_cores fi n s = Ok tt s' /\
    typed_components s' (fi_pk fi) (VType ComponentType.processor) = [c] /\
    (forall b t, ~ (b = fi_pk fi /\ t = VType ComponentType.processor) ->
       typed_components s' b t = typed_components s b t).
Proof.
  intros Hwf Hn.
  destruct (setter_spec ComponentType.processor FCores (cpu_args n) (cpu_name n) (VInt n)
              (fun _ => True) s fi (cpu_args_ok n) I)
    as (s' & w & c & Hset & _ & _ & _ & Ht & Hframe); [done|done|done|].
  by exists s', c.
Qed.

Lemma set_cores_single_processor_witness :
  exists s' c, set_cores example_flavor 2 example_store = Ok tt s' /\
    typed_components s' 1 (VType ComponentType.processor) = [c] /\
    (forall b t, ~ (b = 1 /\ t = VType ComponentType.processor) ->
       typed_components s' b t = typed_components example_store b t).
Proof. apply (set_cores_single_processor example_store example_flavor 2); [apply example_store_wf|reflexivity]. Defined.

(** The setter shape preserves the invariant whatever the instance's
    cache holds: the getter only reads, and [_set_component] keeps it. *)
Lemma setter_shape_preserves fi t f args nm (ty : ComponentType) v :
  args_ok args nm ty ->
  preserves flavor_wf
    (cur <- _get_component fi t f ;;
     if bool_decide (cur = Some v) then ret tt else _set_component fi args).
Proof.
  intros Hargs s Hwf. pose proof (get_component_pure fi t f s) as Hp. unfold bind.
  destruct (_get_component fi t f s) as [a s0|e s0]; simpl in Hp; subst s0; [|done].
  case_bool_decide; [done|].
  destruct (set_component_spec args nm ty Hargs fi s Hwf) as (s' & _ & _ & Hset & Hwf' & _).
  by rewrite Hset.
Qed.

Lemma set_disk_preserves fi n : preserves flavor_wf (set_disk fi n).
Proof.
  unfold set_disk, disk_args. destruct (py_int_div_1024 n) as [g|] eqn:Hg; [|apply preserves_raise].
  exact (setter_shape_preserves fi _ _ _ _ _ _ (disk_args_ok n g Hg)).
Qed.

(** C6: each of the three setters, on any flavor instance (with or
    without a prefetch cache, fresh or stale), keeps the store invariant,
    whether it returns or raises. *)
Theorem flavor_setters_preserve_wf fi n :
  preserves flavor_wf (set_cores fi n) /\ preserves flavor_wf (set_memory fi n) /\
  preserves flavor_wf (set_disk fi n).
Proof.
  split; [|split].
  - exact (setter_shape_preserves fi _ _ _ _ _ _ (cpu_args_ok n)).
  - exact (setter_shape_preserves fi _ _ _ _ _ _ (ram_args_ok n)).
  - apply set_disk_preserves.
Qed.

(** A cache is fresh when it holds the flavor's components as the store
    has them now. *)
Definition cache_fresh (fi : FlavorInstance) (s : Store) : Prop :=
  fi_prefetched fi =
  Some (List.filter (fun c => Nat.eqb (vc_base_object c) (fi_pk fi)) (st_components s)).

(** C7: on a fresh prefetch cache, [_get_component]'s loop over the cache
    returns what the SQL query returns, for every type and field. *)
Theorem get_component_prefetch_equiv s fi t f :
  flavor_wf s -> cache_fresh fi s ->
  _get_component fi t f s = query_component (fi_pk fi) t f s.
Proof.
  intros Hwf Hc. unfold _get_component. rewrite Hc.
  rewrite scan_cache_query by apply Hwf. reflexivity.
Qed.

(** The example flavor with 4 cores, and the same flavor fetched with
    [prefetch_related('virtualcomponent')]. *)
Definition store_cores_4 : Store := final (set_cores example_flavor 4 example_store).

Definition prefetched_flavor (s : Store) : FlavorInstance :=
  mkFlavorInstance 1 (Some (List.filter (fun c => Nat.eqb (vc_base_object c) 1) (st_components s))).

Lemma store_cores_4_wf : flavor_wf store_cores_4.
Proof.
  unfold store_cores_4.
  apply (setter_shape_preserves example_flavor _ _ _ _ _ _ (cpu_args_ok 4)).
  apply example_store_wf.
Qed.

Lemma get_component_prefetch_equiv_witness :
  _get_component (prefetched_flavor store_cores_4) ComponentType.processor FCores store_cores_4 =
  query_component 1 ComponentType.processor FCores store_cores_4.
Proof.
  apply (get_component_prefetch_equiv store_cores_4 (prefetched_flavor store_cores_4));
    [apply store_cores_4_wf|reflexivity].
Defined.

(** C8 (the cache is never refreshed): on a flavor instance with a
    prefetch cache, whatever the cache holds, whose [cores] reads [m],
    [cores = n] for another [n] succeeds and the store now gives the
    flavor a processor with [n] cores (a fresh instance reads [n]), but
    the same instance still reads [m]; and assigning [m] back on it is
    skipped, so the store keeps [n]. *)
Theorem prefetched_cores_stale s fi cs m n :
  flavor_wf s -> fi_prefetched fi = Some cs -> cores fi s = Ok (Some (VInt m)) s -> n <> m ->
  exists s', set_cores fi n s = Ok tt s' /\
    cores (mkFlavorInstance (fi_pk fi) None) s' = Ok (Some (VInt n)) s' /\
    cores fi s' = Ok (Some (VInt m)) s' /\
    set_cores fi m s' = Ok tt s'.
Proof.
  intros Hwf Hcs Hm Hnm.
  destruct (set_component_spec (cpu_args n) (cpu_name n) ComponentType.processor (cpu_args_ok n) fi s Hwf)
    as (s' & mo & c & Hset & Hwf' & Hin & Hname & Ht & Hcm & _ & l & Hl).
  assert (Hm' : cores fi s' = Ok (Some (VInt m)) s').
  { unfold cores, _get_component in *. rewrite Hcs in *. by apply (scan_cache_extend s s' l). }
  exists s'. split_and!.
  - unfold set_cores. unfold bind at 1. rewrite Hm, bool_decide_eq_false_2 by congruence. exact Hset.
  - unfold cores, _get_component. cbn [fi_prefetched fi_pk]. rewrite (query_component_single s' _ _ _ c mo Ht Hcm).
    do 3 f_equal. eapply List.Forall_forall in Hin; [|apply (wf_catalog _ Hwf')].
    destruct Hin as [Hc _]. destruct (Hc n Hname) as [_ <-]. reflexivity.
  - exact Hm'.
  - unfold set_cores, bind. by rewrite Hm', bool_decide_eq_true_2.
Qed.

Lemma prefetched_cores_stale_witness :
  flavor_wf store_cores_4 /\
  cores (prefetched_flavor store_cores_4) store_cores_4 = Ok (Some (VInt 4)) store_cores_4 /\
  exists s', set_cores (prefetched_flavor store_cores_4) 8 store_cores_4 = Ok tt s' /\
    cores (mkFlavorInstance 1 None) s' = Ok (Some (VInt 8)) s' /\
    cores (prefetched_flavor store_cores_4) s' = Ok (Some (VInt 4)) s' /\
    set_cores (prefetched_flavor store_cores_4) 4 s' = Ok tt s'.
Proof.
  assert (H4 : cores (prefetched_flavor store_cores_4) store_cores_4 = Ok (Some (VInt 4)) store_cores_4)
    by (vm_compute; reflexivity).
  split; [apply store_cores_4_wf|split; [exact H4|]].
  apply (prefetched_cores_stale store_cores_4 (prefetched_flavor store_cores_4)
     (List.filter (fun c => Nat.eqb (vc_base_object c) 1) (st_components store_cores_4)) 4 8);
    [apply store_cores_4_wf|reflexivity|exact H4|lia].
Defined.

(** C21: a disk size whose quotient by 1024 does not fit a double makes
    building the [disk] dictionary raise [OverflowError], before the
    getter runs: the setter raises and the store is unchanged. *)
Theorem set_disk_overflow fi n s :
  (2 ^ 1034 <= Z.abs n)%Z -> set_disk fi n s = Raise OverflowError s.
Proof. intros H. unfold set_disk, disk_args. by rewrite py_int_div_1024_overflow. Qed.

Lemma set_disk_overflow_witness :
  set_disk example_flavor (2 ^ 1034) example_store = Raise OverflowError example_store.
Proof. apply set_disk_overflow. by vm_compute. Defined.
