(* ===== verification/Host.v ===== *)
(** * [CloudHost]: save, [ip_addresses] and [cloudproject]

    models.py lines 135-193.  [CloudHost.save] copies the parent's
    [service_env] before saving and skips the copy when there is no
    parent ([AttributeError] on [None.service_env]).  The [ip_addresses]
    property reads the addresses of the [IPAddress] rows the host owns; its
    setter claims each requested address that is free or new, logs a
    warning for each one another object owns, and releases the addresses
    no longer requested.  The invariant [ip_wf] is that addresses and
    keys of the [IPAddress] table are unique; under it the setter never
    raises and its effect on ownership is the function [ip_target]. *)

From S2P Require Import Prelude Orm Format.

(** ** [CloudHost.save] (lines 136-141) *)

(** [except AttributeError]. *)
Definition is_attribute_error (e : Exc) : bool :=
  match e with AttributeError => true | _ => false end.

(** [self.parent]: [None] when the foreign key is empty, so that any
    attribute access on it raises [AttributeError]; a query otherwise. *)
Definition parent_of (self : BaseObject) : M Store BaseObject :=
  match bo_parent self with
  | None => raise AttributeError
  | Some id => get_object id
  end.

Definition with_service_env (o : BaseObject) (e : option nat) : BaseObject :=
  mkBaseObject (bo_pk o) (bo_kind o) (bo_parent o) e.

(** The body of [CloudHost.save], given how [self.parent] is read (a
    query, or Django's cached related object) and what [super().save()]
    does ([Model.save]: the row, then the [post_save] signal). *)
Definition cloudhost_save_with (parent : M Store BaseObject)
    (super_save : BaseObject -> M Store BaseObject) (self : BaseObject) : M Store BaseObject :=
  self' <- try_except
             (p <- parent ;; ret (with_service_env self (bo_service_env p)))
             is_attribute_error
             (fun _ => ret self) ;;
  super_save self'.

(** [host.save()] on an instance whose parent is read from the database,
    with no [post_save] receiver for [CloudHost] in this repository. *)
Definition cloudhost_save (self : BaseObject) : M Store BaseObject :=
  cloudhost_save_with (parent_of self) save_object self.

(** ** [ip_addresses] (lines 159-185) *)

Definition owned_by (self : nat) (ip : IPAddress) : bool :=
  bool_decide (ip_base_object ip = Some self).

(** [[ip.address for ip in self.ipaddress_set.all()]]. *)
Definition host_addresses (self : nat) (s : Store) : list string :=
  List.map ip_address (List.filter (owned_by self) (st_ips s)).

Definition ip_addresses (self : nat) : M Store (list string) :=
  fun s => Ok (host_addresses self s) s.

(** [set(a) == set(b)]. *)
Definition py_set_eqb (a b : list string) : bool :=
  forallb (fun x => bool_decide (x ∈ b)) a && forallb (fun x => bool_decide (x ∈ a)) b.

(** The elements of [set(a) - set(b)], each once. *)
Definition py_set_difference (a b : list string) : list string :=
  remove_dups (list_difference a b).

(** Lines 168-180: one requested address. *)
Definition claim_ip (self : nat) (host_name : string) (ip : string) : M Store unit :=
  try_except
    (new_ip <- objects_get (fun r => bool_decide (ip_address r = ip)) ;;
     match ip_base_object new_ip with
     | None => save_row (mkIPAddress (ip_id new_ip) (ip_address new_ip) (Some self))
     | Some _ => log_warning (ip_in_use_warning ip host_name)
     end)
    is_object_does_not_exist
    (fun _ => create (fun id => mkIPAddress id ip (Some self)) ;;; ret tt).

(** Lines 183-185: one address no longer requested. *)
Definition release_ip (self : nat) (ip : string) : M Store unit :=
  release <- objects_get (fun r => bool_decide (ip_base_object r = Some self /\ ip_address r = ip)) ;;
  save_row (mkIPAddress (ip_id release) (ip_address release) None).

(** The setter; [self.ip_addresses] is read afresh at each of its three
    uses, as the property is recomputed. *)
Definition set_ip_addresses (self : nat) (host_name : string) (value : list string)
    : M Store unit :=
  cur <- ip_addresses self ;;
  if py_set_eqb cur value then ret tt else
  cur1 <- ip_addresses self ;;
  for_each (py_set_difference value cur1) (claim_ip self host_name) ;;;
  cur2 <- ip_addresses self ;;
  for_each (py_set_difference cur2 value) (release_ip self).

(** ** [cloudproject] (lines 187-193) *)

(** [self.parent.cloudproject]: the reverse one-to-one accessor raises
    [RelatedObjectDoesNotExist], an [AttributeError], when the parent is
    not a [CloudProject]. *)
Definition cloudproject (self : BaseObject) : M Store (option BaseObject) :=
  try_except
    (p <- parent_of self ;;
     match bo_kind p with
     | KCloudProject _ => ret (Some p)
     | _ => raise AttributeError
     end)
    is_attribute_error
    (fun _ => ret None).

(** ** Ownership of addresses *)

(** Who owns address [a]: [None] if no row has it, [Some None] if its row
    is free, [Some (Some o)] if object [o] owns it. *)
Definition owner (s : Store) (a : string) : option (option nat) :=
  ip_base_object <$> List.find (fun r => bool_decide (ip_address r = a)) (st_ips s).

(** Keys and addresses of the [IPAddress] table are unique. *)
Record ip_wf (s : Store) : Prop := {
  ipwf_keys : @keys_ok IPAddress _ s;
  ipwf_addresses : NoDup (map ip_address (st_ips s));
}.

(** What claiming an address does to its owner. *)
Definition claim_owner (self : nat) (o : option (option nat)) : option (option nat) :=
  match o with
  | None | Some None => Some (Some self)
  | Some (Some x) => Some (Some x)
  end.

(** The warning a claim logs, if any. *)
Definition claim_log (host_name : string) (o : option (option nat)) (a : string) : list string :=
  match o with Some (Some _) => [ip_in_use_warning a host_name] | _ => [] end.

(** The ownership [ip_addresses = value] aims at: requested addresses
    that are free or new become the host's, requested addresses another
    object owns stay with it, the host's other addresses become free. *)
Definition ip_target (self : nat) (value : list string) (o : string -> option (option nat))
    (a : string) : option (option nat) :=
  if bool_decide (a ∈ value) then claim_owner self (o a)
  else match o a with
       | Some (Some x) => if bool_decide (x = self) then Some None else Some (Some x)
       | Some None => Some None
       | None => None
       end.

Lemma owner_in s r :
  ip_wf s -> In r (st_ips s) -> owner s (ip_address r) = Some (ip_base_object r).
Proof.
  intros Hwf Hin. unfold owner.
  by rewrite (find_unique_key_dec ip_address); [|apply Hwf|].
Qed.

Lemma owner_some s a o :
  owner s a = Some o -> exists r, In r (st_ips s) /\ ip_address r = a /\ ip_base_object r = o.
Proof.
  unfold owner. destruct (List.find _ _) as [r|] eqn:Hf; simpl; [|done].
  intros [= <-]. apply find_some in Hf as [Hin Ha%bool_decide_eq_true]. eauto.
Qed.

Lemma owner_none s a :
  (forall r, In r (st_ips s) -> ip_address r <> a) -> owner s a = None.
Proof.
  intros H. unfold owner. destruct (List.find _ _) as [r|] eqn:Hf; [|done].
  apply find_some in Hf as [Hin Ha%bool_decide_eq_true]. by destruct (H r Hin).
Qed.

(** [x in self.ip_addresses] is ownership by the host. *)
Lemma ip_addresses_owner s self a :
  ip_wf s -> a ∈ host_addresses self s <-> owner s a = Some (Some self).
Proof.
  intros Hwf. unfold host_addresses. rewrite list_elem_of_In, in_map_iff. split.
  - intros (r & <- & (Hin & Ho%bool_decide_eq_true)%filter_In). rewrite <- Ho. by apply owner_in.
  - intros (r & Hin & <- & Ho)%owner_some. exists r. split; [done|].
    apply filter_In. split; [done|]. by apply bool_decide_eq_true.
Qed.

(** Saving a row with its own key and address changes only that
    address's owner. *)
Lemma save_ip_keep_address s r b' :
  ip_wf s -> In r (st_ips s) ->
  exists s', save_row (mkIPAddress (ip_id r) (ip_address r) b') s = Ok tt s' /\
    ip_wf s' /\ st_log s' = st_log s /\
    forall a, owner s' a = if bool_decide (a = ip_address r) then Some b' else owner s a.
Proof.
  intros Hwf Hin. set (r' := mkIPAddress (ip_id r) (ip_address r) b').
  assert (Hex : existsb (fun x => Nat.eqb (row_pk x) (row_pk r')) (tbl_get s) = true).
  { apply existsb_exists. exists r. split; [done|]. apply Nat.eqb_refl. }
  assert (Hsame : forall x, In x (st_ips s) -> ip_id x = ip_id r -> x = r).
  { intros x Hx Hid. apply (NoDup_map_eq_in ip_id (st_ips s)); try done. apply Hwf. }
  rewrite save_row_update by exact Hex.
  eexists. split; [reflexivity|]. split; [|split; [done|]].
  - split.
    + apply keys_ok_replace; [apply Hwf|]. by exists r.
    + cbn [tbl_get tbl_set Table_ips set_ips st_ips].
      rewrite (replace_row_map_eq ip_address); [apply Hwf|].
      intros x Hx Hid. by rewrite (Hsame x Hx Hid).
  - intros a. unfold owner. cbn [tbl_get tbl_set Table_ips set_ips st_ips]. unfold replace_row.
    cbn [row_pk Table_ips r' ip_id]. rewrite find_map_same.
    + case_bool_decide as Ha.
      * subst a. by rewrite (find_unique_key_dec ip_address); [simpl; rewrite Nat.eqb_refl| |];
          [|apply Hwf|].
      * destruct (List.find _ (st_ips s)) as [x|] eqn:Hf; [|done]. simpl.
        apply find_some in Hf as [Hx Hxa%bool_decide_eq_true].
        destruct (Nat.eqb_spec (ip_id x) (ip_id r)) as [Hid|]; [|done].
        rewrite (Hsame x Hx Hid) in Hxa. by destruct Ha.
    + intros x Hx. destruct (Nat.eqb_spec (ip_id x) (ip_id r)) as [Hid|]; [|done].
      by rewrite (Hsame x Hx Hid).
Qed.

Lemma filter_address_le1 s a :
  ip_wf s -> length (List.filter (fun r => bool_decide (ip_address r = a)) (st_ips s)) <= 1.
Proof. intros Hwf. apply filter_unique_key_le1, Hwf. Qed.

(** Lines 168-180 for one address [a]: the owner of [a] becomes
    [claim_owner self (owner s a)], a warning is logged iff another object
    owns it, nothing else changes, and nothing is raised. *)
Lemma claim_ip_spec self h a s :
  ip_wf s ->
  exists s', claim_ip self h a s = Ok tt s' /\ ip_wf s' /\
    st_log s' = st_log s ++ claim_log h (owner s a) a /\
    forall b, owner s' b = if bool_decide (b = a) then claim_owner self (owner s a) else owner s b.
Proof.
  intros Hwf. pose proof (filter_address_le1 s a Hwf) as Hle.
  unfold claim_ip, try_except, bind.
  rewrite (objects_get_single (R:=IPAddress)) by exact Hle. cbn [tbl_get Table_ips].
  destruct (List.filter _ (st_ips s)) as [|r [|r' l]] eqn:Hf; simpl in Hle |- *; [| |lia].
  - assert (Hno : forall r, In r (st_ips s) -> ip_address r <> a).
    { intros r Hr Hra. assert (Hin : In r (List.filter (fun r => bool_decide (ip_address r = a)) (st_ips s)))
        by (apply filter_In; split; [done|by apply bool_decide_eq_true]).
      by rewrite Hf in Hin. }
    assert (Hfind : List.find (fun r => bool_decide (ip_address r = a)) (st_ips s) = None).
    { apply find_none_all. intros r Hr. apply bool_decide_eq_false. by apply Hno. }
    pose proof (owner_none s a Hno) as Hnone. rewrite Hnone.
    eexists. split; [reflexivity|]. split; [|split].
    + split.
      * exact (create_fresh (R:=IPAddress) (fun id => mkIPAddress id a (Some self)) s eq_refl (ipwf_keys _ Hwf)).
      * simpl. rewrite map_app. apply NoDup_app. split; [apply Hwf|]. split; [|apply NoDup_singleton].
        intros x Hx. simpl. rewrite list_elem_of_singleton. intros ->.
        apply list_elem_of_In, in_map_iff in Hx as (y & Hy & Hin). by apply (Hno y).
    + simpl. by rewrite app_nil_r.
    + intros b. unfold owner at 1. cbn [st_ips set_ips tbl_set tbl_get Table_ips set_next].
      case_bool_decide as Hb.
      * subst b. rewrite (find_app_none _ _ [_] Hfind). simpl. by rewrite bool_decide_eq_true_2.
      * unfold owner.
        destruct (List.find (fun r => bool_decide (ip_address r = b)) (st_ips s)) eqn:Hfb.
        -- by rewrite (find_app_some _ _ _ _ Hfb).
        -- rewrite (find_app_none _ _ [_] Hfb). simpl. by rewrite bool_decide_eq_false_2.
  - assert (Hr : In r (List.filter (fun r => bool_decide (ip_address r = a)) (st_ips s)))
      by (rewrite Hf; by left).
    apply filter_In in Hr as [Hin <-%bool_decide_eq_true].
    rewrite (owner_in s r Hwf Hin).
    destruct (ip_base_object r) as [o|] eqn:Hb.
    + eexists. split; [reflexivity|]. split; [by destruct Hwf|]. split; [done|].
      intros b. transitivity (owner s b); [reflexivity|].
      case_bool_decide; [subst b; by rewrite owner_in, Hb|done].
    + destruct (save_ip_keep_address s r (Some self) Hwf Hin) as (s' & Hs & Hwf' & Hlog & Ho).
      rewrite Hs. exists s'. split; [done|]. split; [done|]. split; [by rewrite Hlog, app_nil_r|].
      intros b. rewrite Ho. by case_bool_decide.
Qed.

(** Lines 183-185 for an address [a] the host owns: it becomes free. *)
Lemma release_ip_spec self a s :
  ip_wf s -> owner s a = Some (Some self) ->
  exists s', release_ip self a s = Ok tt s' /\ ip_wf s' /\ st_log s' = st_log s /\
    forall b, owner s' b = if bool_decide (b = a) then Some None else owner s b.
Proof.
  intros Hwf Ho. destruct (owner_some _ _ _ Ho) as (r & Hin & <- & Hb).
  unfold release_ip, bind, objects_get. cbn [tbl_get Table_ips].
  rewrite (filter_singleton_of_le1 _ _ r); [| |done|by apply bool_decide_eq_true].
  - destruct (save_ip_keep_address s r None Hwf Hin) as (s' & Hs & Hwf' & Hlog & Ho').
    rewrite Hs. by exists s'.
  - etransitivity; [|apply (filter_address_le1 s (ip_address r) Hwf)].
    apply filter_length_mono. intros x [_ ?]%bool_decide_eq_true. by apply bool_decide_eq_true.
Qed.

(** ** The two loops of the setter *)

Lemma claim_loop_spec self h l s :
  ip_wf s -> NoDup l ->
  exists s', for_each l (claim_ip self h) s = Ok tt s' /\ ip_wf s' /\
    st_log s' = st_log s ++ flat_map (fun a => claim_log h (owner s a) a) l /\
    forall b, owner s' b = if bool_decide (b ∈ l) then claim_owner self (owner s b) else owner s b.
Proof.
  revert s. induction l as [|a l IH]; intros s Hwf Hnd.
  - exists s. simpl. rewrite app_nil_r. do 3 (split; [done|]). intros b.
    repeat case_bool_decide; try done; set_solver.
  - inversion Hnd as [|? ? Hnin Hnd']; subst.
    assert (Ha : a ∉ l) by (intros Hin; apply Hnin; try apply list_elem_of_In; done).
    destruct (claim_ip_spec self h a s Hwf) as (s1 & Hc & Hwf1 & Hlog1 & Ho1).
    destruct (IH s1 Hwf1 Hnd') as (s2 & Hl & Hwf2 & Hlog2 & Ho2).
    exists s2. simpl. unfold bind. rewrite Hc. split; [exact Hl|]. split; [done|]. split.
    + rewrite Hlog2, Hlog1, <- app_assoc. do 2 f_equal.
      apply flat_map_ext_in. intros x Hx. rewrite Ho1, bool_decide_eq_false_2; [done|].
      intros ->. by apply Ha, list_elem_of_In.
    + intros b. rewrite Ho2, !Ho1. repeat case_bool_decide; subst; try done; set_solver.
Qed.

Lemma release_loop_spec self l s :
  ip_wf s -> NoDup l -> (forall a, a ∈ l -> owner s a = Some (Some self)) ->
  exists s', for_each l (release_ip self) s = Ok tt s' /\ ip_wf s' /\ st_log s' = st_log s /\
    forall b, owner s' b = if bool_decide (b ∈ l) then Some None else owner s b.
Proof.
  revert s. induction l as [|a l IH]; intros s Hwf Hnd Hown.
  - exists s. do 3 (split; [done|]). intros b.
    repeat case_bool_decide; try done; set_solver.
  - inversion Hnd as [|? ? Hnin Hnd']; subst.
    assert (Ha : a ∉ l) by (intros Hin; apply Hnin; try apply list_elem_of_In; done).
    destruct (release_ip_spec self a s Hwf) as (s1 & Hr & Hwf1 & Hlog1 & Ho1);
      [apply Hown; set_solver|].
    destruct (IH s1 Hwf1 Hnd') as (s2 & Hl & Hwf2 & Hlog2 & Ho2).
    { intros x Hx. rewrite Ho1, bool_decide_eq_false_2 by set_solver. apply Hown. set_solver. }
    exists s2. simpl. unfold bind. rewrite Hr. split; [exact Hl|]. split; [done|].
    split; [congruence|].
    intros b. rewrite Ho2, !Ho1. repeat case_bool_decide; subst; try done; set_solver.
Qed.

Lemma py_set_eqb_spec a b : py_set_eqb a b = true <-> forall x, x ∈ a <-> x ∈ b.
Proof.
  unfold py_set_eqb. rewrite andb_true_iff, !forallb_forall. split.
  - intros [H1 H2] x. split; intros Hx.
    + apply (bool_decide_eq_true_1 (x ∈ b)), H1, list_elem_of_In, Hx.
    + apply (bool_decide_eq_true_1 (x ∈ a)), H2, list_elem_of_In, Hx.
  - intros H. split; intros x Hx%list_elem_of_In; apply bool_decide_eq_true_2, H, Hx.
Qed.

Lemma elem_of_py_set_difference x a b :
  x ∈ py_set_difference a b <-> x ∈ a /\ x ∉ b.
Proof. unfold py_set_difference. by rewrite elem_of_remove_dups, list_elem_of_difference. Qed.

(** [set(a) == set(b)] as a relation: Python sets of the two lists are
    equal. *)
Definition same_elements (a b : list string) : Prop := forall x, x ∈ a <-> x ∈ b.

#[export] Instance same_elements_equiv : Equivalence same_elements.
Proof. split; intros a; unfold same_elements; firstorder. Qed.

#[export] Instance py_set_eqb_proper : Proper (same_elements ==> same_elements ==> eq) py_set_eqb.
Proof.
  intros a1 a2 Ha b1 b2 Hb. apply eq_bool_prop_intro. rewrite !Is_true_true, !py_set_eqb_spec.
  split; intros H x; [rewrite <- (Ha x), <- (Hb x)|rewrite (Ha x), (Hb x)]; apply H.
Qed.

(** [set(a) - set(b)] lists the same addresses, each once, whatever
    lists stand for the two sets: the results are permutations. *)
#[export] Instance py_set_difference_proper :
  Proper (same_elements ==> same_elements ==> Permutation) py_set_difference.
Proof.
  intros a1 a2 Ha b1 b2 Hb. apply NoDup_Permutation; [apply NoDup_remove_dups..|].
  intros x. by rewrite !elem_of_py_set_difference, (Ha x), (Hb x).
Qed.

#[export] Instance ip_target_proper self :
  Proper (same_elements ==> eq ==> eq ==> eq) (ip_target self).
Proof.
  intros v1 v2 Hv o ? <- a ? <-. unfold ip_target. by rewrite (bool_decide_ext _ _ (Hv a)).
Qed.

(** The case analysis behind the setter: the two loops together give
    [ip_target] on each address. *)
Lemma ip_target_of_loops self (o o1 o2 : option (option nat)) (in1 in2 inv : Prop)
    `{Decision in1, Decision in2, Decision inv} :
  (in1 <-> inv /\ o <> Some (Some self)) ->
  o1 = (if bool_decide in1 then claim_owner self o else o) ->
  (in2 <-> o1 = Some (Some self) /\ ~ inv) ->
  o2 = (if bool_decide in2 then Some None else o1) ->
  o2 = (if bool_decide inv then claim_owner self o
        else match o with
             | Some (Some x) => if bool_decide (x = self) then Some None else Some (Some x)
             | Some None => Some None
             | None => None
             end).
Proof.
  intros Hin1 -> Hin2 ->.
  destruct o as [[x|]|]; repeat case_bool_decide; subst; simpl in *; naive_solver.
Qed.

Lemma py_set_difference_nil a b :
  (forall x, x ∈ a -> x ∈ b) -> py_set_difference a b = [].
Proof.
  intros H. apply elem_of_nil_inv. intros x Hx%elem_of_py_set_difference.
  destruct Hx as [Ha Hb]. by apply Hb, H.
Qed.

(** The setter on a store with unique addresses: it raises nothing,
    keeps the addresses unique, logs one warning per requested address
    (not yet the host's) that another object owns, and moves ownership to
    [ip_target]. *)
Lemma set_ip_addresses_spec self h value s :
  ip_wf s ->
  exists s', set_ip_addresses self h value s = Ok tt s' /\ ip_wf s' /\
    st_log s' = st_log s ++ flat_map (fun a => claim_log h (owner s a) a)
                                     (py_set_difference value (host_addresses self s)) /\
    forall a, owner s' a = ip_target self value (owner s) a.
Proof.
  intros Hwf. unfold set_ip_addresses, bind, ip_addresses. cbv beta iota.
  destruct (py_set_eqb (host_addresses self s) value) eqn:Heq.
  - pose proof (proj1 (py_set_eqb_spec _ _) Heq) as Hset. clear Heq.
    exists s. split; [done|]. split; [done|]. split.
    + rewrite py_set_difference_nil; [by rewrite app_nil_r|]. intros x. apply Hset.
    + intros a. unfold ip_target.
      apply (ip_target_of_loops self (owner s a) (owner s a) (owner s a) False False (a ∈ value));
        [|reflexivity| |reflexivity];
        rewrite <- ip_addresses_owner, Hset by done; tauto.
  - destruct (claim_loop_spec self h (py_set_difference value (host_addresses self s)) s Hwf
                (NoDup_remove_dups _)) as (s1 & Hc & Hwf1 & Hlog1 & Ho1).
    rewrite Hc.
    destruct (release_loop_spec self (py_set_difference (host_addresses self s1) value) s1 Hwf1
                (NoDup_remove_dups _)) as (s2 & Hr & Hwf2 & Hlog2 & Ho2).
    { intros x [Hx _]%elem_of_py_set_difference. by apply ip_addresses_owner. }
    rewrite Hr. exists s2. split; [done|]. split; [done|]. split; [congruence|].
    intros a. unfold ip_target.
    apply (ip_target_of_loops self (owner s a) (owner s1 a) (owner s2 a)
             (a ∈ py_set_difference value (host_addresses self s))
             (a ∈ py_set_difference (host_addresses self s1) value) (a ∈ value));
      [| apply Ho1 | | apply Ho2];
      rewrite elem_of_py_set_difference, ip_addresses_owner by done; tauto.
Qed.

Lemma ip_target_self self value o a :
  ip_target self value o a = Some (Some self) <->
  a ∈ value /\ forall x, o a = Some (Some x) -> x = self.
Proof.
  unfold ip_target. destruct (o a) as [[x|]|]; repeat case_bool_decide; simpl; naive_solver.
Qed.

(** An example store: host 1 owns 10.0.0.9, object 7 owns 10.0.0.1,
    10.0.0.2 is free. *)
Definition example_ip_store : Store :=
  mkStore 20 [] [] [] []
    [mkIPAddress 3 "10.0.0.1" (Some 7); mkIPAddress 4 "10.0.0.2" None;
     mkIPAddress 5 "10.0.0.9" (Some 1)] [].

Lemma example_ip_store_wf : ip_wf example_ip_store.
Proof. split; [split|]; repeat constructor; simpl; try set_solver; lia. Qed.

(** C9: on a store whose IP addresses are unique, [host.ip_addresses =
    value] raises nothing, keeps addresses unique, and leaves every
    address owned as [ip_target] says: a requested address that was new or
    free (or already the host's) is the host's, a requested address
    another object owns stays with that object, an address of the host
    that is no longer requested becomes free, and no other address
    changes owner. *)
Theorem set_ip_addresses_ownership self h value s :
  ip_wf s ->
  exists s', set_ip_addresses self h value s = Ok tt s' /\ ip_wf s' /\
    forall a, owner s' a = ip_target self value (owner s) a.
Proof.
  intros Hwf. destruct (set_ip_addresses_spec self h value s Hwf) as (s' & ? & ? & _ & ?).
  by exists s'.
Qed.

Lemma set_ip_addresses_ownership_witness :
  exists s', set_ip_addresses 1 "h1" ["10.0.0.1"; "10.0.0.2"; "10.0.0.3"] example_ip_store = Ok tt s' /\
    ip_wf s' /\ forall a, owner s' a = ip_target 1 ["10.0.0.1"; "10.0.0.2"; "10.0.0.3"] (owner example_ip_store) a.
Proof. apply set_ip_addresses_ownership. apply example_ip_store_wf. Defined.

(** C10: a requested address owned by another object is not an error:
    the setter logs exactly one warning ['Cannot assign IP ... already in
    use'] per such address among those the host does not own yet, logs
    nothing else, and that object keeps the address. *)
Theorem set_ip_addresses_conflicts_logged self h value s :
  ip_wf s ->
  exists s', set_ip_addresses self h value s = Ok tt s' /\
    st_log s' = st_log s ++ flat_map (fun a => claim_log h (owner s a) a)
                                     (py_set_difference value (host_addresses self s)) /\
    forall a o, owner s a = Some (Some o) -> o <> self -> owner s' a = Some (Some o).
Proof.
  intros Hwf. destruct (set_ip_addresses_spec self h value s Hwf) as (s' & Hs & _ & Hlog & Ho).
  exists s'. split; [done|]. split; [done|]. intros a o Hoa Hne. rewrite Ho. unfold ip_target.
  rewrite Hoa. case_bool_decide; [done|]. by rewrite bool_decide_eq_false_2.
Qed.

Lemma set_ip_addresses_conflicts_logged_witness :
  exists s', set_ip_addresses 1 "h1" ["10.0.0.1"] example_ip_store = Ok tt s' /\
    st_log s' = st_log example_ip_store ++
      flat_map (fun a => claim_log "h1" (owner example_ip_store a) a)
        (py_set_difference ["10.0.0.1"] (host_addresses 1 example_ip_store)) /\
    forall a o, owner example_ip_store a = Some (Some o) -> o <> 1 -> owner s' a = Some (Some o).
Proof. apply set_ip_addresses_conflicts_logged. apply example_ip_store_wf. Defined.

(** C11: reading [ip_addresses] after the setter gives exactly the
    requested addresses that no other object owned. *)
Theorem set_then_get_ip_addresses self h value s :
  ip_wf s ->
  exists s' l, set_ip_addresses self h value s = Ok tt s' /\ ip_addresses self s' = Ok l s' /\
    forall a, a ∈ l <-> a ∈ value /\ forall o, owner s a = Some (Some o) -> o = self.
Proof.
  intros Hwf. destruct (set_ip_addresses_spec self h value s Hwf) as (s' & Hs & Hwf' & _ & Ho).
  exists s', (host_addresses self s'). split; [done|]. split; [done|].
  intros a. by rewrite ip_addresses_owner, Ho, ip_target_self.
Qed.

Lemma set_then_get_ip_addresses_witness :
  exists s' l, set_ip_addresses 1 "h1" ["10.0.0.1"; "10.0.0.2"] example_ip_store = Ok tt s' /\
    ip_addresses 1 s' = Ok l s' /\
    forall a, a ∈ l <-> a ∈ ["10.0.0.1"; "10.0.0.2"] /\
                        forall o, owner example_ip_store a = Some (Some o) -> o = 1.
Proof. apply set_then_get_ip_addresses. apply example_ip_store_wf. Defined.

(** ** [save] and [cloudproject] *)

(** C12: saving a host whose parent exists stores the host with the
    parent's service/environment, whatever the host's own value was. *)
Theorem cloudhost_save_copies_parent self s p po :
  bo_parent self = Some p -> find_object p s = Some po ->
  existsb (clashes self) (st_objects s) = false ->
  exists o s', cloudhost_save self s = Ok o s' /\
    bo_service_env o = bo_service_env po /\ bo_parent o = Some p /\ In o (st_objects s').
Proof.
  intros Hp Hf Hc. unfold cloudhost_save, cloudhost_save_with, try_except, bind, parent_of, ret. rewrite Hp.
  unfold get_object. rewrite Hf. cbv beta iota.
  destruct (save_object_spec (with_service_env self (bo_service_env po)) s)
    as (o & s' & Hs & Hk & Hpar & Hse & _ & _ & Hin & _).
  { rewrite <- Hc. apply existsb_ext_bool. intros x. by apply clashes_same_kind. }
  exists o, s'. rewrite Hs. split; [done|]. split; [done|]. split; [by rewrite Hpar|done].
Qed.

(** A host whose parent is the example project 2 (service env 5), with
    its own service env 9. *)
Definition example_host : BaseObject :=
  mkBaseObject None (KCloudHost (mkCloudHost 1 3 "i-123" "web-1" None None)) (Some 2) (Some 9).

Definition example_project_store : Store :=
  mkStore 20 [mkCloudProvider 3 "aws"]
    [mkBaseObject (Some 2) (KCloudProject (mkCloudProject 3 "p-1" "web")) None (Some 5)]
    [] [] [] [].

Lemma cloudhost_save_copies_parent_witness :
  exists o s', cloudhost_save example_host example_project_store = Ok o s' /\
    bo_service_env o = Some 5 /\ bo_parent o = Some 2 /\ In o (st_objects s').
Proof.
  apply (cloudhost_save_copies_parent example_host example_project_store 2
           (mkBaseObject (Some 2) (KCloudProject (mkCloudProject 3 "p-1" "web")) None (Some 5)));
    vm_compute; reflexivity.
Defined.

(** C13: saving a host without a parent keeps its own service/environment
    (the [AttributeError] of [None.service_env] is swallowed) and saves it. *)
Theorem cloudhost_save_without_parent self s :
  bo_parent self = None -> existsb (clashes self) (st_objects s) = false ->
  exists o s', cloudhost_save self s = Ok o s' /\
    bo_service_env o = bo_service_env self /\ In o (st_objects s').
Proof.
  intros Hp Hc. unfold cloudhost_save, cloudhost_save_with, try_except, bind, parent_of, ret, raise, is_attribute_error.
  rewrite Hp. cbv beta iota.
  destruct (save_object_spec self s Hc) as (o & s' & Hs & _ & _ & Hse & _ & _ & Hin & _).
  exists o, s'. by rewrite Hs.
Qed.

Lemma cloudhost_save_without_parent_witness :
  exists o s', cloudhost_save (mkBaseObject None (KCloudHost (mkCloudHost 1 3 "i-9" "db-1" None None)) None (Some 9))
                 example_project_store = Ok o s' /\
    bo_service_env o = Some 9 /\ In o (st_objects s').
Proof. apply cloudhost_save_without_parent; vm_compute; reflexivity. Defined.

(** C14: [cloudproject] never raises on a host whose parent is unset or
    exists, and returns the parent exactly when the parent is a
    [CloudProject]. *)
Theorem cloudproject_spec self s :
  (forall p, bo_parent self = Some p -> is_Some (find_object p s)) ->
  exists r, cloudproject self s = Ok r s /\
    forall po, r = Some po <->
      exists p cp, bo_parent self = Some p /\ find_object p s = Some po /\
                   bo_kind po = KCloudProject cp.
Proof.
  intros Hex. unfold cloudproject, try_except, bind, parent_of.
  destruct (bo_parent self) as [p|] eqn:Hp.
  - destruct (Hex p eq_refl) as [po Hf]. unfold get_object. rewrite Hf. cbv beta iota.
    destruct (bo_kind po) eqn:Hk; eexists; (split; [reflexivity|]); intros q;
      split; try (intros; simplify_eq; eauto; done);
      intros (p' & cp & [= <-] & Hf' & Hk'); simplify_eq; congruence.
  - exists None. split; [done|]. intros po. split; [done|]. intros (p' & cp & ? & _); done.
Qed.

Lemma cloudproject_spec_witness :
  exists r, cloudproject example_host example_project_store = Ok r example_project_store /\
    forall po, r = Some po <->
      exists p cp, bo_parent example_host = Some p /\ find_object p example_project_store = Some po /\
                   bo_kind po = KCloudProject cp.
Proof.
  apply cloudproject_spec. intros p Hp. injection Hp as <-. vm_compute. eexists. reflexivity.
Defined.

(** C18: the setter depends only on [set(value)]: two lists with the same
    addresses (in any order, with any repetitions) give the same owner
    for every address and the same warnings, possibly in another order
    (Python's set iteration order is unspecified). *)
Theorem set_ip_addresses_set_semantics self h v1 v2 s :
  ip_wf s -> same_elements v1 v2 ->
  exists s1 s2, set_ip_addresses self h v1 s = Ok tt s1 /\ set_ip_addresses self h v2 s = Ok tt s2 /\
    (forall a, owner s1 a = owner s2 a) /\ st_log s1 ≡ₚ st_log s2.
Proof.
  intros Hwf Hv.
  destruct (set_ip_addresses_spec self h v1 s Hwf) as (s1 & H1 & _ & Hl1 & Ho1).
  destruct (set_ip_addresses_spec self h v2 s Hwf) as (s2 & H2 & _ & Hl2 & Ho2).
  exists s1, s2. split_and!; [done|done| |].
  - intros a. by rewrite Ho1, Ho2, Hv.
  - by rewrite Hl1, Hl2, Hv.
Qed.

Lemma set_ip_addresses_set_semantics_witness :
  exists s1 s2,
    set_ip_addresses 1 "h1" ["10.0.0.1"; "10.0.0.2"; "10.0.0.1"; "10.0.0.3"] example_ip_store = Ok tt s1 /\
    set_ip_addresses 1 "h1" ["10.0.0.3"; "10.0.0.2"; "10.0.0.1"] example_ip_store = Ok tt s2 /\
    (forall a, owner s1 a = owner s2 a) /\ st_log s1 ≡ₚ st_log s2.
Proof.
  apply set_ip_addresses_set_semantics; [apply example_ip_store_wf|].
  intros x. rewrite !elem_of_cons, elem_of_nil. tauto.
Defined.
