(* ===== verification/Project.v ===== *)
(** * [CloudProject]: save and the [post_save] receiver

    models.py lines 117-132.  Saving a project is [Model.save] followed by
    the [post_save] signal, whose receiver
    [update_service_env_on_cloudproject_save] bulk-updates the
    [service_env] of every child of the project when
    [instance.pk is not None].  Since the signal is sent after the row is
    saved, the instance always has a key by then: the guard never skips
    the update, also when the project was just created (the spec says
    creation does not propagate; a new project has no children, so the
    update changes no row). *)

From S2P Require Import Prelude Orm.

(** Lines 128-132. *)
Definition update_service_env_on_cloudproject_save (instance : BaseObject) : M Store unit :=
  match bo_pk instance with
  | Some id => update_children_service_env id (bo_service_env instance)
  | None => ret tt
  end.

(** [project.save()]: the row, then [post_save] with the saved instance. *)
Definition cloudproject_save (instance : BaseObject) : M Store BaseObject :=
  saved <- save_object instance ;;
  update_service_env_on_cloudproject_save saved ;;;
  ret saved.

(** The children of [id] and their service environments after the bulk
    update. *)
Lemma update_children_spec id e s :
  update_children_service_env id e s =
  Ok tt (set_objects (map (fun x => if bool_decide (bo_parent x = Some id)
                                    then mkBaseObject (bo_pk x) (bo_kind x) (bo_parent x) e
                                    else x) (st_objects s)) s).
Proof. reflexivity. Qed.

Lemma update_children_in id e s x :
  In x (st_objects (final (update_children_service_env id e s))) ->
  exists y, In y (st_objects s) /\ bo_pk x = bo_pk y /\ bo_kind x = bo_kind y /\
            bo_parent x = bo_parent y /\
            bo_service_env x = (if bool_decide (bo_parent y = Some id) then e else bo_service_env y).
Proof.
  simpl. intros (y & <- & Hy)%in_map_iff. exists y. split; [done|].
  case_bool_decide; simpl; auto.
Qed.

(** C15: saving a project (new or existing) that clashes with no unique
    key succeeds, and afterwards every child of the project has the
    project's service/environment. *)
Theorem cloudproject_save_propagates p s :
  existsb (clashes p) (st_objects s) = false ->
  exists o s', cloudproject_save p s = Ok o s' /\ bo_service_env o = bo_service_env p /\
    forall x, In x (st_objects s') -> bo_parent x = bo_pk o -> bo_service_env x = bo_service_env o.
Proof.
  intros Hc. destruct (save_object_spec p s Hc) as (o & s1 & Hs & _ & _ & Hse & Hpk & _).
  destruct (bo_pk o) as [id|] eqn:Hid; [|done].
  eexists o, _. unfold cloudproject_save, bind. rewrite Hs.
  unfold update_service_env_on_cloudproject_save. rewrite Hid. split; [reflexivity|].
  split; [done|]. intros x Hx Hpar.
  apply update_children_in in Hx as (y & _ & _ & _ & Hy & Hxe). rewrite Hxe.
  by rewrite bool_decide_eq_true_2 by congruence.
Qed.

Lemma cloudproject_save_propagates_witness :
  exists o s', cloudproject_save
                 (mkBaseObject (Some 2) (KCloudProject (mkCloudProject 3 "p-1" "web")) None (Some 6))
                 (mkStore 20 []
                    [mkBaseObject (Some 2) (KCloudProject (mkCloudProject 3 "p-1" "web")) None (Some 5);
                     mkBaseObject (Some 4) (KCloudHost (mkCloudHost 1 3 "i-1" "web-1" None None)) (Some 2) (Some 5);
                     mkBaseObject (Some 8) (KCloudHost (mkCloudHost 1 3 "i-2" "web-2" None None)) (Some 2) (Some 5)]
                    [] [] [] []) = Ok o s' /\
    bo_service_env o = Some 6 /\
    forall x, In x (st_objects s') -> bo_parent x = bo_pk o -> bo_service_env x = bo_service_env o.
Proof. apply cloudproject_save_propagates. vm_compute. reflexivity. Defined.
