(* ===== verification/System.v ===== *)
(** * The handlers as one transition system

    Every state-changing handler of models.py is one operation [op]; a
    request runs one of them atomically ([step]).  [store_inv] collects
    the invariants of the components (the flavor invariant, unique IP
    addresses, unique object keys below the key counter, parents that
    exist, no project under a project) and the spec's cross-component
    invariant [hosts_follow_projects]: a CloudHost under a CloudProject
    has the project's service/environment.  Every reachable store
    satisfies [store_inv]; without the no-nesting condition the
    propagation of [update_service_env_on_cloudproject_save], one level
    deep, breaks the spec's invariant. *)

From S2P Require Import Prelude Orm Format Flavor Host Project.

(** ** Operations *)

Inductive op :=
| SetCores (fi : FlavorInstance) (n : Z)
| SetMemory (fi : FlavorInstance) (n : Z)
| SetDisk (fi : FlavorInstance) (n : Z)
| SetIpAddresses (self : nat) (host_name : string) (value : list string)
| SaveCloudHost (h : BaseObject)
| SaveCloudProject (p : BaseObject).

Definition exec (o : op) : M Store unit :=
  match o with
  | SetCores fi n => set_cores fi n
  | SetMemory fi n => set_memory fi n
  | SetDisk fi n => set_disk fi n
  | SetIpAddresses self h value => set_ip_addresses self h value
  | SaveCloudHost h => cloudhost_save h ;;; ret tt
  | SaveCloudProject p => cloudproject_save p ;;; ret tt
  end.

Definition is_host (o : BaseObject) : bool :=
  match bo_kind o with KCloudHost _ => true | _ => false end.

Definition is_project (o : BaseObject) : bool :=
  match bo_kind o with KCloudProject _ => true | _ => false end.

(** An instance a request saves is new, or was loaded from its table: a
    key it carries names a row of the same class. *)
Definition loaded_or_new (s : Store) (o : BaseObject) : Prop :=
  forall id, bo_pk o = Some id ->
    exists x, find_object id s = Some x /\ is_host x = is_host o /\ is_project x = is_project o.

(** Its parent, if any, exists (the foreign key). *)
Definition parent_exists (s : Store) (o : BaseObject) : Prop :=
  forall q, bo_parent o = Some q -> is_Some (find_object q s).

Definition parent_not_project (s : Store) (o : BaseObject) : Prop :=
  forall q qo, bo_parent o = Some q -> find_object q s = Some qo -> is_project qo = false.

Definition op_ok (s : Store) (o : op) : Prop :=
  match o with
  | SaveCloudHost h => is_host h = true /\ loaded_or_new s h /\ parent_exists s h
  | SaveCloudProject p =>
      is_project p = true /\ loaded_or_new s p /\ parent_exists s p /\ parent_not_project s p
  | _ => True
  end.

Inductive step : Store -> Store -> Prop :=
| step_exec s o : op_ok s o -> step s (final (exec o s)).

Inductive reachable (init : Store) : Store -> Prop :=
| reach_init : reachable init init
| reach_step s s' : reachable init s -> step s s' -> reachable init s'.

(** ** The invariant *)

Definition objects_ok (s : Store) : Prop :=
  NoDup (map bo_pk (st_objects s)) /\
  Forall (fun x => exists id, bo_pk x = Some id /\ id < st_next s) (st_objects s).

Definition parents_exist (s : Store) : Prop :=
  forall x, In x (st_objects s) -> parent_exists s x.

Definition projects_not_nested (s : Store) : Prop :=
  forall x, In x (st_objects s) -> is_project x = true -> parent_not_project s x.

(** The spec's invariant: a host under a project has its
    service/environment. *)
Definition hosts_follow_projects (s : Store) : Prop :=
  forall h p po, In h (st_objects s) -> is_host h = true -> bo_parent h = Some p ->
    find_object p s = Some po -> is_project po = true ->
    bo_service_env h = bo_service_env po.

Record store_inv (s : Store) : Prop := {
  inv_flavor : flavor_wf s;
  inv_ip : ip_wf s;
  inv_objects : objects_ok s;
  inv_parents : parents_exist s;
  inv_flat : projects_not_nested s;
  inv_hosts : hosts_follow_projects s;
}.

(** ** Frames: what each handler leaves alone *)

(** The object-table part of the invariant only reads the objects and,
    for key freshness, the counter. *)
Definition objects_part (s : Store) : Prop :=
  objects_ok s /\ parents_exist s /\ projects_not_nested s /\ hosts_follow_projects s.

Lemma objects_part_frame s s' :
  st_objects s' = st_objects s -> st_next s <= st_next s' -> objects_part s -> objects_part s'.
Proof.
  intros Ho Hn (Hok & Hpar & Hflat & Hhost). unfold objects_part, objects_ok, parents_exist,
    projects_not_nested, hosts_follow_projects, parent_exists, parent_not_project in *.
  unfold find_object in *. rewrite Ho. destruct Hok as [Hnd Hlt].
  split; [split; [done|]|done]. eapply Forall_impl; [exact Hlt|].
  intros x (id & ? & ?). exists id. split; [done|lia].
Qed.

Lemma flavor_wf_frame s s' :
  st_models s' = st_models s -> st_components s' = st_components s ->
  st_next s <= st_next s' -> flavor_wf s -> flavor_wf s'.
Proof.
  intros Hm Hc Hn [[Hmk Hml] [Hck Hcl] Hnames Hcat Hcm Hone].
  assert (Hcmod : forall c, component_model s' c = component_model s c)
    by (intros c; by apply component_model_models).
  assert (Htyp : forall b t, typed_components s' b t = typed_components s b t)
    by (intros b t; unfold typed_components; by rewrite (is_typed_models s s' Hm), Hc).
  split.
  - split; cbn; rewrite Hm; [done|]. eapply Forall_impl; [exact Hml|]. simpl. lia.
  - split; cbn; rewrite Hc; [done|]. eapply Forall_impl; [exact Hcl|]. simpl. lia.
  - by rewrite Hm.
  - by rewrite Hm.
  - rewrite Hc. eapply Forall_impl; [exact Hcm|]. intros c. by rewrite Hcmod.
  - intros b t. rewrite Htyp. apply Hone.
Qed.

Lemma ip_wf_frame s s' :
  st_ips s' = st_ips s -> st_next s <= st_next s' -> ip_wf s -> ip_wf s'.
Proof.
  intros Hi Hn [[Hk Hl] Ha]. split; [split|]; cbn; rewrite Hi; [done| |done].
  eapply Forall_impl; [exact Hl|]. simpl. lia.
Qed.

(** The flavor setters touch only the catalog and the components. *)
Definition keeps_ips_objects (L : list IPAddress) (O : list BaseObject) (N : nat) (s : Store) : Prop :=
  st_ips s = L /\ st_objects s = O /\ N <= st_next s.

Lemma create_model_keeps L O N mk :
  preserves (keeps_ips_objects L O N) (create (R:=ComponentModel) mk).
Proof. intros s (Hi & Ho & Hn). repeat split; cbn; [done|done|lia]. Qed.

Lemma create_component_keeps L O N mk :
  preserves (keeps_ips_objects L O N) (create (R:=VirtualComponent) mk).
Proof. intros s (Hi & Ho & Hn). repeat split; cbn; [done|done|lia]. Qed.

Lemma delete_component_keeps L O N c :
  preserves (keeps_ips_objects L O N) (delete_row (R:=VirtualComponent) c).
Proof. intros s (Hi & Ho & Hn). repeat split; cbn; [done|done|lia]. Qed.

#[export] Hint Resolve create_model_keeps create_component_keeps delete_component_keeps : ralph_inv.

Lemma set_component_keeps L O N fi args :
  preserves (keeps_ips_objects L O N) (_set_component fi args).
Proof. unfold _set_component, resolve_model, attach_model. solve_preserves. Qed.

#[export] Hint Resolve set_component_keeps : ralph_inv.

Lemma flavor_setter_keeps L O N o :
  (exists fi n, o = SetCores fi n \/ o = SetMemory fi n \/ o = SetDisk fi n) ->
  preserves (keeps_ips_objects L O N) (exec o).
Proof.
  intros [fi [n [H|[H|H]]]]; subst o; simpl; unfold set_cores, set_memory, set_disk, disk_args, cores, memory, disk;
    solve_preserves.
Qed.

(** The IP setter touches only the IP table, the counter and the log. *)
Definition keeps_catalog_objects (Ms : list ComponentModel) (Cs : list VirtualComponent)
    (O : list BaseObject) (N : nat) (s : Store) : Prop :=
  st_models s = Ms /\ st_components s = Cs /\ st_objects s = O /\ N <= st_next s.

Lemma create_ip_keeps Ms Cs O N mk :
  preserves (keeps_catalog_objects Ms Cs O N) (create (R:=IPAddress) mk).
Proof. intros s (Hm & Hc & Ho & Hn). repeat split; cbn; [done|done|done|lia]. Qed.

Lemma save_ip_keeps Ms Cs O N r :
  preserves (keeps_catalog_objects Ms Cs O N) (save_row (R:=IPAddress) r).
Proof.
  intros s (Hm & Hc & Ho & Hn). unfold save_row, modify_st. cbn.
  case_match; repeat split; cbn; (done || lia).
Qed.

Lemma log_warning_keeps Ms Cs O N msg :
  preserves (keeps_catalog_objects Ms Cs O N) (log_warning msg).
Proof. intros s (Hm & Hc & Ho & Hn). by repeat split. Qed.

#[export] Hint Resolve create_ip_keeps save_ip_keeps log_warning_keeps : ralph_inv.

Lemma ip_setter_keeps Ms Cs O N self h value :
  preserves (keeps_catalog_objects Ms Cs O N) (set_ip_addresses self h value).
Proof. unfold set_ip_addresses, ip_addresses, claim_ip, release_ip. solve_preserves. Qed.

(** ** [save()] on a table with unique keys is an upsert *)

(** The rows after a save are the saved row and the old rows with
    another key. *)
Definition upserted (s s' : Store) (o' : BaseObject) : Prop :=
  forall x, In x (st_objects s') <-> x = o' \/ (In x (st_objects s) /\ bo_pk x <> bo_pk o').

Lemma loaded_has_pk s o id :
  loaded_or_new s o -> bo_pk o = Some id -> existsb (obj_has_pk id) (st_objects s) = true.
Proof.
  intros Hl Hpk. destruct (Hl id Hpk) as (x & Hf & _). apply find_some in Hf as [Hx Hxid].
  apply existsb_exists. eauto.
Qed.

Lemma save_object_upsert s o o' s' :
  objects_ok s -> loaded_or_new s o -> save_object o s = Ok o' s' ->
  objects_ok s' /\ upserted s s' o'.
Proof.
  intros [Hnd Hlt] Hl. unfold save_object. destruct (existsb (clashes o) _); [done|].
  destruct (bo_pk o) as [id|] eqn:Hpk.
  - rewrite (loaded_has_pk s o id Hl Hpk). intros [= <- <-]. cbn.
    assert (Hf : forall x, bo_pk (if obj_has_pk id x then o else x) = bo_pk x)
      by (intros x; destruct (obj_has_pk id x) eqn:Hx; [apply obj_has_pk_spec in Hx|]; congruence).
    split; [split|]; cbn.
    + by rewrite map_map, (map_ext _ _ Hf).
    + apply List.Forall_forall. intros y (x & <- & Hx)%in_map_iff. rewrite Hf.
      rewrite List.Forall_forall in Hlt. by apply Hlt.
    + intros y. cbn. rewrite in_map_iff. split.
      * intros (x & <- & Hx). destruct (obj_has_pk id x) eqn:Hxid; [by left|right].
        split; [done|]. rewrite Hpk. intros Hy%obj_has_pk_spec. congruence.
      * intros [->|[Hy Hyid]].
        -- destruct (proj1 (existsb_exists _ _) (loaded_has_pk s o id Hl Hpk)) as (x & Hx & Hxid).
           exists x. by rewrite Hxid.
        -- exists y. destruct (obj_has_pk id y) eqn:Hid; [|done].
           apply obj_has_pk_spec in Hid. congruence.
  - intros [= <- <-]. cbn. rewrite List.Forall_forall in Hlt.
    assert (Hold : forall x, In x (st_objects s) -> bo_pk x <> Some (st_next s))
      by (intros x Hx; destruct (Hlt x Hx) as (i & -> & Hi); intros [= ->]; lia).
    split; [split|]; cbn.
    + rewrite map_app. apply NoDup_app. split_and!; [done| |by apply NoDup_singleton].
      intros k Hk ->%list_elem_of_singleton.
      apply list_elem_of_In, in_map_iff in Hk as (x & Hxk & Hx). by apply (Hold x).
    + apply Forall_app. split.
      * apply List.Forall_forall. intros x Hx. destruct (Hlt x Hx) as (i & Hi & ?). exists i. split; [done|lia].
      * constructor; [|done]. eexists. split; [done|]. cbn. lia.
    + intros x. cbn. rewrite in_app_iff. cbn. split.
      * intros [Hx|[<-|[]]]; [right|by left]. split; [done|]. by apply Hold.
      * intros [->|[Hx _]]; auto.
Qed.

Lemma save_object_fields o s o' s' :
  save_object o s = Ok o' s' ->
  bo_kind o' = bo_kind o /\ bo_parent o' = bo_parent o /\ bo_service_env o' = bo_service_env o /\
  (forall id, bo_pk o = Some id -> bo_pk o' = Some id) /\
  (bo_pk o = None -> bo_pk o' = Some (st_next s)).
Proof.
  unfold save_object. destruct (existsb (clashes o) _); [done|].
  destruct (bo_pk o) as [id|] eqn:Hpk.
  - destruct (existsb _ _); intros [= <- _]; rewrite Hpk; naive_solver.
  - intros [= <- _]. cbn. naive_solver.
Qed.

Lemma save_object_raise o s e s' : save_object o s = Raise e s' -> s' = s.
Proof.
  unfold save_object. destruct (existsb (clashes o) _); [by intros [= _ <-]|].
  destruct (bo_pk o); [destruct (existsb _ _)|]; done.
Qed.

(** A save changes only the objects table and the counter. *)
Definition objects_only (s s' : Store) : Prop :=
  st_models s' = st_models s /\ st_components s' = st_components s /\ st_ips s' = st_ips s /\
  st_next s <= st_next s'.

Lemma save_object_objects_only o s : objects_only s (final (save_object o s)).
Proof.
  unfold save_object, objects_only. destruct (existsb (clashes o) _); [cbn; naive_solver|].
  destruct (bo_pk o); [destruct (existsb _ _)|]; cbn; split_and!; (done || lia).
Qed.

Section Upsert.
Context (s s' : Store) (o' : BaseObject).
Hypothesis (Hok : objects_ok s) (Hok' : objects_ok s') (Hup : upserted s s' o').

(** A lookup after the save finds the saved row under its key and the
    old row under every other key. *)
Lemma find_upserted q z :
  find_object q s' = Some z <->
  (z = o' /\ bo_pk o' = Some q) \/ (find_object q s = Some z /\ bo_pk o' <> Some q).
Proof.
  rewrite (find_object_spec s'), (find_object_spec s) by apply Hok' || apply Hok.
  rewrite (Hup z). split.
  - intros [[->|[Hz Hne]] Hq]; [by left|right]. split; [done|]. congruence.
  - intros [[-> Hq]|[[Hz Hq] Hne]]; split; auto. right. split; [done|]. congruence.
Qed.

Lemma find_upserted_some q : is_Some (find_object q s) -> is_Some (find_object q s').
Proof.
  intros [y Hy]. destruct (decide (bo_pk o' = Some q)) as [Hq|Hq].
  - exists o'. apply find_upserted. by left.
  - exists y. apply find_upserted. by right.
Qed.
End Upsert.

Lemma kind_class a b :
  bo_kind a = bo_kind b -> is_host a = is_host b /\ is_project a = is_project b.
Proof. unfold is_host, is_project. by intros ->. Qed.

Lemma host_not_project o : is_host o = true -> is_project o = false.
Proof. unfold is_host, is_project. by destruct (bo_kind o). Qed.

(** The row a save overwrites has the class of the saved instance: a new
    instance gets a key no row has, a loaded one overwrites its own row. *)
Lemma save_key_class s o o' s' q y :
  objects_ok s -> loaded_or_new s o -> save_object o s = Ok o' s' ->
  find_object q s = Some y -> bo_pk o' = Some q ->
  is_host y = is_host o /\ is_project y = is_project o.
Proof.
  intros [Hnd Hlt] Hl Hs Hy Hq. destruct (save_object_fields _ _ _ _ Hs) as (_ & _ & _ & Hsome & Hnone).
  destruct (bo_pk o) as [id|] eqn:Hpk.
  - rewrite (Hsome id eq_refl) in Hq. injection Hq as ->.
    destruct (Hl q Hpk) as (x & Hx & Hh & Hp). rewrite Hy in Hx. by injection Hx as ->.
  - rewrite (Hnone eq_refl) in Hq. injection Hq as <-.
    apply find_object_spec in Hy as [Hy Hyq]; [|done].
    rewrite List.Forall_forall in Hlt. destruct (Hlt y Hy) as (i & Hi & ?).
    rewrite Hyq in Hi. injection Hi as Hi. lia.
Qed.

(** A save that respects the foreign keys keeps keys unique and fresh
    and parents existing. *)
Lemma save_keys_parents s o o' s' :
  objects_ok s -> parents_exist s -> loaded_or_new s o -> parent_exists s o ->
  save_object o s = Ok o' s' -> objects_ok s' /\ parents_exist s'.
Proof.
  intros Hok Hpar Hl Hpo Hs.
  destruct (save_object_upsert _ _ _ _ Hok Hl Hs) as [Hok' Hup].
  destruct (save_object_fields _ _ _ _ Hs) as (_ & Hp & _).
  split; [done|]. intros x Hx q Hq. apply (find_upserted_some s s' o' Hok Hok' Hup).
  apply Hup in Hx as [->|[Hx _]]; [apply Hpo; congruence|by apply (Hpar x)].
Qed.

(** After a save that respects the foreign keys (and, for a project,
    the no-nesting rule), keys are unique and fresh, parents exist and no
    project is under a project. *)
Lemma save_structure s o o' s' :
  objects_ok s -> parents_exist s -> projects_not_nested s ->
  loaded_or_new s o -> parent_exists s o -> (is_project o = true -> parent_not_project s o) ->
  save_object o s = Ok o' s' ->
  objects_ok s' /\ parents_exist s' /\ projects_not_nested s'.
Proof.
  intros Hok Hpar Hflat Hl Hpo Hnp Hs.
  destruct (save_object_upsert _ _ _ _ Hok Hl Hs) as [Hok' Hup].
  destruct (save_object_fields _ _ _ _ Hs) as (Hk & Hp & _).
  destruct (kind_class _ _ Hk) as [_ Hproj'].
  destruct (save_keys_parents s o o' s' Hok Hpar Hl Hpo Hs) as [_ Hpar'].
  split_and!; [done|done|].
  intros x Hx Hxp q qo Hq Hf.
  assert (Hold : exists y, find_object q s = Some y /\ is_project y = false).
  { apply Hup in Hx as [->|[Hx _]].
    - rewrite Hp in Hq. rewrite Hproj' in Hxp. destruct (Hpo q Hq) as [y Hy].
      exists y. split; [done|]. by apply (Hnp Hxp q y).
    - destruct (Hpar x Hx q Hq) as [y Hy]. exists y. split; [done|]. by apply (Hflat x Hx Hxp q y). }
  destruct Hold as (y & Hy & Hyp).
  apply (find_upserted s s' o' Hok Hok' Hup) in Hf as [[-> Hq']|[Hf _]].
  - destruct (save_key_class _ _ _ _ _ _ Hok Hl Hs Hy Hq') as [_ Hc]. congruence.
  - congruence.
Qed.

(** ** The two save handlers on the object table *)

Lemma loaded_or_new_same s a b :
  bo_pk a = bo_pk b -> bo_kind a = bo_kind b -> loaded_or_new s b -> loaded_or_new s a.
Proof.
  intros Hpk Hk Hl id Hid. rewrite Hpk in Hid. destruct (kind_class _ _ Hk) as [-> ->]. by apply Hl.
Qed.

(** [CloudHost.save] on a host whose parent exists is a save of the host
    with the parent's service/environment (or of the host itself). *)
Lemma cloudhost_save_reduces h s :
  parent_exists s h ->
  exists h1, cloudhost_save h s = save_object h1 s /\ bo_pk h1 = bo_pk h /\
    bo_kind h1 = bo_kind h /\ bo_parent h1 = bo_parent h /\
    forall p po, bo_parent h = Some p -> find_object p s = Some po ->
      bo_service_env h1 = bo_service_env po.
Proof.
  intros Hpe. unfold cloudhost_save, cloudhost_save_with, try_except, bind, parent_of, ret, raise, is_attribute_error.
  destruct (bo_parent h) as [p|] eqn:Hp.
  - destruct (Hpe p Hp) as [po Hpo]. unfold get_object. rewrite Hpo.
    exists (with_service_env h (bo_service_env po)). cbn. split_and!; try done.
    intros ? ? [= <-]. congruence.
  - exists h. by split_and!.
Qed.

Lemma save_host_objects s h :
  is_host h = true -> loaded_or_new s h -> parent_exists s h -> objects_part s ->
  objects_part (final (cloudhost_save h s)).
Proof.
  intros Hh Hl Hpe (Hok & Hpar & Hflat & Hhosts).
  destruct (cloudhost_save_reduces h s Hpe) as (h1 & -> & Hpk & Hk & Hp & Hse).
  destruct (save_object h1 s) as [o' s'|e s'] eqn:Hs; cbn;
    [|apply save_object_raise in Hs as ->; by split_and!].
  destruct (kind_class _ _ Hk) as [Hh1 Hp1].
  assert (Hl1 : loaded_or_new s h1) by by apply (loaded_or_new_same s h1 h).
  assert (Hpe1 : parent_exists s h1) by (intros q Hq; apply Hpe; congruence).
  destruct (save_structure s h1 o' s' Hok Hpar Hflat Hl1 Hpe1) as (Hok' & Hpar' & Hflat'); [|done|].
  { intros Hpr. pose proof (host_not_project h Hh). congruence. }
  destruct (save_object_upsert _ _ _ _ Hok Hl1 Hs) as [_ Hup].
  destruct (save_object_fields _ _ _ _ Hs) as (Hk' & Hp' & Hse' & _).
  destruct (kind_class _ _ Hk') as [Ho'h Ho'p].
  split_and!; try done.
  intros x p po Hx Hxh Hxp Hf Hpoj.
  apply (find_upserted s s' o' Hok Hok' Hup) in Hf as [[-> _]|[Hf _]].
  { pose proof (host_not_project h Hh). congruence. }
  apply Hup in Hx as [->|[Hx _]].
  - rewrite Hse'. apply (Hse p po); congruence.
  - by apply (Hhosts x p po).
Qed.

(** A bulk update that keeps keys, classes and parents keeps the
    structural invariants. *)
Section MapRows.
Context (f : BaseObject -> BaseObject) (s s2 : Store).
Hypothesis (Hfpk : forall x, bo_pk (f x) = bo_pk x) (Hfk : forall x, bo_kind (f x) = bo_kind x)
  (Hfp : forall x, bo_parent (f x) = bo_parent x)
  (Hrows : st_objects s2 = map f (st_objects s)) (Hnext : st_next s2 = st_next s).

Lemma map_rows_find q : find_object q s2 = f <$> find_object q s.
Proof.
  unfold find_object. rewrite Hrows. apply find_map_same. intros x _. unfold obj_has_pk. by rewrite Hfpk.
Qed.

Lemma map_rows_structure :
  objects_ok s -> parents_exist s -> projects_not_nested s ->
  objects_ok s2 /\ parents_exist s2 /\ projects_not_nested s2.
Proof.
  intros [Hnd Hlt] Hpar Hflat.
  assert (Hin : forall x, In x (st_objects s2) -> exists y, x = f y /\ In y (st_objects s))
    by (intros x; rewrite Hrows, in_map_iff; naive_solver).
  split_and!; [split| |].
  - by rewrite Hrows, map_map, (map_ext _ _ Hfpk).
  - rewrite Hrows, Hnext. apply Forall_map. eapply Forall_impl; [exact Hlt|]. intros x. by rewrite Hfpk.
  - intros x (y & -> & Hy)%Hin q Hq. rewrite map_rows_find, fmap_is_Some. apply (Hpar y Hy). by rewrite <- Hfp.
  - intros x (y & -> & Hy)%Hin Hyp q qo Hq. rewrite map_rows_find.
    destruct (find_object q s) as [qo1|] eqn:Hf; [|done]. intros [= <-].
    destruct (kind_class _ _ (Hfk qo1)) as [_ ->]. destruct (kind_class _ _ (Hfk y)) as [_ Hy'].
    apply (Hflat y Hy ltac:(congruence) q); [by rewrite <- Hfp|done].
Qed.
End MapRows.

(** One row of [instance.children.all().update(service_env=e)]. *)
Definition child_update (id : nat) (e : option nat) (x : BaseObject) : BaseObject :=
  if bool_decide (bo_parent x = Some id) then mkBaseObject (bo_pk x) (bo_kind x) (bo_parent x) e else x.

Lemma child_update_fields id e x :
  bo_pk (child_update id e x) = bo_pk x /\ bo_kind (child_update id e x) = bo_kind x /\
  bo_parent (child_update id e x) = bo_parent x /\
  bo_service_env (child_update id e x) =
    if bool_decide (bo_parent x = Some id) then e else bo_service_env x.
Proof. unfold child_update. by case_bool_decide. Qed.

Lemma cloudproject_save_final p s o' s1 id :
  save_object p s = Ok o' s1 -> bo_pk o' = Some id ->
  final (cloudproject_save p s) = final (update_children_service_env id (bo_service_env o') s1).
Proof.
  intros Hs Hid. unfold cloudproject_save, bind. rewrite Hs.
  unfold update_service_env_on_cloudproject_save. by rewrite Hid.
Qed.

Lemma save_project_objects s p :
  is_project p = true -> loaded_or_new s p -> parent_exists s p -> parent_not_project s p ->
  objects_part s -> objects_part (final (cloudproject_save p s)).
Proof.
  intros Hpj Hl Hpe Hnp (Hok & Hpar & Hflat & Hhosts).
  destruct (save_object p s) as [o' s1|e s1] eqn:Hs;
    [|unfold cloudproject_save, bind; rewrite Hs; apply save_object_raise in Hs as ->; by split_and!].
  destruct (save_structure s p o' s1 Hok Hpar Hflat Hl Hpe (fun _ => Hnp) Hs) as (Hok1 & Hpar1 & Hflat1).
  destruct (save_object_upsert _ _ _ _ Hok Hl Hs) as [_ Hup].
  destruct (save_object_fields _ _ _ _ Hs) as (Hk & _ & _ & Hsome & Hnone).
  destruct (kind_class _ _ Hk) as [_ Ho'p].
  assert (Hid : exists id, bo_pk o' = Some id) by (destruct (bo_pk p) eqn:E; eauto).
  destruct Hid as [id Hid]. rewrite (cloudproject_save_final p s o' s1 id Hs Hid).
  set (cu := child_update id (bo_service_env o')).
  set (s2 := final (update_children_service_env id (bo_service_env o') s1)).
  assert (Hrows : st_objects s2 = map cu (st_objects s1)) by reflexivity.
  assert (Hnext : st_next s2 = st_next s1) by reflexivity.
  assert (Hcu : forall x, bo_pk (cu x) = bo_pk x /\ bo_kind (cu x) = bo_kind x /\
                 bo_parent (cu x) = bo_parent x /\
                 bo_service_env (cu x) = if bool_decide (bo_parent x = Some id)
                                          then bo_service_env o' else bo_service_env x)
    by (intros x; apply child_update_fields).
  destruct (map_rows_structure cu s1 s2 (fun x => proj1 (Hcu x)) (fun x => proj1 (proj2 (Hcu x)))
              (fun x => proj1 (proj2 (proj2 (Hcu x)))) Hrows Hnext Hok1 Hpar1 Hflat1)
    as (Hok2 & Hpar2 & Hflat2).
  split_and!; try done.
  assert (Hfo' : find_object id s1 = Some o')
    by (apply (find_upserted s s1 o' Hok Hok1 Hup); by left).
  intros x q po Hx Hxh Hxp Hf Hpoj.
  rewrite Hrows in Hx. apply in_map_iff in Hx as (y & <- & Hy).
  rewrite (map_rows_find cu s1 s2 (fun x => proj1 (Hcu x)) Hrows) in Hf.
  destruct (find_object q s1) as [po1|] eqn:Hf1; [|done]. injection Hf as <-.
  destruct (Hcu y) as (_ & Hyk & Hyp & ->). destruct (Hcu po1) as (_ & Hpk1 & _ & ->).
  destruct (kind_class _ _ Hyk) as [Hyh _]. destruct (kind_class _ _ Hpk1) as [_ Hpp1].
  rewrite Hyp in Hxp. rewrite Hyh in Hxh. rewrite Hpp1 in Hpoj.
  assert (Hpo1 : bo_parent po1 <> Some id).
  { intros Hpp. apply find_object_spec in Hf1 as [Hin1 _]; [|apply Hok1].
    pose proof (Hflat1 po1 Hin1 Hpoj id o' Hpp Hfo'). congruence. }
  rewrite (bool_decide_eq_false_2 _ Hpo1).
  case_bool_decide as Hyid.
  - assert (q = id) as -> by congruence. congruence.
  - apply Hup in Hy as [->|[Hy _]]; [pose proof (host_not_project o' Hxh); congruence|].
    apply (find_upserted s s1 o' Hok Hok1 Hup) in Hf1 as [[-> Hq]|[Hf1 _]]; [congruence|].
    by apply (Hhosts y q po1).
Qed.

(** ** Saves that change one row's service/environment *)

(** The row with key [id] with its [service_env] set to [e]. *)
Definition env_at (id : nat) (e : option nat) (y : BaseObject) : BaseObject :=
  if obj_has_pk id y then with_service_env y e else y.

Lemma env_at_fields id e y :
  bo_pk (env_at id e y) = bo_pk y /\ bo_kind (env_at id e y) = bo_kind y /\
  bo_parent (env_at id e y) = bo_parent y /\
  bo_service_env (env_at id e y) = if obj_has_pk id y then e else bo_service_env y.
Proof. unfold env_at. by destruct (obj_has_pk id y). Qed.

Lemma env_at_other id e y : obj_has_pk id y = false -> env_at id e y = y.
Proof. unfold env_at. by intros ->. Qed.

Lemma env_at_self id e y : bo_pk y = Some id -> env_at id e y = with_service_env y e.
Proof. unfold env_at. intros Hy. by rewrite (proj2 (obj_has_pk_spec id y) Hy). Qed.

Lemma child_update_child id e y : bo_parent y = Some id -> child_update id e y = with_service_env y e.
Proof. unfold child_update. intros Hy. by rewrite bool_decide_eq_true_2. Qed.

Lemma child_update_other id e y : bo_parent y <> Some id -> child_update id e y = y.
Proof. unfold child_update. intros Hy. by rewrite bool_decide_eq_false_2. Qed.

(** A unique-key clash depends only on keys and classes. *)
Lemma existsb_clashes_map o f l :
  (forall y, bo_pk (f y) = bo_pk y /\ bo_kind (f y) = bo_kind y) ->
  existsb (clashes o) (map f l) = existsb (clashes o) l.
Proof.
  intros Hf. induction l as [|y l IH]; [done|]. cbn [map existsb]. rewrite IH. f_equal.
  unfold clashes. by destruct (Hf y) as [-> ->].
Qed.

(** Saving a loaded row with another [service_env] updates that row in
    place. *)
Lemma save_object_set_env s x id e :
  NoDup (map bo_pk (st_objects s)) -> find_object id s = Some x ->
  existsb (clashes x) (st_objects s) = false ->
  save_object (with_service_env x e) s =
  Ok (with_service_env x e) (set_objects (map (env_at id e) (st_objects s)) s).
Proof.
  intros Hnd Hf Hc. destruct (proj1 (find_object_spec s id x Hnd) Hf) as [Hin Hpk].
  unfold save_object. change (clashes (with_service_env x e)) with (clashes x). rewrite Hc.
  cbn [bo_pk with_service_env]. rewrite Hpk.
  rewrite (proj2 (existsb_exists _ _)) by (exists x; split; [done|]; by apply obj_has_pk_spec).
  do 2 f_equal. apply map_ext_in. intros y Hy. unfold env_at.
  destruct (obj_has_pk id y) eqn:Hy'; [|done]. apply obj_has_pk_spec in Hy'.
  by assert (y = x) as -> by (apply (NoDup_map_eq_in bo_pk (st_objects s)); congruence).
Qed.

(** [project.save()] of a loaded project with a new service/environment:
    its row, then the one-level update of its children. *)
Lemma cloudproject_save_set_env s po pid e :
  NoDup (map bo_pk (st_objects s)) -> find_object pid s = Some po ->
  existsb (clashes po) (st_objects s) = false ->
  cloudproject_save (with_service_env po e) s =
  Ok (with_service_env po e)
     (set_objects (map (fun y => child_update pid e (env_at pid e y)) (st_objects s)) s).
Proof.
  intros Hnd Hf Hc. destruct (proj1 (find_object_spec s pid po Hnd) Hf) as [_ Hpk].
  unfold cloudproject_save, bind. rewrite (save_object_set_env s po pid e Hnd Hf Hc).
  unfold update_service_env_on_cloudproject_save. cbn [bo_pk with_service_env]. rewrite Hpk.
  cbn. by rewrite map_map.
Qed.

(** Two rows with the same key in a table with unique keys are one row,
    so a host and a project never share a key. *)
Lemma host_project_keys s h po id :
  NoDup (map bo_pk (st_objects s)) -> In h (st_objects s) -> is_host h = true ->
  find_object id s = Some po -> is_project po = true -> obj_has_pk id h = false.
Proof.
  intros Hnd Hh Hhh Hf Hpp. destruct (obj_has_pk id h) eqn:Hid; [|done].
  apply obj_has_pk_spec in Hid. apply find_object_spec in Hf as [Hpo Hpk]; [|done].
  assert (h = po) as -> by (apply (NoDup_map_eq_in bo_pk (st_objects s)); congruence).
  by rewrite (host_not_project po Hhh) in Hpp.
Qed.

(** ** Executable checks of the object-table invariants *)

Definition objects_okb (s : Store) : bool :=
  bool_decide (NoDup (map bo_pk (st_objects s))) &&
  forallb (fun x => match bo_pk x with Some id => Nat.ltb id (st_next s) | None => false end)
          (st_objects s).

Definition parent_existsb (s : Store) (x : BaseObject) : bool :=
  match bo_parent x with
  | Some q => match find_object q s with Some _ => true | None => false end
  | None => true
  end.

Definition parent_not_projectb (s : Store) (x : BaseObject) : bool :=
  match bo_parent x with
  | Some q => match find_object q s with Some qo => negb (is_project qo) | None => true end
  | None => true
  end.

Definition host_followsb (s : Store) (h : BaseObject) : bool :=
  match bo_parent h with
  | Some p => match find_object p s with
              | Some po => negb (is_project po) || bool_decide (bo_service_env h = bo_service_env po)
              | None => true
              end
  | None => true
  end.

Definition parents_existb (s : Store) : bool := forallb (parent_existsb s) (st_objects s).

Definition projects_not_nestedb (s : Store) : bool :=
  forallb (fun x => negb (is_project x) || parent_not_projectb s x) (st_objects s).

Definition hosts_follow_projectsb (s : Store) : bool :=
  forallb (fun h => negb (is_host h) || host_followsb s h) (st_objects s).

Definition objects_partb (s : Store) : bool :=
  objects_okb s && parents_existb s && projects_not_nestedb s && hosts_follow_projectsb s.

Lemma objects_okb_spec s : objects_okb s = true <-> objects_ok s.
Proof.
  unfold objects_okb, objects_ok. rewrite andb_true_iff, bool_decide_eq_true, forallb_forall,
    List.Forall_forall. apply and_iff_compat_l. apply forall_proper. intros x. apply forall_proper. intros _.
  destruct (bo_pk x) as [id|]; split.
  - intros ?%Nat.ltb_lt. eauto.
  - intros (i & [= <-] & ?). by apply Nat.ltb_lt.
  - done.
  - by intros (? & ? & ?).
Qed.

Lemma parent_existsb_spec s x : parent_existsb s x = true <-> parent_exists s x.
Proof.
  unfold parent_existsb, parent_exists. destruct (bo_parent x) as [q|]; [|naive_solver].
  destruct (find_object q s) eqn:Hf; split; intros H; try done.
  - intros ? [= <-]. rewrite Hf. by eexists.
  - destruct (H q eq_refl) as [? Hq]. congruence.
Qed.

Lemma parent_not_projectb_spec s x : parent_not_projectb s x = true <-> parent_not_project s x.
Proof.
  unfold parent_not_projectb, parent_not_project. destruct (bo_parent x) as [q|]; [|naive_solver].
  destruct (find_object q s) as [qo|] eqn:Hf; [|naive_solver].
  rewrite negb_true_iff. split.
  - intros Hp ? ? [= <-] Hq. congruence.
  - intros H. by apply (H q).
Qed.

Lemma host_followsb_spec s h :
  host_followsb s h = true <->
  forall p po, bo_parent h = Some p -> find_object p s = Some po -> is_project po = true ->
    bo_service_env h = bo_service_env po.
Proof.
  unfold host_followsb. destruct (bo_parent h) as [p|]; [|naive_solver].
  destruct (find_object p s) as [po|] eqn:Hf; [|naive_solver].
  rewrite orb_true_iff, negb_true_iff, bool_decide_eq_true. split.
  - intros [Hn|He] ? ? [= <-] Hq Hpj; congruence.
  - intros H. destruct (is_project po) eqn:Hpj; [right; by apply (H p)|by left].
Qed.

Lemma parents_existb_spec s : parents_existb s = true <-> parents_exist s.
Proof.
  unfold parents_existb, parents_exist. rewrite forallb_forall.
  by setoid_rewrite parent_existsb_spec.
Qed.

Lemma projects_not_nestedb_spec s : projects_not_nestedb s = true <-> projects_not_nested s.
Proof.
  unfold projects_not_nestedb, projects_not_nested. rewrite forallb_forall.
  setoid_rewrite orb_true_iff. setoid_rewrite negb_true_iff.
  setoid_rewrite parent_not_projectb_spec. split.
  - intros Hflat x Hx Hp. destruct (Hflat x Hx) as [?|?]; [congruence|done].
  - intros Hflat x Hx. destruct (is_project x) eqn:?; [right; by apply Hflat|by left].
Qed.

Lemma hosts_follow_projectsb_spec s : hosts_follow_projectsb s = true <-> hosts_follow_projects s.
Proof.
  unfold hosts_follow_projectsb, hosts_follow_projects. rewrite forallb_forall.
  setoid_rewrite orb_true_iff. setoid_rewrite negb_true_iff.
  setoid_rewrite host_followsb_spec. split.
  - intros Hh h p po Hx Hhost. destruct (Hh h Hx) as [?|H]; [congruence|by apply H].
  - intros Hh h Hx. destruct (is_host h) eqn:?; [right; intros p po; by apply Hh|by left].
Qed.

(** The object-table invariants are decidable. *)
Lemma objects_partb_spec s : objects_partb s = true <-> objects_part s.
Proof.
  unfold objects_partb, objects_part.
  rewrite !andb_true_iff, objects_okb_spec, parents_existb_spec, projects_not_nestedb_spec,
    hosts_follow_projectsb_spec. tauto.
Qed.

(** ** Every operation keeps the invariant *)

Lemma objects_only_trans s1 s2 s3 : objects_only s1 s2 -> objects_only s2 s3 -> objects_only s1 s3.
Proof. unfold objects_only. intros (? & ? & ? & ?) (? & ? & ? & ?). split_and!; congruence || lia. Qed.

Lemma update_children_objects_only id e s :
  objects_only s (final (update_children_service_env id e s)).
Proof. by split_and!. Qed.

Lemma cloudhost_save_objects_only h s :
  parent_exists s h -> objects_only s (final (cloudhost_save h s)).
Proof.
  intros Hpe. destruct (cloudhost_save_reduces h s Hpe) as (h1 & -> & _). apply save_object_objects_only.
Qed.

Lemma cloudproject_save_objects_only p s : objects_only s (final (cloudproject_save p s)).
Proof.
  pose proof (save_object_objects_only p s) as Hs. unfold cloudproject_save, bind.
  destruct (save_object p s) as [o' s1|e s1]; [|done]. cbn in Hs.
  unfold update_service_env_on_cloudproject_save. destruct (bo_pk o'); [|done].
  eapply objects_only_trans; [exact Hs|]. apply (update_children_objects_only _ _ s1).
Qed.

Lemma store_inv_parts s : store_inv s <-> flavor_wf s /\ ip_wf s /\ objects_part s.
Proof.
  split.
  - intros []. by split_and!.
  - intros (? & ? & ? & ? & ? & ?). by constructor.
Qed.

(** A handler that changes only the objects table keeps the catalog and
    IP invariants. *)
Lemma objects_only_frame s s' :
  objects_only s s' -> flavor_wf s -> ip_wf s -> flavor_wf s' /\ ip_wf s'.
Proof.
  intros (Hm & Hc & Hi & Hn) Hf Hip. split; [by apply (flavor_wf_frame s)|by apply (ip_wf_frame s)].
Qed.

Lemma flavor_op_inv s o :
  (exists fi n, o = SetCores fi n \/ o = SetMemory fi n \/ o = SetDisk fi n) ->
  preserves flavor_wf (exec o) ->
  flavor_wf s -> ip_wf s -> objects_part s -> store_inv (final (exec o s)).
Proof.
  intros Ho Hpres Hf Hi Hobj.
  destruct (flavor_setter_keeps (st_ips s) (st_objects s) (st_next s) o Ho s ltac:(by split_and!))
    as (Hi' & Ho' & Hn').
  apply store_inv_parts. split_and!; [by apply Hpres|by apply (ip_wf_frame s)|by apply (objects_part_frame s)].
Qed.

Lemma exec_store_inv s o : op_ok s o -> store_inv s -> store_inv (final (exec o s)).
Proof.
  intros Hop Hinv. apply store_inv_parts in Hinv as (Hf & Hi & Hobj).
  destruct o as [fi n|fi n|fi n|self h value|h|p].
  - apply flavor_op_inv; eauto. exact (setter_shape_preserves fi _ _ _ _ _ _ (cpu_args_ok n)).
  - apply flavor_op_inv; eauto. exact (setter_shape_preserves fi _ _ _ _ _ _ (ram_args_ok n)).
  - apply flavor_op_inv; eauto. apply set_disk_preserves.
  - destruct (set_ip_addresses_spec self h value s Hi) as (s' & Hs & Hi' & _).
    destruct (ip_setter_keeps (st_models s) (st_components s) (st_objects s) (st_next s) self h value s
                ltac:(by split_and!)) as (Hm & Hc & Ho & Hn).
    unfold exec. rewrite Hs in Hm, Hc, Ho, Hn |- *. cbn in Hm, Hc, Ho, Hn |- *. apply store_inv_parts.
    split_and!; [by apply (flavor_wf_frame s)|done|by apply (objects_part_frame s)].
  - destruct Hop as (Hh & Hl & Hpe). cbn. rewrite final_seq_ret. apply store_inv_parts.
    destruct (objects_only_frame s _ (cloudhost_save_objects_only h s Hpe) Hf Hi).
    split_and!; [done|done|by apply save_host_objects].
  - destruct Hop as (Hpj & Hl & Hpe & Hnp). cbn. rewrite final_seq_ret. apply store_inv_parts.
    destruct (objects_only_frame s _ (cloudproject_save_objects_only p s) Hf Hi).
    split_and!; [done|done|by apply save_project_objects].
Qed.

(** ** Example stores *)

Definition web_project (e : option nat) : BaseObject :=
  mkBaseObject (Some 1) (KCloudProject (mkCloudProject 3 "p-1" "web")) None e.

Definition web_host (parent : nat) (e : option nat) : BaseObject :=
  mkBaseObject (Some 3) (KCloudHost (mkCloudHost 1 3 "i-1" "web-1" None None)) (Some parent) e.

(** A project with one host. *)
Definition sys_init : Store := mkStore 10 [] [web_project (Some 5); web_host 1 (Some 5)] [] [] [] [].

Lemma empty_tables_wf n provs objs log :
  flavor_wf (mkStore n provs objs [] [] [] log) /\ ip_wf (mkStore n provs objs [] [] [] log).
Proof.
  split; constructor; try split; try constructor.
  intros. unfold typed_components. simpl. lia.
Qed.

Lemma sys_init_inv : store_inv sys_init.
Proof.
  apply store_inv_parts. destruct (empty_tables_wf 10 [] (st_objects sys_init) []) as [Hf Hi].
  split_and!; [done|done|]. apply objects_partb_spec. vm_compute. reflexivity.
Qed.

(** Project 1, project 2 under project 1, and a host under project 2. *)
Definition batch_project (e : option nat) : BaseObject :=
  mkBaseObject (Some 2) (KCloudProject (mkCloudProject 3 "p-2" "batch")) (Some 1) e.

Definition nested_store : Store :=
  mkStore 10 [] [web_project (Some 5); batch_project (Some 5); web_host 2 (Some 5)] [] [] [] [].

(** ** Properties *)

(** C16: from a store that satisfies the invariant, every sequence of
    handler calls (flavor setters, the [ip_addresses] setter, host and
    project saves that respect the foreign keys and do not put a project
    under a project) reaches only stores that satisfy it: one component
    per type per flavor, unique IP addresses, unique keys, existing
    parents, and every host under a project has the project's
    service/environment. *)
Theorem reachable_store_inv init s : store_inv init -> reachable init s -> store_inv s.
Proof.
  intros Hinit Hr. induction Hr as [|s s' _ IH Hstep]; [done|].
  destruct Hstep as [s o Hop]. by apply exec_store_inv.
Qed.

Lemma reachable_store_inv_witness :
  store_inv (final (exec (SaveCloudProject (web_project (Some 7))) sys_init)).
Proof.
  apply (reachable_store_inv sys_init); [apply sys_init_inv|].
  eapply reach_step; [apply reach_init|]. constructor.
  split_and!; [reflexivity| |by intros q|by intros q].
  intros id [= <-]. eexists. split_and!; reflexivity.
Defined.

(** C17 (one-level propagation): take a project [p], a project [q] under
    it and a host [h] under [q], in any store with unique keys.  Saving
    [p] with a service/environment [e] that [h] does not have leaves a
    store where [h] no longer has its parent project's value: the
    receiver's [QuerySet.update] gives [q] the value [e] and sends no
    [post_save], so nothing reaches the hosts under [q].  [System]'s
    requests exclude such stores through [projects_not_nested]. *)
Theorem nested_projects_break_hosts_follow s p q h pid qid e :
  objects_ok s -> find_object pid s = Some p -> find_object qid s = Some q ->
  is_project p = true -> is_project q = true -> In h (st_objects s) -> is_host h = true ->
  bo_parent q = Some pid -> bo_parent h = Some qid -> qid <> pid ->
  existsb (clashes p) (st_objects s) = false -> e <> bo_service_env h ->
  ~ hosts_follow_projects (final (exec (SaveCloudProject (with_service_env p e)) s)).
Proof.
  intros [Hnd _] Hp Hq Hpp Hqp Hh Hhh Hqpar Hhpar Hne Hc He Hfollow.
  unfold exec, bind in Hfollow. rewrite (cloudproject_save_set_env s p pid e Hnd Hp Hc) in Hfollow.
  cbn [final] in Hfollow.
  set (f := fun y => child_update pid e (env_at pid e y)) in Hfollow.
  assert (Hf : forall y, bo_pk (f y) = bo_pk y /\ bo_kind (f y) = bo_kind y /\
             bo_parent (f y) = bo_parent y /\
             bo_service_env (f y) = if bool_decide (bo_parent y = Some pid) then e
                                    else if obj_has_pk pid y then e else bo_service_env y).
  { intros y. unfold f. destruct (child_update_fields pid e (env_at pid e y)) as (-> & -> & -> & ->).
    destruct (env_at_fields pid e y) as (-> & -> & -> & ->). done. }
  pose proof (host_project_keys s h p pid Hnd Hh Hhh Hp Hpp) as Hqid.
  apply He. destruct (Hf h) as (_ & Hhk & Hhp & Hhe). destruct (Hf q) as (_ & Hqk & _ & Hqe).
  rewrite bool_decide_eq_false_2, Hqid in Hhe by congruence.
  rewrite bool_decide_eq_true_2 in Hqe by done. rewrite <- Hhe, <- Hqe. symmetry.
  apply (Hfollow (f h) qid (f q)).
  - apply in_map_iff. by exists h.
  - unfold is_host in *. by rewrite Hhk.
  - by rewrite Hhp.
  - rewrite (map_rows_find f s (set_objects (map f (st_objects s)) s) (fun y => proj1 (Hf y)) eq_refl).
    by rewrite Hq.
  - unfold is_project in *. by rewrite Hqk.
Qed.

Lemma nested_projects_break_hosts_follow_witness :
  ~ hosts_follow_projects (final (exec (SaveCloudProject (with_service_env (web_project (Some 5)) (Some 6)))
                                       nested_store)).
Proof.
  apply (nested_projects_break_hosts_follow nested_store (web_project (Some 5)) (batch_project (Some 5))
           (web_host 2 (Some 5)) 1 2 (Some 6)); try reflexivity; try discriminate.
  - apply objects_okb_spec. vm_compute. reflexivity.
  - by right; right; left.
Defined.
