(* ===== verification/Repair.v ===== *)
(** * Repairing the host/project invariant by saving hosts again

    [CloudHost.save] recomputes the host's service/environment from its
    parent, so saving every host once, in any store whose keys are unique
    and fresh, whose parents exist and whose unique fields do not clash,
    reaches a store where every host under a project has the project's
    service/environment; this holds even with projects nested under
    projects, where the [post_save] propagation alone does not (see
    [System.nested_projects_break_hosts_follow]).  The repair is a
    sequence of [System] steps, one [SaveCloudHost] per host row. *)

From stdpp Require Import relations.
From S2P Require Import Prelude Orm Format Flavor Host Project System.

(** ** The repair *)

(** The spec's rule for one row. *)
Definition host_follows (s : Store) (h : BaseObject) : Prop :=
  is_host h = true -> forall p po, bo_parent h = Some p -> find_object p s = Some po ->
    is_project po = true -> bo_service_env h = bo_service_env po.

Definition no_clashes (s : Store) : Prop :=
  forall x y, In x (st_objects s) -> In y (st_objects s) -> clashes x y = false.

Definition repairable (s : Store) : Prop := objects_ok s /\ parents_exist s /\ no_clashes s.

(** Loading host row [h] and calling [h.save()]. *)
Definition resave (s : Store) (h : BaseObject) : Store := final (exec (SaveCloudHost h) s).

(** [for h in CloudHost.objects.all(): h.save()]. *)
Definition resave_hosts (s : Store) : Store :=
  fold_left resave (List.filter is_host (st_objects s)) s.

(** Two stores with the same project rows under the same keys. *)
Definition same_projects (s s' : Store) : Prop :=
  forall p po, is_project po = true -> find_object p s' = Some po <-> find_object p s = Some po.

(** ** Lemmas *)

Lemma host_follows_same_projects s s' x :
  same_projects s s' -> host_follows s x -> host_follows s' x.
Proof. intros Hsp Hf Hh p po Hp Hpo Hpj. apply (Hf Hh p po Hp); [by apply Hsp|done]. Qed.

Lemma same_projects_trans s1 s2 s3 :
  same_projects s1 s2 -> same_projects s2 s3 -> same_projects s1 s3.
Proof. intros H12 H23 p po Hpj. by rewrite (H23 p po Hpj), (H12 p po Hpj). Qed.

Lemma hosts_follow_rows s : hosts_follow_projects s <-> forall x, In x (st_objects s) -> host_follows s x.
Proof. unfold hosts_follow_projects, host_follows. naive_solver. Qed.

Lemma loaded_row s h : objects_ok s -> In h (st_objects s) -> loaded_or_new s h.
Proof. intros Hok Hh id Hid. exists h. split; [by apply find_object_spec; [apply Hok|]|done]. Qed.

Lemma no_clashes_existsb s o :
  no_clashes s -> In o (st_objects s) -> existsb (clashes o) (st_objects s) = false.
Proof.
  intros Hnc Ho. apply not_true_iff_false. intros (y & Hy & Hc)%existsb_exists.
  rewrite (Hnc o y Ho Hy) in Hc. discriminate.
Qed.

(** Every row after an upsert has the key and kind of a row before. *)
Lemma upserted_rows s s' o' o :
  upserted s s' o' -> In o (st_objects s) -> bo_kind o' = bo_kind o -> bo_pk o' = bo_pk o ->
  forall x, In x (st_objects s') ->
    exists x0, In x0 (st_objects s) /\ bo_kind x = bo_kind x0 /\ bo_pk x = bo_pk x0.
Proof. intros Hup Ho Hk Hp x [->|[Hx _]]%Hup; eauto. Qed.

(** Saving a loaded host row: a [System] step that keeps the store
    repairable and the projects, makes the host follow its project, and
    keeps every other row. *)
Lemma resave_spec s h :
  repairable s -> In h (st_objects s) -> is_host h = true ->
  step s (resave s h) /\ repairable (resave s h) /\ same_projects s (resave s h) /\
  (forall x, In x (st_objects (resave s h)) ->
     (bo_pk x = bo_pk h /\ host_follows (resave s h) x) \/
     (In x (st_objects s) /\ bo_pk x <> bo_pk h)) /\
  (forall x, In x (st_objects s) -> bo_pk x <> bo_pk h -> In x (st_objects (resave s h))).
Proof.
  intros (Hok & Hpar & Hnc) Hh Hhost.
  pose proof (loaded_row s h Hok Hh) as Hl. pose proof (Hpar h Hh) as Hpe.
  split; [by constructor|].
  unfold resave. cbn [exec]. rewrite final_seq_ret.
  destruct (cloudhost_save_reduces h s Hpe) as (h1 & -> & Hpk & Hk & Hp & Hse).
  assert (Hc : existsb (clashes h1) (st_objects s) = false).
  { rewrite <- (no_clashes_existsb s h Hnc Hh). apply existsb_ext_bool. intros x.
    by apply clashes_same_kind. }
  destruct (save_object_spec h1 s Hc) as (o' & s' & Hs & _). rewrite Hs. cbn [final].
  assert (Hl1 : loaded_or_new s h1) by by apply (loaded_or_new_same s h1 h).
  assert (Hpe1 : parent_exists s h1) by (intros q Hq; apply Hpe; congruence).
  destruct (save_object_upsert _ _ _ _ Hok Hl1 Hs) as [Hok' Hup].
  destruct (save_keys_parents s h1 o' s' Hok Hpar Hl1 Hpe1 Hs) as [_ Hpar'].
  destruct (save_object_fields _ _ _ _ Hs) as (Hk' & Hp' & Hse' & Hsome & _).
  destruct (proj1 (List.Forall_forall _ _) (proj2 Hok) h Hh) as (id & Hid & _).
  assert (Ho'pk : bo_pk o' = bo_pk h) by (rewrite Hid; apply Hsome; congruence).
  assert (Ho'k : bo_kind o' = bo_kind h) by congruence.
  assert (Ho'p : is_project o' = false)
    by (rewrite (proj2 (kind_class _ _ Ho'k)); by apply host_not_project).
  assert (Hsp : same_projects s s').
  { intros p po Hpj. rewrite (find_upserted s s' o' Hok Hok' Hup). split.
    - intros [[-> _]|[Hf _]]; [congruence|done].
    - intros Hf. right. split; [done|]. intros Hq.
      assert (find_object p s = Some h) by (apply find_object_spec; [apply Hok|split; [done|congruence]]).
      assert (po = h) as -> by congruence. pose proof (host_not_project h Hhost). congruence. }
  refine (conj (conj Hok' (conj Hpar' _)) (conj Hsp (conj _ _))).
  - intros x y Hx Hy.
    destruct (upserted_rows s s' o' h Hup Hh Ho'k Ho'pk x Hx) as (x0 & Hx0 & Hxk & Hxp).
    destruct (upserted_rows s s' o' h Hup Hh Ho'k Ho'pk y Hy) as (y0 & Hy0 & Hyk & Hyp).
    rewrite (clashes_same_kind x0 x y), (clashes_same_kind_r x0 y0 y) by done. by apply Hnc.
  - intros x [->|[Hx Hne]]%Hup; [left|right; by rewrite <- Ho'pk].
    split; [done|]. intros _ p po Hpp Hf Hpj. rewrite Hse'.
    apply (Hse p po); [congruence|]. by apply Hsp.
  - intros x Hx Hne. apply Hup. right. by rewrite Ho'pk.
Qed.

(** Saving the rows of [L] one after the other. *)
Lemma resave_list L s :
  repairable s -> (forall h, In h L -> In h (st_objects s) /\ is_host h = true) ->
  NoDup (map bo_pk L) ->
  rtc step s (fold_left resave L s) /\ repairable (fold_left resave L s) /\
  same_projects s (fold_left resave L s) /\
  (forall x, In x (st_objects (fold_left resave L s)) ->
     ((exists h, In h L /\ bo_pk x = bo_pk h) /\ host_follows (fold_left resave L s) x) \/
     (In x (st_objects s) /\ forall h, In h L -> bo_pk x <> bo_pk h)).
Proof.
  revert s. induction L as [|h L IH]; intros s Hrep HL Hnd; cbn [fold_left].
  { split_and!; [done|done|by intros p po|]. intros x Hx. by right. }
  inversion Hnd as [|? ? Hnin Hnd']; subst.
  destruct (HL h (or_introl eq_refl)) as [Hh Hhost].
  destruct (resave_spec s h Hrep Hh Hhost) as (Hstep & Hrep1 & Hsp1 & Hrows1 & Hkeep1).
  destruct (IH (resave s h) Hrep1) as (Hrtc & Hrep' & Hsp' & Hrows'); [|done|].
  { intros h' Hh'. destruct (HL h' (or_intror Hh')) as [Hin Hhost']. split; [|done].
    apply Hkeep1; [done|]. intros Heq. apply Hnin. apply list_elem_of_In, in_map_iff. eauto. }
  split_and!; [by eapply rtc_l|done|by eapply same_projects_trans|].
  intros x Hx. destruct (Hrows' x Hx) as [[(h' & Hh' & Hx') Hf]|[Hx1 Hne]].
  - left. split; [|done]. exists h'. split; [by right|done].
  - destruct (Hrows1 x Hx1) as [[Hxh Hf]|[Hx0 Hne0]].
    + left. split; [exists h; split; [by left|done]|]. by apply (host_follows_same_projects (resave s h)).
    + right. split; [done|]. intros h'' [<-|Hh'']; [done|by apply Hne].
Qed.

(** ** Executable check of the precondition *)

Definition no_clashesb (s : Store) : bool :=
  forallb (fun x => forallb (fun y => negb (clashes x y)) (st_objects s)) (st_objects s).

Lemma no_clashesb_spec s : no_clashesb s = true <-> no_clashes s.
Proof.
  unfold no_clashesb, no_clashes. rewrite forallb_forall. setoid_rewrite forallb_forall.
  setoid_rewrite negb_true_iff. naive_solver.
Qed.

(** ** Properties *)

(** C24 (liveness): from any store whose keys are unique and fresh,
    whose parents exist and whose unique fields do not clash (projects may
    be nested), saving every host once is a sequence of [System] steps
    that ends in a store where every host under a project has the
    project's service/environment. *)
Theorem resave_hosts_repairs s :
  repairable s -> rtc step s (resave_hosts s) /\ hosts_follow_projects (resave_hosts s).
Proof.
  intros Hrep. unfold resave_hosts.
  destruct (resave_list (List.filter is_host (st_objects s)) s Hrep) as (Hrtc & _ & _ & Hrows).
  - intros h (Hh & Hhost)%filter_In. done.
  - apply NoDup_map_filter, Hrep.
  - split; [done|]. apply hosts_follow_rows. intros x Hx.
    destruct (Hrows x Hx) as [[_ Hf]|[Hx0 Hne]]; [done|].
    intros Hhost. exfalso. apply (Hne x); [by apply filter_In|done].
Qed.

(** The nested store of [System] after the top project's save: the host under the
    inner project is out of date until it is saved again. *)
Lemma resave_hosts_repairs_witness :
  let s := final (exec (SaveCloudProject (web_project (Some 6))) nested_store) in
  rtc step s (resave_hosts s) /\ hosts_follow_projects (resave_hosts s).
Proof.
  apply resave_hosts_repairs. split_and!.
  - apply objects_okb_spec. vm_compute. reflexivity.
  - apply parents_existb_spec. vm_compute. reflexivity.
  - apply no_clashesb_spec. vm_compute. reflexivity.
Defined.
