(* ===== verification/Signals.v ===== *)
(** * [Model.save] with its [post_save] signal

    Django's [Model.save()] writes the row, then sends [post_save] with
    [sender] the class of the instance being saved, and every receiver
    registered for that sender runs in registration order ([send], so an
    exception in a receiver propagates).  A receiver may itself save
    instances, which sends signals again: the dispatch is recursive, and
    Python stops a recursion that is too deep with [RecursionError].  The
    dispatch is therefore written with fuel ([instance_save]); the fuel
    bounds the nesting of saves, and running out of it raises
    [RecursionError].

    This repository registers one receiver,
    [update_service_env_on_cloudproject_save] for [sender=CloudProject]
    (models.py lines 128-132), and overrides [save] in [CloudHost]
    (lines 136-141).  The receiver saves no instance (it runs
    [QuerySet.update], which sends no signal), so with any fuel of at
    least one the dispatch is the composition [System] uses for
    [CloudHost.save] and [CloudProject.save]
    ([instance_save_handlers]).  The property of this file is about the
    registry: the receiver is connected for the class [CloudProject]
    only, so a project row saved through an instance of the parent class
    [BaseObject] runs no receiver and its hosts keep their old
    service/environment. *)

From S2P Require Import Prelude Orm Format Flavor Host Project System.

(** ** Classes, receivers and the dispatch *)

(** The Python class of the instance [save()] is called on.  With
    multi-table inheritance a row can be loaded through its own class or
    through [BaseObject]. *)
Inductive PyClass :=
| CBaseObject | CCloudFlavor | CCloudProject | CCloudHost | CDatabase | CVIP | CVirtualServer.

#[export] Instance PyClass_eq_dec : EqDecision PyClass.
Proof. solve_decision. Defined.

(** The most derived class of a row. *)
Definition class_of_kind (k : ObjKind) : PyClass :=
  match k with
  | KDatabase => CDatabase
  | KVIP => CVIP
  | KVirtualServer => CVirtualServer
  | KCloudFlavor _ => CCloudFlavor
  | KCloudProject _ => CCloudProject
  | KCloudHost _ => CCloudHost
  | KOther => CBaseObject
  end.

(** The receivers this repository connects. *)
Inductive Receiver := UpdateServiceEnvOnCloudProjectSave.

(** [@receiver(models.signals.post_save, sender=CloudProject)]. *)
Definition registry : list (PyClass * Receiver) :=
  [(CCloudProject, UpdateServiceEnvOnCloudProjectSave)].

(** The receivers [post_save.send(sender=cls, ...)] calls, in order. *)
Definition receivers_for (cls : PyClass) : list Receiver :=
  snd <$> List.filter (fun cr => bool_decide (cr.1 = cls)) registry.

(** Running a receiver; [save] is how a receiver would save an instance
    of a class (none of this repository's does). *)
Definition run_receiver (save : PyClass -> BaseObject -> M Store BaseObject)
    (r : Receiver) (instance : BaseObject) : M Store unit :=
  match r with
  | UpdateServiceEnvOnCloudProjectSave => update_service_env_on_cloudproject_save instance
  end.

(** [instance.save()] on an instance of class [cls]: the class's [save]
    override, whose [super().save()] is [Model.save]: the row, then
    [post_save] to the receivers of [cls]; receivers' own saves use one
    unit of fuel less. *)
Fixpoint instance_save (fuel : nat) (cls : PyClass) (o : BaseObject) : M Store BaseObject :=
  match fuel with
  | 0 => raise RecursionError
  | S f =>
      let model_save (o' : BaseObject) : M Store BaseObject :=
        saved <- save_object o' ;;
        for_each (receivers_for cls) (fun r => run_receiver (instance_save f) r saved) ;;;
        ret saved in
      match cls with
      | CCloudHost => cloudhost_save_with (parent_of o) model_save o
      | _ => model_save o
      end
  end.

(** ** Lemmas *)

(** [m ;;; ret tt] and [m] give the same outcome on a statement. *)
Lemma seq_ret_tt {A} (m : M Store A) (k : A -> M Store A) s :
  (forall a s', k a s' = Ok a s') -> bind m k s = m s.
Proof. intros Hk. unfold bind. destruct (m s); [apply Hk|done]. Qed.

Lemma cloudhost_save_with_ext parent f g self s :
  (forall o s', f o s' = g o s') ->
  cloudhost_save_with parent f self s = cloudhost_save_with parent g self s.
Proof. intros Hfg. unfold cloudhost_save_with, bind. case_match; [apply Hfg|done]. Qed.

(** With any fuel, [CloudProject.save()] is the save followed by the
    receiver ([Project.cloudproject_save]) and [CloudHost.save()] is its
    override around a save whose signal nobody receives
    ([Host.cloudhost_save]). *)
Lemma instance_save_handlers f p h s :
  instance_save (S f) CCloudProject p s = cloudproject_save p s /\
  instance_save (S f) CCloudHost h s = cloudhost_save h s.
Proof.
  split.
  - cbn [instance_save]. unfold cloudproject_save, bind. case_match; [|done].
    change (receivers_for CCloudProject) with [UpdateServiceEnvOnCloudProjectSave].
    cbn [for_each run_receiver]. unfold bind, ret.
    by destruct (update_service_env_on_cloudproject_save _ _).
  - cbn [instance_save]. unfold cloudhost_save. apply cloudhost_save_with_ext.
    intros o s'. apply seq_ret_tt. intros a s1. reflexivity.
Qed.

(** No receiver is connected for [BaseObject]: saving through it is the
    row save alone. *)
Lemma instance_save_base_object f o s : instance_save (S f) CBaseObject o s = save_object o s.
Proof. apply seq_ret_tt. intros a s'. reflexivity. Qed.

(** ** Properties *)

(** C25: the receiver is connected with [sender=CloudProject].  Take a
    project row [po] and a host [h] under it, in any store with unique
    keys, and the same row with a new service/environment [e].  Saved
    through a [CloudProject] instance, the host's row gets [e].  Saved
    through an instance of the parent class [BaseObject], [post_save] is
    sent with [sender=BaseObject], no receiver runs, the host's row is
    unchanged, and when [e] is not the host's value the store breaks the
    spec's invariant that hosts follow their project. *)
Theorem save_as_base_object_skips_propagation f s po pid h e :
  objects_ok s -> find_object pid s = Some po -> is_project po = true ->
  existsb (clashes po) (st_objects s) = false ->
  In h (st_objects s) -> is_host h = true -> bo_parent h = Some pid -> e <> bo_service_env h ->
  (exists s', instance_save (S f) CCloudProject (with_service_env po e) s = Ok (with_service_env po e) s' /\
     In (with_service_env h e) (st_objects s')) /\
  (exists s', instance_save (S f) CBaseObject (with_service_env po e) s = Ok (with_service_env po e) s' /\
     In h (st_objects s') /\ ~ hosts_follow_projects s').
Proof.
  intros [Hnd _] Hpo Hpp Hc Hh Hhh Hhp He.
  pose proof (host_project_keys s h po pid Hnd Hh Hhh Hpo Hpp) as Hhk.
  split.
  - eexists. rewrite (proj1 (instance_save_handlers f _ h s)), (cloudproject_save_set_env s po pid e Hnd Hpo Hc).
    split; [reflexivity|]. apply in_map_iff. exists h. split; [|done].
    by rewrite env_at_other, child_update_child.
  - eexists. rewrite instance_save_base_object, (save_object_set_env s po pid e Hnd Hpo Hc).
    split; [reflexivity|]. split; [apply in_map_iff; exists h; by rewrite env_at_other|].
    intros Hfollow. apply He. symmetry.
    apply (Hfollow h pid (with_service_env po e)); [apply in_map_iff; exists h; by rewrite env_at_other|done|done| |done].
    rewrite (map_rows_find (env_at pid e) s (set_objects (map (env_at pid e) (st_objects s)) s)
               (fun y => proj1 (env_at_fields pid e y)) eq_refl), Hpo.
    cbn [fmap option_fmap option_map]. rewrite env_at_self; [done|].
    by apply (find_object_spec s pid po Hnd) in Hpo as [_ ->].
Qed.

Lemma save_as_base_object_skips_propagation_witness :
  (exists s', instance_save 1 CCloudProject (with_service_env (web_project (Some 5)) (Some 7)) sys_init =
              Ok (with_service_env (web_project (Some 5)) (Some 7)) s' /\
     In (with_service_env (web_host 1 (Some 5)) (Some 7)) (st_objects s')) /\
  (exists s', instance_save 1 CBaseObject (with_service_env (web_project (Some 5)) (Some 7)) sys_init =
              Ok (with_service_env (web_project (Some 5)) (Some 7)) s' /\
     In (web_host 1 (Some 5)) (st_objects s') /\ ~ hosts_follow_projects s').
Proof.
  apply (save_as_base_object_skips_propagation 0 sys_init (web_project (Some 5)) 1 (web_host 1 (Some 5)));
    try reflexivity; try discriminate.
  - apply (inv_objects _ sys_init_inv).
  - by right; left.
Defined.
