(* ===== verification/Interleave.v ===== *)
(** * A [CloudHost] instance and its cached parent

    [self.parent] is Django's forward many-to-one descriptor: the first
    access on an instance queries the parent row and caches the object on
    the instance, later accesses return the cached object.
    [CloudHost.save] reads [self.parent], so after a first [save()] the
    instance holds its parent as it was then.  An instance is modelled as
    its row and that cache ([HostInstance]); saving it threads the
    instance ([host_instance_save]).  A freshly loaded instance
    ([load_host]) reads its parent by a query, as [Host.cloudhost_save]
    does.  The theorem of this file runs "save the host, save its project
    with a new service/environment, save the same host instance again" on
    any store: the second save writes the old value back over the one the
    project's receiver propagated, where a host loaded again gets the new
    one.  The saves are tracked row by row with [System.env_at]: each
    save of a loaded row changes only that row's service/environment. *)

From S2P Require Import Prelude Orm Format Flavor Host Project System.

(** ** Instances *)

Record HostInstance := mkHostInstance {
  hi_row : BaseObject;
  hi_parent_cache : option BaseObject;
}.

(** [self.parent]: the cached related object, or a query. *)
Definition parent_access (hi : HostInstance) : M Store BaseObject :=
  match hi_parent_cache hi with
  | Some p => ret p
  | None => parent_of (hi_row hi)
  end.

(** The cache after an access on store [s]: the query's result is kept. *)
Definition cache_after (hi : HostInstance) (s : Store) : option BaseObject :=
  match hi_parent_cache hi with
  | Some p => Some p
  | None => match bo_parent (hi_row hi) with Some q => find_object q s | None => None end
  end.

(** [host.save()] on an instance: lines 136-141 with [self.parent] read
    through the descriptor; the instance keeps the saved fields and the
    parent it read. *)
Definition host_instance_save (hi : HostInstance) : M Store HostInstance :=
  s <- get_st ;;
  saved <- cloudhost_save_with (parent_access hi) save_object (hi_row hi) ;;
  ret (mkHostInstance saved (cache_after hi s)).

(** A host loaded from the database, its parent not yet accessed. *)
Definition load_host (row : BaseObject) : HostInstance := mkHostInstance row None.

(** ** The interleaving *)

(** Save the host instance, save its project with service/environment
    [e], save the same host instance again. *)
Definition host_project_host (hi : HostInstance) (project : BaseObject) : M Store HostInstance :=
  hi1 <- host_instance_save hi ;;
  cloudproject_save project ;;;
  host_instance_save hi1.

(** The same requests with the host loaded again for its second save. *)
Definition host_project_reload (hi : HostInstance) (project : BaseObject) : M Store HostInstance :=
  hi1 <- host_instance_save hi ;;
  cloudproject_save project ;;;
  host_instance_save (load_host (hi_row hi1)).

(** ** Lemmas *)

(** Saving a host instance whose row is a loaded row [x] (with any
    service/environment) and whose [self.parent] gives [p]: the row [x]
    with [p]'s service/environment replaces [x]. *)
Lemma host_instance_save_set_env hi s x hid p :
  NoDup (map bo_pk (st_objects s)) -> find_object hid s = Some x ->
  existsb (clashes x) (st_objects s) = false ->
  bo_pk (hi_row hi) = bo_pk x -> bo_kind (hi_row hi) = bo_kind x -> bo_parent (hi_row hi) = bo_parent x ->
  parent_access hi s = Ok p s ->
  host_instance_save hi s =
  Ok (mkHostInstance (with_service_env x (bo_service_env p)) (cache_after hi s))
     (set_objects (map (env_at hid (bo_service_env p)) (st_objects s)) s).
Proof.
  intros Hnd Hx Hc Hpk Hk Hp Hpa.
  unfold host_instance_save, get_st, bind at 1, cloudhost_save_with, try_except, bind. rewrite Hpa. cbn.
  replace (with_service_env (hi_row hi) (bo_service_env p)) with (with_service_env x (bo_service_env p))
    by (unfold with_service_env; congruence).
  by rewrite (save_object_set_env s x hid _ Hnd Hx Hc).
Qed.

(** A bulk rewrite of rows that keeps keys and classes keeps unique keys,
    the absence of clashes and the result of every lookup. *)
Lemma rows_map_facts f s s' :
  (forall y, bo_pk (f y) = bo_pk y /\ bo_kind (f y) = bo_kind y) ->
  st_objects s' = map f (st_objects s) -> NoDup (map bo_pk (st_objects s)) ->
  NoDup (map bo_pk (st_objects s')) /\
  (forall o, existsb (clashes o) (st_objects s') = existsb (clashes o) (st_objects s)) /\
  (forall q, find_object q s' = f <$> find_object q s).
Proof.
  intros Hf Hrows Hnd. split_and!.
  - rewrite Hrows, map_map. by rewrite (map_ext _ _ (fun y => proj1 (Hf y))).
  - intros o. rewrite Hrows. by apply existsb_clashes_map.
  - intros q. by apply (map_rows_find f s s' (fun y => proj1 (Hf y))).
Qed.

Lemma env_at_shape id e y : bo_pk (env_at id e y) = bo_pk y /\ bo_kind (env_at id e y) = bo_kind y.
Proof. by destruct (env_at_fields id e y) as (-> & -> & _). Qed.

(** The store after saving a host instance, row by row: unique keys and
    clashes as before, the host's row with the service/environment of the
    parent it read, every other row unchanged. *)
Lemma host_instance_save_row hi s x hid p :
  NoDup (map bo_pk (st_objects s)) -> find_object hid s = Some x ->
  existsb (clashes x) (st_objects s) = false ->
  bo_pk (hi_row hi) = bo_pk x -> bo_kind (hi_row hi) = bo_kind x -> bo_parent (hi_row hi) = bo_parent x ->
  parent_access hi s = Ok p s ->
  exists s', host_instance_save hi s =
               Ok (mkHostInstance (with_service_env x (bo_service_env p)) (cache_after hi s)) s' /\
    NoDup (map bo_pk (st_objects s')) /\
    (forall o, existsb (clashes o) (st_objects s') = existsb (clashes o) (st_objects s)) /\
    find_object hid s' = Some (with_service_env x (bo_service_env p)) /\
    (forall q y, find_object q s = Some y -> obj_has_pk hid y = false -> find_object q s' = Some y).
Proof.
  intros Hnd Hx Hc Hpk Hk Hp Hpa.
  destruct (rows_map_facts (env_at hid (bo_service_env p)) s
              (set_objects (map (env_at hid (bo_service_env p)) (st_objects s)) s)
              (env_at_shape hid _) eq_refl Hnd) as (Hnd' & Hcl' & Hf').
  eexists. split; [by apply host_instance_save_set_env|]. split_and!; [done|done| |].
  - rewrite Hf', Hx. cbn. rewrite env_at_self; [done|].
    by apply (find_object_spec s hid x Hnd) in Hx as [_ ->].
  - intros q y Hy Hid. rewrite Hf', Hy. cbn. by rewrite env_at_other.
Qed.

(** The store after saving a loaded project with [e], row by row. *)
Lemma cloudproject_save_row s po pid e :
  NoDup (map bo_pk (st_objects s)) -> find_object pid s = Some po ->
  existsb (clashes po) (st_objects s) = false ->
  exists s', cloudproject_save (with_service_env po e) s = Ok (with_service_env po e) s' /\
    NoDup (map bo_pk (st_objects s')) /\
    (forall o, existsb (clashes o) (st_objects s') = existsb (clashes o) (st_objects s)) /\
    (forall q y, find_object q s = Some y -> find_object q s' = Some (child_update pid e (env_at pid e y))).
Proof.
  intros Hnd Hpo Hc.
  assert (HG : forall y, bo_pk (child_update pid e (env_at pid e y)) = bo_pk y /\
                         bo_kind (child_update pid e (env_at pid e y)) = bo_kind y).
  { intros y. destruct (child_update_fields pid e (env_at pid e y)) as (-> & -> & _). apply env_at_shape. }
  destruct (rows_map_facts _ s (set_objects (map (fun y => child_update pid e (env_at pid e y)) (st_objects s)) s)
              HG eq_refl Hnd) as (Hnd' & Hcl' & Hf').
  eexists. split; [by apply cloudproject_save_set_env|]. split_and!; [done|done|].
  intros q y Hy. by rewrite Hf', Hy.
Qed.

(** ** Properties *)

(** C26 (ordering, a stale cache): take a host [h] under a project [po],
    loaded rows of any store with unique keys and no unique-key clash,
    and a new service/environment [e] for the project.  "Save the host
    instance, save the project with [e], save the same host instance
    again" ends with the host's row on the project's old value while the
    project's row has [e], so the store breaks the spec's invariant: the
    second [CloudHost.save] copies from the parent object the instance
    cached at its first save.  Loading the host again before its second
    save ends with the host's row on [e]. *)
Theorem stale_parent_cache_breaks_hosts_follow s h po hid pid e :
  objects_ok s -> find_object hid s = Some h -> find_object pid s = Some po ->
  is_host h = true -> is_project po = true -> bo_parent h = Some pid ->
  existsb (clashes h) (st_objects s) = false -> existsb (clashes po) (st_objects s) = false ->
  e <> bo_service_env po ->
  (exists hi s', host_project_host (load_host h) (with_service_env po e) s = Ok hi s' /\
     find_object hid s' = Some (with_service_env h (bo_service_env po)) /\
     find_object pid s' = Some (with_service_env po e) /\ ~ hosts_follow_projects s') /\
  (exists hi s', host_project_reload (load_host h) (with_service_env po e) s = Ok hi s' /\
     find_object hid s' = Some (with_service_env h e) /\
     find_object pid s' = Some (with_service_env po e)).
Proof.
  intros [Hnd _] Hh Hpo Hhh Hpp Hhp Hch Hcp He.
  destruct (proj1 (find_object_spec s hid h Hnd) Hh) as [Hhin Hhpk].
  destruct (proj1 (find_object_spec s pid po Hnd) Hpo) as [Hpoin Hpopk].
  pose proof (host_project_keys s h po pid Hnd Hhin Hhh Hpo Hpp) as Hhk.
  assert (Hpok : obj_has_pk hid po = false).
  { destruct (obj_has_pk hid po) eqn:E; [|done]. apply obj_has_pk_spec in E.
    assert (h = po) as -> by (apply (NoDup_map_eq_in bo_pk (st_objects s)); congruence).
    by rewrite (host_not_project po Hhh) in Hpp. }
  (* the first save of the host, then the project's *)
  destruct (host_instance_save_row (load_host h) s h hid po Hnd Hh Hch eq_refl eq_refl eq_refl
              ltac:(cbn; unfold parent_of, get_object; by rewrite Hhp, Hpo))
    as (s1 & Hs1 & Hnd1 & Hcl1 & Hh1 & Hoth1).
  destruct (cloudproject_save_row s1 po pid e Hnd1 (Hoth1 pid po Hpo Hpok) ltac:(by rewrite Hcl1))
    as (s2 & Hs2 & Hnd2 & Hcl2 & Hf2).
  assert (Hh2 : find_object hid s2 = Some (with_service_env h e)).
  { rewrite (Hf2 _ _ Hh1), env_at_other by exact Hhk. by rewrite child_update_child. }
  assert (Hpo2 : find_object pid s2 = Some (with_service_env po e)).
  { rewrite (Hf2 _ _ (Hoth1 pid po Hpo Hpok)), env_at_self by done. unfold child_update. by case_bool_decide. }
  assert (Hc2 : existsb (clashes (with_service_env h e)) (st_objects s2) = false) by (by rewrite Hcl2, Hcl1).
  assert (Hcache : cache_after (load_host h) s = Some po) by (cbn; by rewrite Hhp, Hpo).
  rewrite Hcache in Hs1.
  split.
  - (* the second save reads the cached parent *)
    destruct (host_instance_save_row (mkHostInstance (with_service_env h (bo_service_env po)) (Some po)) s2
                (with_service_env h e) hid po Hnd2 Hh2 Hc2 eq_refl eq_refl eq_refl eq_refl)
      as (s3 & Hs3 & Hnd3 & _ & Hh3 & Hoth3).
    do 2 eexists. split; [unfold host_project_host, bind; by rewrite Hs1, Hs2, Hs3|].
    split_and!; [done|by apply Hoth3|]. intros Hfollow. apply He. symmetry.
    apply (Hfollow (with_service_env h (bo_service_env po)) pid (with_service_env po e)); try done.
    + by apply (find_object_spec s3 hid).
    + by apply Hoth3.
  - (* a freshly loaded host reads the project's row *)
    destruct (host_instance_save_row (load_host (with_service_env h (bo_service_env po))) s2
                (with_service_env h e) hid (with_service_env po e) Hnd2 Hh2 Hc2 eq_refl eq_refl eq_refl
                ltac:(cbn; unfold parent_of, get_object; cbn; by rewrite Hhp, Hpo2))
      as (s3 & Hs3 & _ & _ & Hh3 & Hoth3).
    do 2 eexists. split; [unfold host_project_reload, bind; rewrite Hs1, Hs2; cbn [hi_row]; by rewrite Hs3|].
    split; [exact Hh3|by apply Hoth3].
Qed.

Lemma stale_parent_cache_breaks_hosts_follow_witness :
  (exists hi s', host_project_host (load_host (web_host 1 (Some 5))) (with_service_env (web_project (Some 5)) (Some 7))
                   sys_init = Ok hi s' /\
     find_object 3 s' = Some (with_service_env (web_host 1 (Some 5)) (Some 5)) /\
     find_object 1 s' = Some (with_service_env (web_project (Some 5)) (Some 7)) /\ ~ hosts_follow_projects s') /\
  (exists hi s', host_project_reload (load_host (web_host 1 (Some 5))) (with_service_env (web_project (Some 5)) (Some 7))
                   sys_init = Ok hi s' /\
     find_object 3 s' = Some (with_service_env (web_host 1 (Some 5)) (Some 7)) /\
     find_object 1 s' = Some (with_service_env (web_project (Some 5)) (Some 7))).
Proof.
  apply (stale_parent_cache_breaks_hosts_follow sys_init (web_host 1 (Some 5)) (web_project (Some 5)) 3 1 (Some 7));
    try reflexivity; try discriminate.
  apply (inv_objects _ sys_init_inv).
Defined.
