(* ===== verification/Race.v ===== *)
(** * Two [ip_addresses] requests racing for one address

    Each claim of the [ip_addresses] setter (models.py lines 168-180) is a
    read, [IPAddress.objects.get(address=ip)] and the test
    [new_ip.base_object is None], followed by a write decided on what was
    read: [new_ip.save()] with the host as owner, a warning, or a new row.
    Nothing locks the row between the two ([select_for_update] is not
    used), so two requests that claim the same free address can both read
    it free: the second write then takes the address from the first host,
    and neither logs the warning the code and the spec promise for an
    address already in use.  [claim_read] and [claim_write] are the two
    halves; [Host.claim_ip] is their sequence; [claims_interleaved] runs
    the two reads before the two writes.

    The component replacement of [CloudFlavor._set_component] (lines
    45-53) has the same shape: it reads whether the flavor uses the model
    and which components of the type it has, then deletes those and
    creates one.  Two requests setting [cores] on one flavor that both
    read before either writes leave the flavor with two processor
    components, against the spec's "at most one active component per
    component type". *)

From S2P Require Import Prelude Orm Format Flavor Host.

(** ** The two halves of a claim *)

(** Lines 169-170 up to the test: the row with the address, or [None]
    when [get] raises [ObjectDoesNotExist]. *)
Definition claim_read (ip : string) : M Store (option IPAddress) :=
  try_except
    (new_ip <- objects_get (fun r => bool_decide (ip_address r = ip)) ;; ret (Some new_ip))
    is_object_does_not_exist
    (fun _ => ret None).

(** Lines 170-180 on the row as read. *)
Definition claim_write (self : nat) (host_name ip : string) (read : option IPAddress) : M Store unit :=
  match read with
  | Some new_ip =>
      match ip_base_object new_ip with
      | None => save_row (mkIPAddress (ip_id new_ip) (ip_address new_ip) (Some self))
      | Some _ => log_warning (ip_in_use_warning ip host_name)
      end
  | None => create (fun id => mkIPAddress id ip (Some self)) ;;; ret tt
  end.

(** Host [self1]'s request and host [self2]'s request each claim [ip];
    both reads run before both writes. *)
Definition claims_interleaved (self1 : nat) (h1 : string) (self2 : nat) (h2 : string)
    (ip : string) : M Store unit :=
  r1 <- claim_read ip ;;
  r2 <- claim_read ip ;;
  claim_write self1 h1 ip r1 ;;;
  claim_write self2 h2 ip r2.

(** The same two claims one after the other. *)
Definition claims_sequential (self1 : nat) (h1 : string) (self2 : nat) (h2 : string)
    (ip : string) : M Store unit :=
  claim_ip self1 h1 ip ;;; claim_ip self2 h2 ip.

(** Lines 45-50 of [_set_component]: [None] when the flavor already has a
    component of [model], otherwise the components of the type, which the
    loop will delete. *)
Definition attach_read (self : FlavorInstance) (model_args : ModelArgs) (model : ComponentModel)
    : M Store (option (list VirtualComponent)) :=
  try_except
    (objects_get (fun c => Nat.eqb (vc_base_object c) (fi_pk self) &&
                           Nat.eqb (vc_model c) (cm_id model)) ;;; ret None)
    is_object_does_not_exist
    (fun _ =>
       t <- dict_get model_args "type" ;;
       comps <- (fun s => Ok (typed_components s (fi_pk self) t) s) ;;
       ret (Some comps)).

(** Lines 51-53 on what was read. *)
Definition attach_write (self : FlavorInstance) (model : ComponentModel)
    (plan : option (list VirtualComponent)) : M Store unit :=
  match plan with
  | None => ret tt
  | Some comps =>
      for_each comps delete_row ;;;
      create (fun id => mkVirtualComponent id (fi_pk self) (cm_id model)) ;;;
      ret tt
  end.

(** Two [_set_component] calls on one flavor, both reading before
    either writes. *)
Definition set_components_interleaved (self : FlavorInstance) (args1 args2 : ModelArgs) : M Store unit :=
  m1 <- resolve_model args1 ;;
  m2 <- resolve_model args2 ;;
  p1 <- attach_read self args1 m1 ;;
  p2 <- attach_read self args2 m2 ;;
  attach_write self m1 p1 ;;;
  attach_write self m2 p2.

(** ** Lemmas *)

Lemma claim_read_row s r :
  ip_wf s -> In r (st_ips s) -> claim_read (ip_address r) s = Ok (Some r) s.
Proof.
  intros Hwf Hin. unfold claim_read, try_except, bind, objects_get. cbn [tbl_get Table_ips].
  rewrite (filter_singleton_of_le1 _ _ r); [done| |done|by apply bool_decide_eq_true].
  apply (filter_address_le1 s (ip_address r) Hwf).
Qed.

(** Saving a row under its own key puts it in the table. *)
Lemma save_ip_row_in s r b' :
  In r (st_ips s) ->
  In (mkIPAddress (ip_id r) (ip_address r) b')
     (st_ips (final (save_row (mkIPAddress (ip_id r) (ip_address r) b') s))).
Proof.
  intros Hin. unfold save_row, modify_st. cbn [final].
  rewrite (proj2 (existsb_exists _ _)) by (exists r; split; [done|apply Nat.eqb_refl]).
  cbn [tbl_set tbl_get Table_ips set_ips st_ips]. apply in_map_iff.
  exists r. split; [|done]. cbn. by rewrite Nat.eqb_refl.
Qed.

(** Writing the host as owner of a row read free: the address is the
    host's, nothing is logged, the table stays well formed. *)
Lemma claim_write_free self h s r :
  ip_wf s -> In r (st_ips s) -> ip_base_object r = None ->
  exists s', claim_write self h (ip_address r) (Some r) s = Ok tt s' /\ ip_wf s' /\
    st_log s' = st_log s /\ owner s' (ip_address r) = Some (Some self) /\
    In (mkIPAddress (ip_id r) (ip_address r) (Some self)) (st_ips s').
Proof.
  intros Hwf Hin Hb. unfold claim_write. rewrite Hb.
  pose proof (save_ip_row_in s r (Some self) Hin) as Hrow.
  destruct (save_ip_keep_address s r (Some self) Hwf Hin) as (s' & Hs & Hwf' & Hlog & Ho).
  rewrite Hs in Hrow |- *. exists s'. split_and!; try done. by rewrite Ho, bool_decide_eq_true_2.
Qed.

(** The split is faithful: a claim is its read followed by a write
    decided on the value read, whatever the store (the [try] around the
    write catches nothing, since the write never raises). *)
Lemma claim_ip_read_then_write self h ip s :
  claim_ip self h ip s = (r <- claim_read ip ;; claim_write self h ip r) s.
Proof.
  unfold claim_ip, claim_read, claim_write, try_except, bind, ret.
  destruct (objects_get _ s) as [r s1|e s1]; [by destruct (ip_base_object r)|].
  by destruct (is_object_does_not_exist e).
Qed.

(** Likewise [_set_component] is the model lookup, then the read half of
    the replacement, then its write half. *)
Lemma set_component_read_then_write self model_args s :
  _set_component self model_args s =
  (m <- resolve_model model_args ;; p <- attach_read self model_args m ;; attach_write self m p) s.
Proof.
  unfold _set_component, attach_model, attach_read, attach_write, try_except, bind, ret.
  destruct (resolve_model model_args s) as [m s1|e s1]; [|done].
  destruct (objects_get _ s1) as [c s2|e s2]; [done|].
  destruct (is_object_does_not_exist e); [|done].
  destruct (dict_get model_args "type" s2) as [t s3|e' s3]; [|done].
  cbn. destruct (for_each _ delete_row _); done.
Qed.

(** The read half when the flavor has no component of the model: the
    components of the type, to be deleted. *)
Lemma attach_read_unused self args m t s :
  dict_lookup args "type" = Some (VType t) ->
  (forall c, In c (st_components s) -> vc_base_object c = fi_pk self -> vc_model c <> cm_id m) ->
  attach_read self args m s = Ok (Some (typed_components s (fi_pk self) (VType t))) s.
Proof.
  intros Ht Hno. unfold attach_read, try_except, bind, objects_get. cbn [tbl_get Table_components].
  rewrite filter_all_false; [cbn; unfold dict_get; by rewrite Ht|].
  intros c Hc. apply not_true_iff_false. intros (Hb%Nat.eqb_eq & Hm%Nat.eqb_eq)%andb_true_iff.
  by apply (Hno c).
Qed.

(** The write half: the deletions, then one new component. *)
Lemma attach_write_some self m comps s :
  attach_write self m (Some comps) s =
  Ok tt (set_components (without_rows comps (st_components s) ++
                         [mkVirtualComponent (st_next s) (fi_pk self) (cm_id m)])
           (set_next (S (st_next s)) (set_components (without_rows comps (st_components s)) s))).
Proof. unfold attach_write, bind. by rewrite (for_each_delete_row (R:=VirtualComponent)). Qed.

(** A flavor with a component of a model named ["<n> cores vCPU"] has
    [n] cores. *)
Lemma cores_uses_model s fi m n c :
  flavor_wf s -> fi_prefetched fi = None -> In m (st_models s) -> cm_name m = cpu_name n ->
  In c (st_components s) -> vc_base_object c = fi_pk fi -> vc_model c = cm_id m ->
  cores fi s = Ok (Some (VInt n)) s.
Proof.
  intros Hwf Hn Hm Hnm Hc Hb Hcm.
  destruct (proj1 (List.Forall_forall _ _) (wf_catalog _ Hwf) m Hm) as [Hcat _].
  destruct (Hcat n Hnm) as [Hty Hcores].
  assert (Hcms : component_model s c = Some m) by (apply component_model_in; [apply Hwf|done|done]).
  assert (Ht : typed_components s (fi_pk fi) (VType ComponentType.processor) = [c]).
  { apply filter_singleton_of_le1; [apply Hwf|done|]. rewrite <- Hty.
    apply uses_model_typed; [apply Hwf|done|]. by rewrite Hb, Hcm, !Nat.eqb_refl. }
  unfold cores, _get_component. rewrite Hn, (query_component_single s _ _ _ c m Ht Hcms).
  cbn. by rewrite Hcores.
Qed.

(** Appending models does not change what the query path reads. *)
Lemma query_component_extend s s' l self t f v :
  Forall (fun c => is_Some (component_model s c)) (st_components s) ->
  st_models s' = st_models s ++ l -> st_components s' = st_components s ->
  query_component self t f s = Ok v s -> query_component self t f s' = Ok v s'.
Proof.
  intros Hall Hl Hc [= <-]. destruct (models_extend s s' l Hall Hl Hc) as [Hcm Ht].
  unfold query_component. rewrite Ht. do 2 f_equal. apply map_ext_in. intros c Hin.
  apply filter_In in Hin as [Hin _]. by rewrite Hcm.
Qed.

(** [_set_component] with the [cores] dictionary, on a flavor read
    without a prefetch cache: the flavor then has [n] cores. *)
Lemma set_component_cpu s fi n :
  flavor_wf s -> fi_prefetched fi = None ->
  exists s', _set_component fi (cpu_args n) s = Ok tt s' /\ flavor_wf s' /\
    cores fi s' = Ok (Some (VInt n)) s'.
Proof.
  intros Hwf Hn.
  destruct (set_component_spec (cpu_args n) (cpu_name n) ComponentType.processor (cpu_args_ok n) fi s Hwf)
    as (s' & m & c & Hset & Hwf' & Hin & Hnm & Ht & Hcm & _).
  exists s'. split_and!; [done|done|].
  destruct (proj1 (List.Forall_forall _ _) (wf_catalog _ Hwf') m Hin) as [Hcat _].
  destruct (Hcat n Hnm) as [_ Hcores].
  unfold cores, _get_component. rewrite Hn, (query_component_single s' _ _ _ c m Ht Hcm).
  cbn. by rewrite Hcores.
Qed.

(** A new component of the flavor pointing to a processor model of the
    catalog is one of its processor components. *)
Lemma new_component_typed s fi m id :
  @keys_ok ComponentModel _ s -> In m (st_models s) -> cm_type m = ComponentType.processor ->
  is_typed s (fi_pk fi) (VType ComponentType.processor) (mkVirtualComponent id (fi_pk fi) (cm_id m)) = true.
Proof.
  intros Hk Hin Hty. rewrite <- Hty. apply uses_model_typed; [done|done|]. cbn. by rewrite !Nat.eqb_refl.
Qed.

(** A flavor whose cores is not [n] has no component of a model named
    ["<n> cores vCPU"], also once models have been appended. *)
Lemma cpu_model_unused s s2 l fi m n :
  flavor_wf s -> flavor_wf s2 -> fi_prefetched fi = None ->
  st_models s2 = st_models s ++ l -> st_components s2 = st_components s ->
  In m (st_models s2) -> cm_name m = cpu_name n -> cores fi s <> Ok (Some (VInt n)) s ->
  forall c, In c (st_components s2) -> vc_base_object c = fi_pk fi -> vc_model c <> cm_id m.
Proof.
  intros Hwf Hwf2 Hn Hl Hc Hm Hnm Hne c Hcin Hb Hcm. apply Hne.
  pose proof (cores_uses_model s2 fi m n c Hwf2 Hn Hm Hnm Hcin Hb Hcm) as H2.
  unfold cores, _get_component in *. rewrite Hn in *.
  pose proof (query_component_extend s s2 l (fi_pk fi) ComponentType.processor FCores _
                (wf_component_models _ Hwf) Hl Hc eq_refl) as Hq.
  rewrite H2 in Hq. injection Hq as Hv. unfold query_component. f_equal. exact (eq_sym Hv).
Qed.

(** Two write halves on the same components read: the flavor ends with
    both new components of the type. *)
Lemma two_writes_typed s2 fi m1 m2 :
  flavor_wf s2 -> In m1 (st_models s2) -> In m2 (st_models s2) ->
  cm_type m1 = ComponentType.processor -> cm_type m2 = ComponentType.processor ->
  exists s4,
    (attach_write fi m1 (Some (typed_components s2 (fi_pk fi) (VType ComponentType.processor))) ;;;
     attach_write fi m2 (Some (typed_components s2 (fi_pk fi) (VType ComponentType.processor)))) s2 = Ok tt s4 /\
    st_models s4 = st_models s2 /\
    typed_components s4 (fi_pk fi) (VType ComponentType.processor) =
      [mkVirtualComponent (st_next s2) (fi_pk fi) (cm_id m1);
       mkVirtualComponent (S (st_next s2)) (fi_pk fi) (cm_id m2)].
Proof.
  intros Hwf2 Hin1 Hin2 Hty1 Hty2.
  set (T := typed_components s2 (fi_pk fi) (VType ComponentType.processor)).
  set (c1 := mkVirtualComponent (st_next s2) (fi_pk fi) (cm_id m1)).
  set (c2 := mkVirtualComponent (S (st_next s2)) (fi_pk fi) (cm_id m2)).
  assert (HT : Forall (fun x => row_pk x < row_pk c1) T).
  { apply List.Forall_forall. intros x Hx. apply filter_In in Hx as [Hx _].
    by apply (proj1 (List.Forall_forall _ _) (proj2 (wf_component_keys _ Hwf2)) x). }
  set (s4 := set_components (without_rows T (without_rows T (st_components s2) ++ [c1]) ++ [c2])
               (set_next (S (S (st_next s2)))
                  (set_components (without_rows T (without_rows T (st_components s2) ++ [c1])) s2))).
  exists s4. split; [unfold bind; rewrite attach_write_some; by rewrite attach_write_some|].
  split; [reflexivity|].
  unfold typed_components. rewrite (is_typed_models s2 s4 eq_refl). cbn [st_components s4 set_components].
  rewrite (without_rows_app (R:=VirtualComponent)), (without_rows_idem (R:=VirtualComponent)),
    (without_rows_fresh (R:=VirtualComponent) T c1 HT), !filter_app_bool.
  unfold T, typed_components.
  rewrite (typed_without s2 _ _ _ _ (st_components s2) (proj1 (wf_component_keys _ Hwf2))),
    bool_decide_eq_true_2 by done.
  assert (Hmk := wf_model_keys _ Hwf2).
  assert (Hc1t : is_typed s2 (fi_pk fi) (VType ComponentType.processor) c1 = true)
    by (by apply new_component_typed).
  assert (Hc2t : is_typed s2 (fi_pk fi) (VType ComponentType.processor) c2 = true)
    by (by apply new_component_typed).
  cbn [List.filter app]. by rewrite Hc1t, Hc2t.
Qed.

(** ** Properties *)

(** C27 (ordering, a lost update): two requests claim the same free
    address.  One after the other, the first host gets it and the second
    request logs the "already in use" warning.  With both reads before
    both writes, nothing is raised and nothing is logged, and the second
    host ends up owning the address the first request has just taken. *)
Theorem claims_race_lost_update self1 h1 self2 h2 r s :
  ip_wf s -> In r (st_ips s) -> ip_base_object r = None ->
  (exists s', claims_sequential self1 h1 self2 h2 (ip_address r) s = Ok tt s' /\
     owner s' (ip_address r) = Some (Some self1) /\
     st_log s' = st_log s ++ [ip_in_use_warning (ip_address r) h2]) /\
  (exists s', claims_interleaved self1 h1 self2 h2 (ip_address r) s = Ok tt s' /\
     owner s' (ip_address r) = Some (Some self2) /\ st_log s' = st_log s).
Proof.
  intros Hwf Hin Hb. pose proof (owner_in s r Hwf Hin) as Hown. rewrite Hb in Hown.
  split.
  - destruct (claim_ip_spec self1 h1 (ip_address r) s Hwf) as (s1 & Hs1 & Hwf1 & Hlog1 & Ho1).
    destruct (claim_ip_spec self2 h2 (ip_address r) s1 Hwf1) as (s2 & Hs2 & _ & Hlog2 & Ho2).
    rewrite Ho1, bool_decide_eq_true_2, Hown in Ho2 by done.
    rewrite Hown in Hlog1. cbn in Hlog1. rewrite app_nil_r in Hlog1.
    exists s2. unfold claims_sequential, bind. rewrite Hs1, Hs2.
    rewrite Ho2, bool_decide_eq_true_2 by done. rewrite Hlog2, Hlog1, Ho1, bool_decide_eq_true_2 by done.
    rewrite Hown. by split_and!.
  - destruct (claim_write_free self1 h1 s r Hwf Hin Hb) as (s1 & Hs1 & Hwf1 & Hlog1 & _ & Hin1).
    destruct (save_ip_keep_address s1 _ (Some self2) Hwf1 Hin1) as (s2 & Hs2 & _ & Hlog2 & Ho2).
    exists s2. unfold claims_interleaved, bind. rewrite !claim_read_row by done. rewrite Hs1.
    unfold claim_write at 1. rewrite Hb. cbn [ip_id ip_address] in Hs2, Ho2. rewrite Hs2.
    rewrite Ho2, bool_decide_eq_true_2 by done. by rewrite Hlog2, Hlog1.
Qed.

Lemma claims_race_lost_update_witness :
  ip_wf example_ip_store /\ In (mkIPAddress 4 "10.0.0.2" None) (st_ips example_ip_store) /\
  ((exists s', claims_sequential 1 "web-1" 8 "web-2" "10.0.0.2" example_ip_store = Ok tt s' /\
     owner s' "10.0.0.2" = Some (Some 1) /\
     st_log s' = st_log example_ip_store ++ [ip_in_use_warning "10.0.0.2" "web-2"]) /\
   (exists s', claims_interleaved 1 "web-1" 8 "web-2" "10.0.0.2" example_ip_store = Ok tt s' /\
     owner s' "10.0.0.2" = Some (Some 8) /\ st_log s' = st_log example_ip_store)).
Proof.
  split; [apply example_ip_store_wf|split; [by right; left|]].
  apply (claims_race_lost_update 1 "web-1" 8 "web-2" (mkIPAddress 4 "10.0.0.2" None));
    [apply example_ip_store_wf|by right; left|reflexivity].
Defined.

(** C28 (ordering): take any flavor, read without a prefetch cache, in a
    store satisfying the invariant, and two [cores] assignments [n1] and
    [n2] that both differ from its current [cores] (so both setters call
    [_set_component]).  One after the other, they leave the invariant and
    [cores] reads [n2].  With both reads of [_set_component] before
    either write, each write deletes the components it read and creates
    its own: the flavor ends with two processor components, the store
    breaks the one-component-per-type invariant, and [cores] reads [n1],
    the value of the request that wrote first. *)
Theorem set_components_race_two_processors s fi n1 n2 :
  flavor_wf s -> fi_prefetched fi = None ->
  cores fi s <> Ok (Some (VInt n1)) s -> cores fi s <> Ok (Some (VInt n2)) s ->
  (exists s', (_set_component fi (cpu_args n1) ;;; _set_component fi (cpu_args n2)) s = Ok tt s' /\
     flavor_wf s' /\ cores fi s' = Ok (Some (VInt n2)) s') /\
  (exists s', set_components_interleaved fi (cpu_args n1) (cpu_args n2) s = Ok tt s' /\
     length (typed_components s' (fi_pk fi) (VType ComponentType.processor)) = 2 /\
     ~ flavor_wf s' /\ cores fi s' = Ok (Some (VInt n1)) s').
Proof.
  intros Hwf Hn Hn1 Hn2. split.
  - destruct (set_component_cpu s fi n1 Hwf Hn) as (s1 & Hs1 & Hwf1 & _).
    destruct (set_component_cpu s1 fi n2 Hwf1 Hn) as (s2 & Hs2 & Hwf2 & Hc2).
    exists s2. unfold bind. by rewrite Hs1, Hs2.
  - destruct (resolve_model_spec (cpu_args n1) _ _ (cpu_args_ok n1) s Hwf)
      as (m1 & s1 & Hr1 & Hwf1 & Hin1 & Hnm1 & Hty1 & Hc1 & _ & l1 & Hl1).
    destruct (resolve_model_spec (cpu_args n2) _ _ (cpu_args_ok n2) s1 Hwf1)
      as (m2 & s2 & Hr2 & Hwf2 & Hin2 & Hnm2 & Hty2 & Hc2 & _ & l2 & Hl2).
    assert (Hin1' : In m1 (st_models s2)) by (rewrite Hl2; apply in_or_app; by left).
    assert (Hl : st_models s2 = st_models s ++ (l1 ++ l2)) by (by rewrite Hl2, Hl1, app_assoc).
    assert (Hc : st_components s2 = st_components s) by congruence.
    destruct (two_writes_typed s2 fi m1 m2 Hwf2 Hin1' Hin2 Hty1 Hty2) as (s4 & Hw & Hms & Ht4).
    exists s4. split_and!.
    + unfold set_components_interleaved, bind. rewrite Hr1, Hr2.
      rewrite (attach_read_unused fi (cpu_args n1) m1 ComponentType.processor s2 eq_refl
                 (cpu_model_unused s s2 _ fi m1 n1 Hwf Hwf2 Hn Hl Hc Hin1' Hnm1 Hn1)).
      rewrite (attach_read_unused fi (cpu_args n2) m2 ComponentType.processor s2 eq_refl
                 (cpu_model_unused s s2 _ fi m2 n2 Hwf Hwf2 Hn Hl Hc Hin2 Hnm2 Hn2)).
      exact Hw.
    + by rewrite Ht4.
    + intros Hwf4. pose proof (wf_one_per_type _ Hwf4 (fi_pk fi) (VType ComponentType.processor)) as Hle.
      rewrite Ht4 in Hle. cbn in Hle. lia.
    + unfold cores, _get_component. rewrite Hn. unfold query_component. rewrite Ht4. cbn [List.map head].
      rewrite (component_model_models s2 s4 _ Hms),
        (component_model_in s2 (mkVirtualComponent (st_next s2) (fi_pk fi) (cm_id m1)) m1
           (wf_model_keys _ Hwf2) Hin1' eq_refl).
      destruct (proj1 (List.Forall_forall _ _) (wf_catalog _ Hwf2) m1 Hin1') as [Hcat _].
      destruct (Hcat n1 Hnm1) as [_ Hcores]. cbn [from_option model_value]. by rewrite Hcores.
Qed.

Lemma set_components_race_two_processors_witness :
  (exists s', (_set_component example_flavor (cpu_args 4) ;;; _set_component example_flavor (cpu_args 8))
                example_store = Ok tt s' /\
     flavor_wf s' /\ cores example_flavor s' = Ok (Some (VInt 8)) s') /\
  (exists s', set_components_interleaved example_flavor (cpu_args 4) (cpu_args 8) example_store = Ok tt s' /\
     length (typed_components s' (fi_pk example_flavor) (VType ComponentType.processor)) = 2 /\
     ~ flavor_wf s' /\ cores example_flavor s' = Ok (Some (VInt 4)) s').
Proof.
  apply set_components_race_two_processors; [apply example_store_wf|reflexivity|vm_compute; discriminate..].
Defined.
