(* ===== verification/IpSpec.v ===== *)
(** * An abstract specification of IP ownership and its refinement

    The spec states the contract of the [IPAddress] table as seen by the
    rest of the system: every known address has at most one owner, and
    assigning [host.ip_addresses = value] takes the requested addresses
    that are new or free, leaves those another object owns with it
    ("rejected, logged, not raised"), and frees the host's addresses that
    are no longer requested.  Here the abstract state is a finite map
    [ownership] from address to owner ([None] for a free row), the
    assignment is [assign_spec] written with stdpp's map operations, and
    [abs_ips] reads the table as such a map.  The setter refines the
    abstract assignment, and every step of [System] is an abstract
    assignment or leaves the map unchanged, so every run of the system is
    a run of the abstract machine [abs_step]. *)

From stdpp Require Import gmap.
From S2P Require Import Prelude Orm Format Flavor Host Project System.

(** ** The abstract machine *)

Abbreviation ownership := (gmap string (option nat)).

(** [host.ip_addresses = value] for host [self], on the abstract map: a
    requested address keeps an owner it has, and is the host's otherwise;
    an address that is not requested is freed if the host owned it. *)
Definition assign_spec (self : nat) (value : list string) (m : ownership) : ownership :=
  let requested : ownership :=
    list_to_map ((fun a => (a, match m !! a with Some (Some o) => Some o | _ => Some self end)) <$> value) in
  let released : ownership := (fun o => if decide (o = Some self) then None else o) <$> m in
  requested ∪ released.

Inductive abs_step : ownership -> ownership -> Prop :=
| abs_assign self value m : abs_step m (assign_spec self value m)
| abs_skip m : abs_step m m.

(** The [IPAddress] table read as the abstract map. *)
Definition abs_ips (s : Store) : ownership :=
  list_to_map ((fun r => (ip_address r, ip_base_object r)) <$> st_ips s).

(** ** Lemmas *)

Lemma lookup_list_to_map_keys (f : string -> option nat) (l : list string) a :
  (list_to_map ((fun b => (b, f b)) <$> l) : ownership) !! a =
  if bool_decide (a ∈ l) then Some (f a) else None.
Proof.
  induction l as [|b l IH]; [done|]. rewrite fmap_cons. cbv beta. rewrite list_to_map_cons.
  destruct (decide (a = b)) as [->|Hne].
  - rewrite lookup_insert_eq, bool_decide_eq_true_2; [done|]. by left.
  - rewrite lookup_insert_ne by congruence. rewrite IH.
    rewrite (bool_decide_ext (a ∈ b :: l) (a ∈ l)); [done|]. rewrite elem_of_cons. naive_solver.
Qed.

(** The table read as a map gives the owner the code sees (the first row
    with the address). *)
Lemma abs_ips_lookup s a : abs_ips s !! a = owner s a.
Proof.
  unfold abs_ips, owner. induction (st_ips s) as [|r l IH]; [done|].
  rewrite fmap_cons. cbv beta. rewrite list_to_map_cons. cbn [List.find].
  destruct (decide (ip_address r = a)) as [<-|Hne].
  - by rewrite lookup_insert_eq, bool_decide_eq_true_2.
  - rewrite lookup_insert_ne, bool_decide_eq_false_2 by done. apply IH.
Qed.

(** The abstract assignment is [ip_target] on every address. *)
Lemma assign_spec_lookup self value m a :
  assign_spec self value m !! a = ip_target self value (fun b => m !! b) a.
Proof.
  unfold assign_spec, ip_target. rewrite lookup_union, lookup_list_to_map_keys, lookup_fmap.
  case_bool_decide; [by destruct (m !! a) as [[o|]|]|].
  destruct (m !! a) as [[o|]|]; cbn; [|done|done].
  case_bool_decide; case_decide; congruence.
Qed.

(** A step that leaves the IP table alone is an abstract skip. *)
Lemma abs_step_same s s' : st_ips s' = st_ips s -> abs_step (abs_ips s) (abs_ips s').
Proof. unfold abs_ips. intros ->. constructor. Qed.

Lemma ip_target_ext self value o o' a :
  o a = o' a -> ip_target self value o a = ip_target self value o' a.
Proof. unfold ip_target. by intros ->. Qed.

(** A store whose owners are [ip_target]'s is the abstract assignment. *)
Lemma abs_ips_assign self value s s' :
  (forall a, owner s' a = ip_target self value (owner s) a) ->
  abs_ips s' = assign_spec self value (abs_ips s).
Proof.
  intros Ho. apply map_eq. intros a.
  rewrite assign_spec_lookup, abs_ips_lookup, Ho. apply ip_target_ext. by rewrite abs_ips_lookup.
Qed.

(** Every operation is an abstract assignment or an abstract skip. *)
Lemma exec_abs_step s o :
  store_inv s -> op_ok s o -> abs_step (abs_ips s) (abs_ips (final (exec o s))).
Proof.
  intros Hinv Hop. apply store_inv_parts in Hinv as (Hf & Hi & Hobj).
  assert (Hflavor : forall o, (exists fi n, o = SetCores fi n \/ o = SetMemory fi n \/ o = SetDisk fi n) ->
            abs_step (abs_ips s) (abs_ips (final (exec o s)))).
  { intros o' Ho'. apply abs_step_same.
    by destruct (flavor_setter_keeps (st_ips s) (st_objects s) (st_next s) o' Ho' s
                   ltac:(by split_and!)) as [Hips _]. }
  destruct o as [fi n|fi n|fi n|self h value|h|p]; [apply Hflavor; by eauto 6..| | |].
  - destruct (set_ip_addresses_spec self h value s Hi) as (s' & Hs & _ & _ & Ho).
    unfold exec. rewrite Hs. cbn. rewrite (abs_ips_assign self value s s' Ho). constructor.
  - destruct Hop as (_ & _ & Hpe). apply abs_step_same. cbn. rewrite final_seq_ret.
    apply (cloudhost_save_objects_only h s Hpe).
  - apply abs_step_same. cbn. rewrite final_seq_ret. apply cloudproject_save_objects_only.
Qed.

Lemma reachable_inv_abs init s :
  store_inv init -> reachable init s -> store_inv s /\ rtc abs_step (abs_ips init) (abs_ips s).
Proof.
  intros Hinit Hr. induction Hr as [|s s' _ [IHinv IHrtc] Hstep]; [done|].
  destruct Hstep as [s o Hop]. split; [by apply exec_store_inv|].
  eapply rtc_r; [exact IHrtc|]. by apply exec_abs_step.
Qed.

(** Abstract assignments never forget an address. *)
Lemma assign_spec_dom self value m : dom m ⊆ dom (assign_spec self value m).
Proof. unfold assign_spec. rewrite dom_union_L, dom_fmap_L. set_solver. Qed.

Lemma rtc_abs_step_dom m m' : rtc abs_step m m' -> dom m ⊆ dom m'.
Proof.
  induction 1 as [|m1 m2 m3 Hs _ IH]; [done|].
  destruct Hs; [|done]. etrans; [apply assign_spec_dom|exact IH].
Qed.

(** ** Properties *)

(** C22 (refinement of the whole system): from a store satisfying the
    invariant, every run of the handlers, read through [abs_ips], is a run
    of the abstract machine whose steps are [assign_spec] or nothing. *)
Theorem reachable_refines_ownership init s :
  store_inv init -> reachable init s -> rtc abs_step (abs_ips init) (abs_ips s).
Proof. intros Hinit Hr. apply (reachable_inv_abs init s Hinit Hr). Qed.

Lemma reachable_refines_ownership_witness :
  rtc abs_step (abs_ips sys_init)
    (abs_ips (final (exec (SetIpAddresses 3 "web-1" ["10.0.0.5"]) sys_init))).
Proof.
  apply reachable_refines_ownership; [apply sys_init_inv|].
  eapply reach_step; [apply reach_init|]. by constructor.
Defined.

(** C23 (safety, proved on the abstract machine): an address that is in
    the [IPAddress] table stays in it in every reachable store; the
    handlers free addresses but never delete them. *)
Theorem reachable_keeps_addresses init s a :
  store_inv init -> reachable init s -> is_Some (owner init a) -> is_Some (owner s a).
Proof.
  intros Hinit Hr Ha. rewrite <- !abs_ips_lookup, <- !elem_of_dom in *.
  eapply rtc_abs_step_dom; [|exact Ha]. apply (reachable_inv_abs init s Hinit Hr).
Qed.

Lemma reachable_keeps_addresses_witness :
  is_Some (owner (final (exec (SetIpAddresses 3 "web-1" []) (set_ips
    [mkIPAddress 4 "10.0.0.5" (Some 3)] sys_init))) "10.0.0.5").
Proof.
  apply (reachable_keeps_addresses (set_ips [mkIPAddress 4 "10.0.0.5" (Some 3)] sys_init)).
  - apply store_inv_parts. split_and!.
    + constructor; try split; try constructor. intros. unfold typed_components. simpl. lia.
    + split; [split|]; repeat constructor; simpl; try set_solver; lia.
    + apply objects_partb_spec. vm_compute. reflexivity.
  - eapply reach_step; [apply reach_init|]. by constructor.
  - vm_compute. by eexists.
Defined.
